(** * Pure Dispatch: broker scoring, compliance window and outreach campaigns

    A shallow embedding of the scoring functions
    ([calculateRelationshipScore] of api/broker-score.ts, [scoreBrokerTarget]
    of api/lane-targeting.ts), of the calling-hours evaluator
    ([getStateRules], [canCallNow] of api/compliance-check.ts) and of the
    handlers that create and advance outreach campaign records
    (api/email-send.ts, api/voice-call.ts, api/response-track.ts and
    api/follow-up-check.ts).

    Conventions of the embedding:
    - a nullable column is an [option]; JavaScript truthiness is written out
      ([truthy_num], [truthy_str]), so that [0] and the empty string behave as
      they do in the handlers;
    - integer columns are [Z], the derived [response_rate] is a rational [Q],
      instants are [Z] milliseconds since the epoch;
    - the record store is explicit state: the [outreach_campaigns] table is a
      list of rows in storage order, tables read by primary key are [gmap]s;
    - the delivery providers are functions handed to the handlers, and every
      request made to them is appended to a log kept in the state;
    - a handler reads the clock once: [now] stands for every [new Date()] of
      one invocation; strings are byte strings and case conversion acts on
      the ASCII letters;
    - a handler is a function from the world before the request to the world
      after it and the HTTP response; the caller is already authenticated. *)

From Stdlib Require Import ZArith QArith Qround List Ascii Bool Lia Permutation Sorted.
From Stdlib Require String.
From stdpp Require Import gmap strings pretty.

Import ListNotations.
Local Open Scope Z_scope.

(** ** JavaScript values *)

Module JS.

(** [if (x)] on a nullable number: [null], [undefined] and [0] are falsy. *)
Definition truthy_num (x : option Z) : bool :=
  match x with
  | Some v => negb (v =? 0)
  | None => false
  end.

(** [if (s)] on a nullable string: [null], [undefined] and [''] are falsy. *)
Definition truthy_str (s : option string) : bool :=
  match s with
  | Some EmptyString => false
  | Some _ => true
  | None => false
  end.

(** [x || 0] on a nullable number. *)
Definition or_zero (x : option Z) : Z :=
  match x with
  | Some v => v
  | None => 0
  end.

(** A comparison [x op k] whose left operand is [undefined]/[null] in the
    places it is used here is guarded or false; [cmp_num] is the guarded
    form: the comparison holds only of a present value. *)
Definition cmp_num (op : Z -> Z -> bool) (x : option Z) (k : Z) : bool :=
  match x with
  | Some v => op v k
  | None => false
  end.

Definition Qgtb (a b : Q) : bool := negb (Qle_bool a b).

(** [rate > k] for the nullable rational [response_rate]. *)
Definition rate_gt (x : option Q) (k : Q) : bool :=
  match x with
  | Some v => Qgtb v k
  | None => false
  end.

(** [String.prototype.toUpperCase] on the ASCII range. *)
Definition upper_ascii (c : ascii) : ascii :=
  let n := nat_of_ascii c in
  if ((97 <=? n)%nat && (n <=? 122)%nat)%bool then ascii_of_nat (n - 32) else c.

Fixpoint toUpperCase (s : string) : string :=
  match s with
  | EmptyString => EmptyString
  | String c r => String (upper_ascii c) (toUpperCase r)
  end.

(** [s.includes(sub)]. *)
Fixpoint includes (s sub : string) : bool :=
  String.prefix sub s ||
  match s with
  | EmptyString => false
  | String _ r => includes r sub
  end.

(** [Math.min] and [Math.max] on integers. *)
Definition min (a b : Z) : Z := Z.min a b.
Definition max (a b : Z) : Z := Z.max a b.

End JS.

(** ** Broker records *)

(** The columns of [brokers] (and of [broker_leads], which the target scorer
    reads through the same field names) that the modelled code reads or
    writes. *)
Record Broker := mkBroker {
  b_id : string;
  b_carrier_id : string;
  company_name : string;
  email : option string;
  phone : option string;
  address_state : option string;
  preferred_lanes : option (list string);
  authority_status : option string;
  insurance_on_file : bool;
  outreach_status : option string;
  credit_score : option Z;
  days_to_pay : option Z;
  response_rate : option Q;
  total_loads_booked : option Z;
  total_outreach_attempts : option Z;
  total_responses : option Z;
  last_contact_date : option Z;
  first_contact_date : option Z
}.

(** A record with every nullable column absent. *)
Definition blank_broker : Broker :=
  {| b_id := ""; b_carrier_id := ""; company_name := "";
     email := None; phone := None; address_state := None;
     preferred_lanes := None; authority_status := None;
     insurance_on_file := false; outreach_status := None;
     credit_score := None; days_to_pay := None; response_rate := None;
     total_loads_booked := None; total_outreach_attempts := None;
     total_responses := None; last_contact_date := None;
     first_contact_date := None |}.

Definition status_is (s : option string) (lit : string) : bool :=
  match s with
  | Some v => String.eqb v lit
  | None => false
  end.

(** ** RelationshipScorer (api/broker-score.ts) *)

Module RelationshipScorer.

Record Breakdown := mkBreakdown {
  payment : Z;
  responsiveness : Z;
  revenue : Z;
  reliability : Z
}.

Definition paymentScore (broker : Broker) : Z :=
  let paymentScore := 15 in
  let paymentScore :=
    if JS.truthy_num (credit_score broker) then
      let cs := JS.or_zero (credit_score broker) in
      if cs >=? 95 then 25
      else if cs >=? 90 then 22
      else if cs >=? 85 then 18
      else if cs >=? 80 then 12
      else 5
    else paymentScore in
  if JS.truthy_num (days_to_pay broker) then
    let d := JS.or_zero (days_to_pay broker) in
    if d <=? 7 then JS.min 25 (paymentScore + 5)
    else if d <=? 15 then JS.min 25 (paymentScore + 3)
    else if d >? 45 then JS.max 0 (paymentScore - 5)
    else paymentScore
  else paymentScore.

Definition ms_per_day : Z := 1000 * 60 * 60 * 24.

(** [now] is the value of [Date.now()]. *)
Definition responseScore (now : Z) (broker : Broker) : Z :=
  let responseScore :=
    if JS.rate_gt (response_rate broker) 80 then 25
    else if JS.rate_gt (response_rate broker) 50 then 20
    else if JS.rate_gt (response_rate broker) 25 then 15
    else if JS.rate_gt (response_rate broker) 0 then 8
    else if (JS.cmp_num Z.gtb (total_outreach_attempts broker) 3
             && match total_responses broker with
                | Some r => r =? 0
                | None => false
                end)%bool then 2
    else 10 in
  match last_contact_date broker with
  | Some t =>
      let daysSince := (now - t) / ms_per_day in
      if daysSince <=? 7 then JS.min 25 (responseScore + 5)
      else if daysSince <=? 30 then JS.min 25 (responseScore + 2)
      else if daysSince >? 90 then JS.max 0 (responseScore - 3)
      else responseScore
  | None => responseScore
  end.

Definition revenueScore (broker : Broker) : Z :=
  if JS.cmp_num Z.geb (total_loads_booked broker) 10 then 25
  else if JS.cmp_num Z.geb (total_loads_booked broker) 5 then 20
  else if JS.cmp_num Z.geb (total_loads_booked broker) 2 then 15
  else if JS.cmp_num Z.geb (total_loads_booked broker) 1 then 10
  else 0.

Definition reliabilityScore (broker : Broker) : Z :=
  let r := 10 in
  let r := if (status_is (authority_status broker) "active"
               || status_is (authority_status broker) "ACTIVE")%bool
           then r + 8 else r in
  let r := if insurance_on_file broker then r + 4 else r in
  let r := if status_is (outreach_status broker) "active" then r + 3 else r in
  let r := if status_is (outreach_status broker) "blacklisted" then 0 else r in
  JS.min 25 r.

Definition breakdown (now : Z) (broker : Broker) : Breakdown :=
  {| payment := paymentScore broker;
     responsiveness := responseScore now broker;
     revenue := revenueScore broker;
     reliability := reliabilityScore broker |}.

Definition calculateRelationshipScore (now : Z) (broker : Broker)
  : Z * Breakdown :=
  let bd := breakdown now broker in
  (JS.min 100 (payment bd + responsiveness bd + revenue bd + reliability bd), bd).

(** The payment rule as the specification words it: a present credit score,
    [0] included, selects a tier; a present days-to-pay, [0] included,
    adjusts it. *)
Definition payment_tier (cs : Z) : Z :=
  if cs >=? 95 then 25
  else if cs >=? 90 then 22
  else if cs >=? 85 then 18
  else if cs >=? 80 then 12
  else 5.

Definition paymentScore_spec (broker : Broker) : Z :=
  let base :=
    match credit_score broker with
    | Some cs => payment_tier cs
    | None => 15
    end in
  match days_to_pay broker with
  | Some d =>
      if d <=? 7 then Z.min 25 (base + 5)
      else if d <=? 15 then Z.min 25 (base + 3)
      else if d >? 45 then Z.max 0 (base - 5)
      else base
  | None => base
  end.

End RelationshipScorer.

(** ** GeoAdjacency and TargetScorer (api/lane-targeting.ts) *)

Module TargetScorer.

(** The carrier columns the scorer and the handlers read. *)
Record Carrier := mkCarrier {
  c_user_id : string;
  home_base_state : option string;
  c_preferred_lanes : option (list string)
}.

Definition STATE_NEIGHBORS_table : list (string * list string) :=
  [ ("NJ", ["NY"; "PA"; "DE"]);
    ("NY", ["NJ"; "PA"; "CT"; "MA"; "VT"]);
    ("PA", ["NJ"; "NY"; "DE"; "MD"; "WV"; "OH"]);
    ("DE", ["NJ"; "PA"; "MD"]);
    ("MD", ["PA"; "DE"; "WV"; "VA"; "DC"]);
    ("VA", ["MD"; "DC"; "WV"; "KY"; "TN"; "NC"]);
    ("NC", ["VA"; "TN"; "SC"; "GA"]);
    ("SC", ["NC"; "GA"]);
    ("GA", ["SC"; "NC"; "TN"; "AL"; "FL"]);
    ("FL", ["GA"; "AL"]);
    ("AL", ["TN"; "GA"; "FL"; "MS"]);
    ("MS", ["TN"; "AL"; "AR"; "LA"]);
    ("LA", ["MS"; "AR"; "TX"]);
    ("TX", ["LA"; "AR"; "OK"; "NM"]);
    ("OK", ["TX"; "AR"; "MO"; "KS"; "CO"; "NM"]);
    ("AR", ["MO"; "TN"; "MS"; "LA"; "TX"; "OK"]);
    ("TN", ["KY"; "VA"; "NC"; "GA"; "AL"; "MS"; "AR"; "MO"]);
    ("KY", ["OH"; "WV"; "VA"; "TN"; "MO"; "IL"; "IN"]);
    ("WV", ["OH"; "PA"; "MD"; "VA"; "KY"]);
    ("OH", ["PA"; "WV"; "KY"; "IN"; "MI"]);
    ("MI", ["OH"; "IN"; "WI"]);
    ("IN", ["OH"; "KY"; "IL"; "MI"]);
    ("IL", ["WI"; "IN"; "KY"; "MO"; "IA"]);
    ("WI", ["MI"; "IL"; "IA"; "MN"]);
    ("MN", ["WI"; "IA"; "ND"; "SD"]);
    ("IA", ["MN"; "WI"; "IL"; "MO"; "NE"; "SD"]);
    ("MO", ["IA"; "IL"; "KY"; "TN"; "AR"; "OK"; "KS"; "NE"]);
    ("KS", ["NE"; "MO"; "OK"; "CO"]);
    ("NE", ["SD"; "IA"; "MO"; "KS"; "CO"; "WY"]);
    ("SD", ["ND"; "MN"; "IA"; "NE"; "WY"; "MT"]);
    ("ND", ["MN"; "SD"; "MT"]);
    ("MT", ["ND"; "SD"; "WY"; "ID"]);
    ("WY", ["MT"; "SD"; "NE"; "CO"; "UT"; "ID"]);
    ("CO", ["WY"; "NE"; "KS"; "OK"; "NM"; "UT"]);
    ("NM", ["CO"; "OK"; "TX"; "AZ"]);
    ("AZ", ["NM"; "UT"; "NV"; "CA"]);
    ("UT", ["WY"; "CO"; "NM"; "AZ"; "NV"; "ID"]);
    ("NV", ["OR"; "ID"; "UT"; "AZ"; "CA"]);
    ("CA", ["OR"; "NV"; "AZ"]);
    ("OR", ["WA"; "ID"; "NV"; "CA"]);
    ("WA", ["OR"; "ID"]);
    ("ID", ["WA"; "OR"; "NV"; "UT"; "WY"; "MT"]);
    ("CT", ["NY"; "MA"; "RI"]);
    ("MA", ["NY"; "CT"; "RI"; "NH"; "VT"]);
    ("RI", ["CT"; "MA"]);
    ("NH", ["MA"; "VT"; "ME"]);
    ("VT", ["NY"; "MA"; "NH"]);
    ("ME", ["NH"]);
    ("DC", ["MD"; "VA"]) ].

Definition STATE_NEIGHBORS : gmap string (list string) :=
  list_to_map STATE_NEIGHBORS_table.

(** [xs.includes(x)] on an array of strings, where [x] may be [undefined]. *)
Definition array_includes (xs : list string) (x : option string) : bool :=
  match x with
  | Some v => existsb (String.eqb v) xs
  | None => false
  end.

(** [broker.address_state?.toUpperCase()]. *)
Definition brokerState (broker : Broker) : option string :=
  JS.toUpperCase <$> address_state broker.

(** Rule 1: geographic proximity. *)
Definition geo_points (broker : Broker) (carrierState : string) : Z :=
  if status_is (brokerState broker) carrierState then 20
  else
    match STATE_NEIGHBORS !! carrierState with
    | Some ns => if array_includes ns (brokerState broker) then 10 else 0
    | None => 0
    end.

(** Rule 2: the carrier lanes kept by the [filter]. *)
Definition lane_overlap (carrierLanes brokerLanes : list string) : list string :=
  List.filter
    (fun l => existsb (fun bl => JS.includes bl l || JS.includes l bl)%bool brokerLanes)
    carrierLanes.

Definition lane_points (broker : Broker) (carrier : Carrier) : Z :=
  let carrierLanes := default [] (c_preferred_lanes carrier) in
  let brokerLanes := default [] (preferred_lanes broker) in
  if ((0 <? Z.of_nat (length carrierLanes))
      && (0 <? Z.of_nat (length brokerLanes)))%bool then
    let overlap := lane_overlap carrierLanes brokerLanes in
    if 0 <? Z.of_nat (length overlap) then Z.of_nat (length overlap) * 10 else 0
  else 0.

(** Rule 3: broker quality signals. *)
Definition authority_points (broker : Broker) : Z :=
  if (status_is (authority_status broker) "ACTIVE"
      || status_is (authority_status broker) "active")%bool then 5 else 0.

Definition credit_points (broker : Broker) : Z :=
  if (JS.truthy_num (credit_score broker)
      && JS.cmp_num Z.geb (credit_score broker) 90)%bool then 10
  else if (JS.truthy_num (credit_score broker)
           && JS.cmp_num Z.ltb (credit_score broker) 80)%bool then -15
  else 0.

Definition pay_points (broker : Broker) : Z :=
  if (JS.truthy_num (days_to_pay broker)
      && JS.cmp_num Z.leb (days_to_pay broker) 15)%bool then 10
  else if (JS.truthy_num (days_to_pay broker)
           && JS.cmp_num Z.gtb (days_to_pay broker) 45)%bool then -5
  else 0.

(** Rule 4: never contacted. *)
Definition new_points (broker : Broker) : Z :=
  if (status_is (outreach_status broker) "new"
      || negb (JS.truthy_str (outreach_status broker)))%bool then 5 else 0.

(** Rule 5: previous bookings. *)
Definition booked_points (broker : Broker) : Z :=
  if JS.cmp_num Z.gtb (total_loads_booked broker) 0
  then JS.or_zero (total_loads_booked broker) * 5 else 0.

(** Rule 6: response rate. *)
Definition rate_points (broker : Broker) : Z :=
  if JS.rate_gt (response_rate broker) 50 then 10 else 0.

(** The running [score] before the final clamp. *)
Definition raw_score (broker : Broker) (carrier : Carrier) (carrierState : string) : Z :=
  let score := 50 in
  let score := score + geo_points broker carrierState in
  let score := score + lane_points broker carrier in
  let score := score + authority_points broker in
  let score := score + credit_points broker in
  let score := score + pay_points broker in
  let score := score + new_points broker in
  let score := score + booked_points broker in
  let score := score + rate_points broker in
  score.

(** The [score] field of the result of [scoreBrokerTarget]. *)
Definition scoreBrokerTarget (broker : Broker) (carrier : Carrier)
    (carrierState : string) : Z :=
  JS.min 100 (JS.max 0 (raw_score broker carrier carrierState)).

(** The reference definition, following the specification's wording rule by
    rule; a field counts as present whenever it holds a value, [0]
    included. *)
Definition spec_geo (broker : Broker) (home : string) : Z :=
  match JS.toUpperCase <$> address_state broker with
  | Some r =>
      if String.eqb r home then 20
      else if existsb (String.eqb r) (default [] (STATE_NEIGHBORS !! home))
      then 10 else 0
  | None => 0
  end.

Definition spec_lanes (broker : Broker) (carrier : Carrier) : Z :=
  10 * Z.of_nat (length
    (List.filter
       (fun l => existsb (fun bl => JS.includes bl l || JS.includes l bl)%bool
                   (default [] (preferred_lanes broker)))
       (default [] (c_preferred_lanes carrier)))).

Definition spec_authority (broker : Broker) : Z :=
  if (status_is (authority_status broker) "active"
      || status_is (authority_status broker) "ACTIVE")%bool then 5 else 0.

Definition spec_credit (broker : Broker) : Z :=
  match credit_score broker with
  | Some cs => if cs >=? 90 then 10 else if cs <? 80 then -15 else 0
  | None => 0
  end.

Definition spec_pay (broker : Broker) : Z :=
  match days_to_pay broker with
  | Some d => if d <=? 15 then 10 else if d >? 45 then -5 else 0
  | None => 0
  end.

Definition spec_new (broker : Broker) : Z :=
  match outreach_status broker with
  | None => 5
  | Some s => if (String.eqb s "new" || String.eqb s "")%bool then 5 else 0
  end.

Definition spec_booked (broker : Broker) : Z :=
  5 * default 0 (total_loads_booked broker).

Definition spec_rate (broker : Broker) : Z :=
  match response_rate broker with
  | Some r => if JS.Qgtb r 50 then 10 else 0
  | None => 0
  end.

Definition clamp (lo hi x : Z) : Z := Z.min hi (Z.max lo x).

Definition scoreBrokerTarget_spec (broker : Broker) (carrier : Carrier)
    (home : string) : Z :=
  clamp 0 100
    (50 + spec_geo broker home + spec_lanes broker carrier
        + spec_authority broker + spec_credit broker + spec_pay broker
        + spec_new broker + spec_booked broker + spec_rate broker).

End TargetScorer.

(** ** ComplianceWindow (api/compliance-check.ts) *)

Module ComplianceWindow.

Record StateRule := mkStateRule {
  state : string;
  name : string;
  timezone : string;
  call_start_hour : nat;
  call_end_hour : nat;
  state_dnc_registry : bool;
  additional_restrictions : list string
}.

Definition STATE_RULES_table : list (string * StateRule) :=
  [ ("CA", mkStateRule "CA" "California" "America/Los_Angeles" 8 21 true
             ["Requires written consent for automated calls";
              "Must identify caller within first 30 seconds"]);
    ("NY", mkStateRule "NY" "New York" "America/New_York" 8 21 true
             ["Must register with NY DNC"]);
    ("TX", mkStateRule "TX" "Texas" "America/Chicago" 8 21 true
             ["Must check Texas no-call list"]);
    ("FL", mkStateRule "FL" "Florida" "America/New_York" 8 21 true
             ["Calling hours 8am-8pm local"; "Must register as telemarketer"]);
    ("PA", mkStateRule "PA" "Pennsylvania" "America/New_York" 8 21 true []);
    ("IL", mkStateRule "IL" "Illinois" "America/Chicago" 8 21 true
             ["Must provide opt-out mechanism"]);
    ("NJ", mkStateRule "NJ" "New Jersey" "America/New_York" 8 21 true
             ["Must register with NJ DCA"]);
    ("GA", mkStateRule "GA" "Georgia" "America/New_York" 8 21 true []);
    ("OH", mkStateRule "OH" "Ohio" "America/New_York" 8 21 true []);
    ("NC", mkStateRule "NC" "North Carolina" "America/New_York" 8 21 true []) ].

Definition STATE_RULES : gmap string StateRule := list_to_map STATE_RULES_table.

Definition FEDERAL_DEFAULT : StateRule :=
  {| state := "DEFAULT";
     name := "Federal (TCPA)";
     timezone := "America/New_York";
     call_start_hour := 8;
     call_end_hour := 21;
     state_dnc_registry := false;
     additional_restrictions :=
       ["Federal TCPA: No calls before 8am or after 9pm local time";
        "Must identify yourself and company";
        "Must honor do-not-call requests immediately";
        "B2B cold calls are generally permitted under TCPA"] |}.

Definition getStateRules (stateCode : string) : StateRule :=
  match STATE_RULES !! JS.toUpperCase stateCode with
  | Some rules => rules
  | None =>
      {| state := JS.toUpperCase stateCode;
         name := JS.toUpperCase stateCode;
         timezone := timezone FEDERAL_DEFAULT;
         call_start_hour := call_start_hour FEDERAL_DEFAULT;
         call_end_hour := call_end_hour FEDERAL_DEFAULT;
         state_dnc_registry := state_dnc_registry FEDERAL_DEFAULT;
         additional_restrictions := additional_restrictions FEDERAL_DEFAULT |}
  end.

(** The wall clock of a time zone at an instant: what
    [new Date(now.toLocaleString('en-US', { timeZone }))] yields through
    [getHours()] and [getMinutes()].  The time-zone database belongs to the
    runtime, so the conversion is an argument of [canCallNow]. *)
Record LocalTime := mkLocalTime { hours : nat; minutes : nat }.

Definition TimeZones := string -> Z -> LocalTime.

(** [n.toString().padStart(2, '0')]. *)
Definition pad2 (n : nat) : string :=
  let s := pretty n in
  match String.length s with
  | O => "00"
  | S O => "0" +:+ s
  | _ => s
  end.

Record CallCheck := mkCallCheck {
  allowed : bool;
  reason : string;
  local_time : string
}.

Definition canCallNow (zones : TimeZones) (now : Z) (stateCode : string)
  : CallCheck :=
  let rules := getStateRules stateCode in
  let localTime := zones (timezone rules) now in
  let hour := hours localTime in
  let minute := minutes localTime in
  let timeStr := pad2 hour +:+ ":" +:+ pad2 minute in
  if (hour <? call_start_hour rules)%nat then
    {| allowed := false;
       reason := "Too early in " +:+ name rules
                 +:+ ". Calling allowed after " +:+ pretty (call_start_hour rules)
                 +:+ ":00 AM local time. Current local time: " +:+ timeStr +:+ ".";
       local_time := timeStr |}
  else if (call_end_hour rules <=? hour)%nat then
    {| allowed := false;
       reason := "Too late in " +:+ name rules
                 +:+ ". Calling not allowed after " +:+ pretty (call_end_hour rules)
                 +:+ ":00 PM local time. Current local time: " +:+ timeStr +:+ ".";
       local_time := timeStr |}
  else
    {| allowed := true;
       reason := "OK to call " +:+ name rules
                 +:+ ". Current local time: " +:+ timeStr
                 +:+ ". Window: " +:+ pretty (call_start_hour rules)
                 +:+ ":00 AM - " +:+ pretty (call_end_hour rules) +:+ ":00 PM.";
       local_time := timeStr |}.

End ComplianceWindow.

(** ** The record store and the delivery providers *)

Module Outreach.

Import TargetScorer.

Inductive CampaignStatus :=
  | scheduled | sent | failed | replied | cancelled | delivered | opened.

Inductive Method := by_email | by_call.

Definition status_eqb (a b : CampaignStatus) : bool :=
  match a, b with
  | scheduled, scheduled | sent, sent | failed, failed | replied, replied
  | cancelled, cancelled | delivered, delivered | opened, opened => true
  | _, _ => false
  end.

(** A row of [outreach_campaigns].  The rendered [subject] and [body_text]
    are not kept: no decision of the handlers reads them. *)
Record Campaign := mkCampaign {
  campaign_id : nat;
  carrier_id : string;
  broker_id : string;
  campaign_type : string;
  method : Method;
  status : CampaignStatus;
  sequence_step : Z;
  parent_campaign_id : option nat;
  scheduled_at : option Z;
  sent_at : option Z;
  replied_at : option Z;
  sendgrid_message_id : option string;
  error_message : option string
}.

(** A row of [email_templates]. *)
Record Template := mkTemplate {
  t_name : string;
  t_carrier_id : option string;
  category : string;
  is_default : bool;
  t_sequence_step : Z;
  delay_days : Z
}.

Record DB := mkDB {
  outreach_campaigns : list Campaign;
  brokers : gmap string Broker;
  carrier_profiles : gmap string Carrier;
  email_templates : list Template
}.

(** A request handed to the email provider.  [mail_step] names the campaign
    row whose text is being delivered when that row exists already (the
    sweep); the initial send records its row only afterwards. *)
Record Mail := mkMail { mail_to : string; mail_step : option nat }.

(** A request handed to the voice provider. *)
Record PhoneCall := mkPhoneCall { call_to : string; call_from : string }.

(** The time zone of the process, as [Date] sees it: [offset_at t] is the
    offset of local time from UTC, in milliseconds, at the instant [t]
    ([LocalTZA(t, true)]), and [offset_of_local t] the offset that applies
    to the local time value [t] ([LocalTZA(t, false)]). *)
Record Zone := mkZone {
  offset_at : Z -> Z;
  offset_of_local : Z -> Z
}.

(** A process running on UTC. *)
Definition utc : Zone :=
  {| offset_at := fun _ => 0; offset_of_local := fun _ => 0 |}.

(** The process environment: provider credentials, the providers' answers
    and the time zone.  [sendgrid_ready] is [SENDGRID_API_KEY &&
    SENDGRID_FROM_EMAIL]; [twilio_from] is the caller number when the
    account SID, the auth token and the number are all set.  [sgMail_send]
    answers with a message id or an error message, [calls_create] with a
    call sid or nothing when the request throws. *)
Record Env := mkEnv {
  sendgrid_ready : bool;
  twilio_from : option string;
  sgMail_send : Mail -> string + string;
  calls_create : PhoneCall -> option string;
  process_zone : Zone
}.

(** The store together with the log of provider requests. *)
Record World := mkWorld {
  db : DB;
  mails : list Mail;
  calls : list PhoneCall
}.

Inductive Response := Reply (http_status : nat) (text : string).

Definition http (r : Response) : nat := match r with Reply c _ => c end.

(** *** Query helpers *)

(** [.single()]: the row when the query yields exactly one, else [null]. *)
Definition single {A} (rows : list A) : option A :=
  match rows with
  | [r] => Some r
  | _ => None
  end.

Fixpoint insert_by {A} (le : A -> A -> bool) (x : A) (l : list A) : list A :=
  match l with
  | [] => [x]
  | y :: r => if le x y then x :: y :: r else y :: insert_by le x r
  end.

(** [.order(...)]: a stable sort by the given order. *)
Fixpoint sort_by {A} (le : A -> A -> bool) (l : list A) : list A :=
  match l with
  | [] => []
  | x :: r => insert_by le x (sort_by le r)
  end.

(** The id the store gives the next inserted campaign row. *)
Definition next_id (cs : list Campaign) : nat :=
  S (list_max (campaign_id <$> cs)).

Definition set_campaigns (cs : list Campaign) (d : DB) : DB :=
  {| outreach_campaigns := cs; brokers := brokers d;
     carrier_profiles := carrier_profiles d;
     email_templates := email_templates d |}.

Definition set_brokers (bs : gmap string Broker) (d : DB) : DB :=
  {| outreach_campaigns := outreach_campaigns d; brokers := bs;
     carrier_profiles := carrier_profiles d;
     email_templates := email_templates d |}.

Definition set_db (d : DB) (w : World) : World :=
  {| db := d; mails := mails w; calls := calls w |}.

(** [update(patch).eq('id', id)] on [outreach_campaigns]. *)
Definition update_campaign (cid : nat) (patch : Campaign -> Campaign)
    (cs : list Campaign) : list Campaign :=
  (fun c => if Nat.eqb (campaign_id c) cid then patch c else c) <$> cs.

(** [update(patch).eq('id', id)] on [brokers]. *)
Definition update_broker (bid : string) (patch : Broker -> Broker)
    (bs : gmap string Broker) : gmap string Broker :=
  alter patch bid bs.

(** [from('brokers').select().eq('id', id).eq('carrier_id', userId).single()] *)
Definition broker_of (d : DB) (userId bid : string) : option Broker :=
  match brokers d !! bid with
  | Some b => if String.eqb (b_carrier_id b) userId then Some b else None
  | None => None
  end.

Definition with_status (st : CampaignStatus) (err : option string)
    (c : Campaign) : Campaign :=
  {| campaign_id := campaign_id c; carrier_id := carrier_id c;
     broker_id := broker_id c; campaign_type := campaign_type c;
     method := method c; status := st; sequence_step := sequence_step c;
     parent_campaign_id := parent_campaign_id c;
     scheduled_at := scheduled_at c; sent_at := sent_at c;
     replied_at := replied_at c;
     sendgrid_message_id := sendgrid_message_id c;
     error_message := err |}.

(** [s || null] for a string built by the handler. *)
Definition or_null (s : string) : option string :=
  match s with
  | EmptyString => None
  | _ => Some s
  end.

(** *** Sending: api/email-send.ts *)

(** The step-1 rows of a (carrier, broker) pair, whatever their status. *)
Definition step1_rows (d : DB) (userId bid : string) : list Campaign :=
  List.filter
    (fun c => String.eqb (broker_id c) bid && String.eqb (carrier_id c) userId
              && (sequence_step c =? 1))%bool
    (outreach_campaigns d).

(** Those of them whose status is not [cancelled]. *)
Definition active_step1 (d : DB) (userId bid : string) : list Campaign :=
  List.filter (fun c => negb (status_eqb (status c) cancelled))
    (step1_rows d userId bid).

(** The [initial_outreach] template: the carrier's own before the shared
    one ([order('carrier_id', { ascending: false, nullsFirst: false })],
    [limit(1)]). *)
Definition template_named (d : DB) (userId nm : string) : option Template :=
  let visible :=
    List.filter
      (fun t => String.eqb (t_name t) nm
                && match t_carrier_id t with
                   | None => true
                   | Some u => String.eqb u userId
                   end)%bool
      (email_templates d) in
  let own_first (a b : Template) :=
    match t_carrier_id a, t_carrier_id b with
    | None, Some _ => false
    | _, _ => true
    end in
  head (sort_by own_first visible).

(** The provider step shared by the initial send and the sweep: a request
    when credentials are configured, a synthetic success otherwise. *)
Record SendResult := mkSendResult {
  success : bool;
  messageId : string;
  send_error : string
}.

Definition deliver (env : Env) (m : Mail) (w : World) : World * SendResult :=
  if sendgrid_ready env then
    let w' := {| db := db w; mails := mails w ++ [m]; calls := calls w |} in
    match sgMail_send env m with
    | inl mid => (w', mkSendResult true mid "")
    | inr err => (w', mkSendResult false "" err)
    end
  else (w, mkSendResult true "dev-mode" "").

Definition ms_per_day : Z := 86400000.

(** [TimeClip]: a time value outside the range of [Date] is no date. *)
Definition TimeClip (t : Z) : option Z :=
  if Z.abs t <=? 8640000000000000 then Some t else None.

(** [d.setDate(d.getDate() + n)] on the date of the instant [t]: the day
    of the month is read and written on the local calendar of the process,
    so the local time value moves by [n] whole days and is then taken back
    to UTC with the offset that applies at the new local time.  Across a
    change of the offset the result is not [n * 86400000] ms after [t]. *)
Definition setDate (zone : Zone) (t n : Z) : option Z :=
  let local := t + offset_at zone t in
  let newDate := local + n * ms_per_day in
  TimeClip (newDate - offset_of_local zone newDate).

(** The row [scheduleFollowUps] inserts for one template.  Of a template
    the model keeps the columns that decide the row; its subject and body
    are taken to be present, as [fillTemplate] needs them, and
    [scheduled_at] is the date [setDate] yields ([toISOString] has no
    answer for an invalid date; an invalid date is kept as [None]). *)
Definition followup_row (zone : Zone) (cid : nat) (userId bid : string)
    (parent : nat) (now : Z) (tmpl : Template) : Campaign :=
  {| campaign_id := cid; carrier_id := userId; broker_id := bid;
     campaign_type := "follow_up"; method := by_email; status := scheduled;
     sequence_step := t_sequence_step tmpl;
     parent_campaign_id := Some parent;
     scheduled_at := setDate zone now (delay_days tmpl);
     sent_at := None; replied_at := None;
     sendgrid_message_id := None; error_message := None |}.

(** [scheduleFollowUps]: one [scheduled] row per default follow-up
    template, in [sequence_step] order.  This is the run to its end; the
    run cut short by an exception of [fillTemplate] or [toISOString] is
    [Reach.scheduleFollowUps_stopped]. *)
Definition scheduleFollowUps (zone : Zone) (userId bid : string)
    (parent : nat) (now : Z) (d : DB) : DB :=
  let templates :=
    sort_by (fun a b => t_sequence_step a <=? t_sequence_step b)
      (List.filter
         (fun t => is_default t && String.eqb (category t) "follow_up")%bool
         (email_templates d)) in
  fold_left
    (fun d tmpl =>
       set_campaigns
         (outreach_campaigns d ++
            [followup_row zone (next_id (outreach_campaigns d)) userId bid
               parent now tmpl])
         d)
    templates d.

Definition initial_row (cid : nat) (userId bid : string) (now : Z)
    (r : SendResult) : Campaign :=
  {| campaign_id := cid; carrier_id := userId; broker_id := bid;
     campaign_type := "cold_outreach"; method := by_email;
     status := if success r then sent else failed;
     sequence_step := 1; parent_campaign_id := None;
     scheduled_at := Some now;
     sent_at := if success r then Some now else None;
     replied_at := None;
     sendgrid_message_id := or_null (messageId r);
     error_message := or_null (send_error r) |}.

Definition contacted_patch (seen : Broker) (now : Z) (b : Broker) : Broker :=
  {| b_id := b_id b; b_carrier_id := b_carrier_id b;
     company_name := company_name b; email := email b; phone := phone b;
     address_state := address_state b; preferred_lanes := preferred_lanes b;
     authority_status := authority_status b;
     insurance_on_file := insurance_on_file b;
     outreach_status := Some "contacted";
     credit_score := credit_score b; days_to_pay := days_to_pay b;
     response_rate := response_rate b;
     total_loads_booked := total_loads_booked b;
     total_outreach_attempts := Some (JS.or_zero (total_outreach_attempts seen) + 1);
     total_responses := total_responses b;
     last_contact_date := Some now;
     first_contact_date :=
       match first_contact_date seen with
       | Some t => Some t
       | None => Some now
       end |}.

(** [case 'send-initial'] for an authenticated [userId]. *)
Definition send_initial (env : Env) (now : Z) (userId : string)
    (req_broker_id : option string) (w : World) : World * Response :=
  match req_broker_id with
  | None | Some EmptyString => (w, Reply 400 "broker_id required")
  | Some bid =>
    match carrier_profiles (db w) !! userId with
    | None => (w, Reply 400 "Complete your carrier profile first")
    | Some carrier =>
      match broker_of (db w) userId bid with
      | None => (w, Reply 404 "Broker not found")
      | Some broker =>
        if negb (JS.truthy_str (email broker)) then
          (w, Reply 400 "Broker has no email address on file")
        else
          match single (step1_rows (db w) userId bid) with
          | Some existingCampaign =>
              (w, Reply 409 "Initial outreach already sent to this broker")
          | None =>
            match template_named (db w) userId "initial_outreach" with
            | None => (w, Reply 500 "Initial outreach template not found")
            | Some template =>
              let '(w1, sendResult) :=
                deliver env (mkMail (default "" (email broker)) None) w in
              let cid := next_id (outreach_campaigns (db w1)) in
              let campaign := initial_row cid userId bid now sendResult in
              let d2 := set_campaigns (outreach_campaigns (db w1) ++ [campaign]) (db w1) in
              let d3 := set_brokers
                          (update_broker bid (contacted_patch broker now) (brokers d2)) d2 in
              let d4 := if success sendResult
                        then scheduleFollowUps (process_zone env) userId bid cid now d3
                        else d3 in
              (set_db d4 w1,
               Reply 200 (if success sendResult
                          then "Initial outreach sent"
                          else "Failed to send"))
            end
          end
      end
    end
  end.

(** *** Calling: api/voice-call.ts *)

Definition call_row (cid : nat) (userId bid : string) (now : Z)
    (note : option string) : Campaign :=
  {| campaign_id := cid; carrier_id := userId; broker_id := bid;
     campaign_type := "cold_outreach"; method := by_call; status := sent;
     sequence_step := 1; parent_campaign_id := None;
     scheduled_at := Some now; sent_at := Some now; replied_at := None;
     sendgrid_message_id := None; error_message := note |}.

Definition called_patch (seen : Broker) (now : Z) (b : Broker) : Broker :=
  {| b_id := b_id b; b_carrier_id := b_carrier_id b;
     company_name := company_name b; email := email b; phone := phone b;
     address_state := address_state b; preferred_lanes := preferred_lanes b;
     authority_status := authority_status b;
     insurance_on_file := insurance_on_file b;
     outreach_status :=
       if status_is (outreach_status seen) "new"
       then Some "contacted" else outreach_status seen;
     credit_score := credit_score b; days_to_pay := days_to_pay b;
     response_rate := response_rate b;
     total_loads_booked := total_loads_booked b;
     total_outreach_attempts := Some (JS.or_zero (total_outreach_attempts seen) + 1);
     total_responses := total_responses b;
     last_contact_date := Some now;
     first_contact_date := first_contact_date b |}.

Definition log_call (userId bid : string) (now : Z) (note : option string)
    (d : DB) : DB :=
  set_campaigns
    (outreach_campaigns d ++
       [call_row (next_id (outreach_campaigns d)) userId bid now note]) d.

(** [case 'initiate'] for an authenticated [userId]. *)
Definition initiate (env : Env) (now : Z) (userId : string)
    (req_broker_id : option string) (w : World) : World * Response :=
  match req_broker_id with
  | None | Some EmptyString => (w, Reply 400 "broker_id required")
  | Some bid =>
    match carrier_profiles (db w) !! userId with
    | None => (w, Reply 400 "Carrier profile required")
    | Some carrier =>
      match broker_of (db w) userId bid with
      | None => (w, Reply 404 "Broker not found")
      | Some broker =>
        if negb (JS.truthy_str (phone broker)) then
          (w, Reply 400 "Broker has no phone number on file")
        else
          match twilio_from env with
          | None | Some EmptyString =>
              (set_db (log_call userId bid now
                         (Some "DEV MODE — no actual call placed") (db w)) w,
               Reply 200 "DEV MODE: Call script generated. No actual call placed.")
          | Some fromNumber =>
              let request := mkPhoneCall (default "" (phone broker)) fromNumber in
              let w1 := {| db := db w; mails := mails w;
                           calls := calls w ++ [request] |} in
              match calls_create env request with
              | None => (w1, Reply 500 "Internal server error")
              | Some sid =>
                  let d2 := log_call userId bid now None (db w1) in
                  let d3 := set_brokers
                              (update_broker bid (called_patch broker now) (brokers d2)) d2 in
                  (set_db d3 w1, Reply 200 "Calling")
              end
          end
      end
    end
  end.

(** *** Replies: api/response-track.ts *)

Definition awaiting_reply (st : CampaignStatus) : bool :=
  match st with
  | sent | delivered | opened => true
  | _ => false
  end.

(** [order('sent_at', { ascending: false })]: latest first, rows without a
    [sent_at] before all others (the store's default for a descending
    order). *)
Definition sent_later (a b : Campaign) : bool :=
  match sent_at a, sent_at b with
  | None, _ => true
  | Some _, None => false
  | Some x, Some y => y <=? x
  end.

(** The campaign the reply is attached to. *)
Definition latest_sent (d : DB) (userId bid : string) : option Campaign :=
  head
    (sort_by sent_later
       (List.filter
          (fun c => String.eqb (broker_id c) bid && String.eqb (carrier_id c) userId
                    && awaiting_reply (status c))%bool
          (outreach_campaigns d))).

Definition replied_patch (now : Z) (c : Campaign) : Campaign :=
  {| campaign_id := campaign_id c; carrier_id := carrier_id c;
     broker_id := broker_id c; campaign_type := campaign_type c;
     method := method c; status := replied; sequence_step := sequence_step c;
     parent_campaign_id := parent_campaign_id c;
     scheduled_at := scheduled_at c; sent_at := sent_at c;
     replied_at := Some now;
     sendgrid_message_id := sendgrid_message_id c;
     error_message := error_message c |}.

(** [update({status: 'cancelled', ...}).eq('broker_id', ..).eq('carrier_id',
    ..).eq('status', 'scheduled')]. *)
Definition cancel_scheduled (userId bid : string) (cs : list Campaign)
    : list Campaign :=
  (fun c =>
     if (String.eqb (broker_id c) bid && String.eqb (carrier_id c) userId
         && status_eqb (status c) scheduled)%bool
     then with_status cancelled (Some "Cancelled — broker responded") c
     else c) <$> cs.

(** [parseFloat(x.toFixed(2))] on a rational: rounding to hundredths. *)
Definition toFixed2 (x : Q) : Q := Qmake (Qfloor (x * 100 + (1 # 2))) 100.

Definition responded_patch (seen : Broker) (now : Z) (b : Broker) : Broker :=
  let newResponses := JS.or_zero (total_responses seen) + 1 in
  let newRate :=
    if JS.cmp_num Z.gtb (total_outreach_attempts seen) 0
    then toFixed2 ((inject_Z newResponses
                    / inject_Z (JS.or_zero (total_outreach_attempts seen))) * 100)%Q
    else 100%Q in
  {| b_id := b_id b; b_carrier_id := b_carrier_id b;
     company_name := company_name b; email := email b; phone := phone b;
     address_state := address_state b; preferred_lanes := preferred_lanes b;
     authority_status := authority_status b;
     insurance_on_file := insurance_on_file b;
     outreach_status := Some "responded";
     credit_score := credit_score b; days_to_pay := days_to_pay b;
     response_rate := Some newRate;
     total_loads_booked := total_loads_booked b;
     total_outreach_attempts := total_outreach_attempts b;
     total_responses := Some newResponses;
     last_contact_date := Some now;
     first_contact_date := first_contact_date b |}.

(** [case 'mark-responded'] for an authenticated [userId]. *)
Definition mark_responded (now : Z) (userId : string)
    (req_broker_id : option string) (w : World) : World * Response :=
  match req_broker_id with
  | None | Some EmptyString => (w, Reply 400 "broker_id required")
  | Some bid =>
      let d1 :=
        match latest_sent (db w) userId bid with
        | Some campaign =>
            set_campaigns
              (cancel_scheduled userId bid
                 (update_campaign (campaign_id campaign) (replied_patch now)
                    (outreach_campaigns (db w))))
              (db w)
        | None => db w
        end in
      let d2 :=
        match broker_of d1 userId bid with
        | Some broker =>
            set_brokers (update_broker bid (responded_patch broker now) (brokers d1)) d1
        | None => d1
        end in
      (set_db d2 w, Reply 200 "Broker response recorded. Follow-ups cancelled.")
  end.

(** *** The follow-up sweep: api/follow-up-check.ts *)

(** A fetched row: the campaign with its joined broker
    ([broker:brokers(id, company_name, contact_name, email,
    outreach_status)]), as read when the sweep starts. *)
Record Due := mkDue { due_campaign : Campaign; due_broker : option Broker }.

Definition is_due (now : Z) (c : Campaign) : bool :=
  (status_eqb (status c) scheduled
   && match scheduled_at c with
      | Some t => t <=? now
      | None => false
      end)%bool.

Definition earlier (a b : Campaign) : bool :=
  match scheduled_at a, scheduled_at b with
  | Some x, Some y => x <=? y
  | _, _ => true
  end.

(** [.eq('status', 'scheduled').lte('scheduled_at', now)
    .order('scheduled_at').limit(100)] with the broker join. *)
Definition fetch_due (now : Z) (d : DB) : list Due :=
  (fun c => mkDue c (brokers d !! broker_id c)) <$>
    take 100 (sort_by earlier (List.filter (is_due now) (outreach_campaigns d))).

(** An entry of the [results] summary. *)
Record Outcome := mkOutcome {
  o_id : nat;
  o_status : string;
  o_error : option string
}.

Definition sent_patch (now : Z) (r : SendResult) (c : Campaign) : Campaign :=
  {| campaign_id := campaign_id c; carrier_id := carrier_id c;
     broker_id := broker_id c; campaign_type := campaign_type c;
     method := method c;
     status := if success r then sent else failed;
     sequence_step := sequence_step c;
     parent_campaign_id := parent_campaign_id c;
     scheduled_at := scheduled_at c;
     sent_at := if success r then Some now else None;
     replied_at := replied_at c;
     sendgrid_message_id := or_null (messageId r);
     error_message := or_null (send_error r) |}.

Definition touched_patch (attempts : option Z) (now : Z) (b : Broker) : Broker :=
  {| b_id := b_id b; b_carrier_id := b_carrier_id b;
     company_name := company_name b; email := email b; phone := phone b;
     address_state := address_state b; preferred_lanes := preferred_lanes b;
     authority_status := authority_status b;
     insurance_on_file := insurance_on_file b;
     outreach_status := outreach_status b;
     credit_score := credit_score b; days_to_pay := days_to_pay b;
     response_rate := response_rate b;
     total_loads_booked := total_loads_booked b;
     total_outreach_attempts := Some (JS.or_zero attempts + 1);
     total_responses := total_responses b;
     last_contact_date := Some now;
     first_contact_date := first_contact_date b |}.

(** Closing a step without sending: [update({status, error_message})
    .eq('id', campaign.id)]. *)
Definition close_step (cid : nat) (st : CampaignStatus) (msg : string)
    (w : World) : World :=
  set_db
    (set_campaigns
       (update_campaign cid (with_status st (Some msg))
          (outreach_campaigns (db w)))
       (db w))
    w.

(** The body of the [for (const campaign of pendingCampaigns)] loop. *)
Definition process_campaign (env : Env) (now : Z) (w : World) (row : Due)
    : World * Outcome :=
  let campaign := due_campaign row in
  let cid := campaign_id campaign in
  let no_email :=
    (close_step cid failed "Broker has no email address" w,
     mkOutcome cid "skipped" (Some "No email")) in
  match due_broker row with
  | None => no_email
  | Some broker =>
    if negb (JS.truthy_str (email broker)) then no_email
    else if (status_is (outreach_status broker) "responded"
             || status_is (outreach_status broker) "active")%bool then
      (close_step cid cancelled
         "Broker already responded — follow-up cancelled" w,
       mkOutcome cid "cancelled" (Some "Already responded"))
    else if status_is (outreach_status broker) "blacklisted" then
      (close_step cid cancelled "Broker is blacklisted" w,
       mkOutcome cid "cancelled" (Some "Blacklisted"))
    else
      let '(w1, r) :=
        deliver env (mkMail (default "" (email broker)) (Some cid)) w in
      let d2 :=
        set_campaigns
          (update_campaign cid (sent_patch now r) (outreach_campaigns (db w1)))
          (db w1) in
      let d3 :=
        if success r then
          let brokerData := brokers d2 !! broker_id campaign in
          set_brokers
            (update_broker (broker_id campaign)
               (touched_patch (brokerData ≫= total_outreach_attempts) now)
               (brokers d2))
            d2
        else d2 in
      (set_db d3 w1,
       mkOutcome cid (if success r then "sent" else "failed")
         (or_null (send_error r)))
  end.

(** The loop over the fetched batch. *)
Fixpoint process_batch (env : Env) (now : Z) (batch : list Due) (w : World)
    : World * list Outcome :=
  match batch with
  | [] => (w, [])
  | row :: rest =>
      let '(w1, o) := process_campaign env now w row in
      let '(w2, os) := process_batch env now rest w1 in
      (w2, o :: os)
  end.

(** The handler: fetch the due rows, then run the loop over them. *)
Definition follow_up_check (env : Env) (now : Z) (w : World)
    : World * Response :=
  match fetch_due now (db w) with
  | [] => (w, Reply 200 "No pending follow-ups")
  | pendingCampaigns =>
      (fst (process_batch env now pendingCampaigns w),
       Reply 200 "Follow-up check complete")
  end.

(** The world after one sweep. *)
Definition sweep (env : Env) (now : Z) (w : World) : World :=
  fst (follow_up_check env now w).

(** Successive sweeps, one after the other, each with its own environment
    and clock reading. *)
Definition sweeps (runs : list (Env * Z)) (w : World) : World :=
  fold_left (fun w run => sweep (fst run) (snd run) w) runs w.

(** Two overlapping sweeps: the second invocation fetches its batch before
    the first has updated any row, then both run their loops. *)
Definition overlapped_sweeps (env : Env) (now1 now2 : Z) (w : World) : World :=
  let batch1 := fetch_due now1 (db w) in
  let batch2 := fetch_due now2 (db w) in
  fst (process_batch env now2 batch2 (fst (process_batch env now1 batch1 w))).

Definition due_id (r : Due) : nat := campaign_id (due_campaign r).

(** The disposition of a fetched row as the specification words it: the
    verdict that closes the row before any send, if one applies. *)
Definition precedence (row : Due) : option CampaignStatus :=
  let addr := due_broker row ≫= email in
  let st := due_broker row ≫= outreach_status in
  if negb (JS.truthy_str addr) then Some failed
  else if (status_is st "responded" || status_is st "active")%bool
  then Some cancelled
  else if status_is st "blacklisted" then Some cancelled
  else None.

(** The message of a row that is sent, and the provider's answer to it (a
    synthetic success without credentials). *)
Definition due_mail (row : Due) : Mail :=
  mkMail (default "" (due_broker row ≫= email)) (Some (due_id row)).

Definition provider_accepts (env : Env) (m : Mail) : bool :=
  if sendgrid_ready env
  then match sgMail_send env m with inl _ => true | inr _ => false end
  else true.

(** The status a fetched row is expected to end with, and the ids expected
    to reach the provider for it. *)
Definition final_status (env : Env) (row : Due) : CampaignStatus :=
  match precedence row with
  | Some verdict => verdict
  | None => if provider_accepts env (due_mail row) then sent else failed
  end.

Definition handed_over (env : Env) (row : Due) : list nat :=
  match precedence row with
  | Some _ => []
  | None => if sendgrid_ready env then [due_id row] else []
  end.

(** The campaign rows the email provider was asked to deliver, in order. *)
Definition dispatched (w : World) : list nat :=
  omap mail_step (mails w).

(** The ids of the rows of the store. *)
Definition campaign_ids (w : World) : list nat :=
  campaign_id <$> outreach_campaigns (db w).

(** Row ids are distinct, no step was delivered twice, and no delivered
    step is still [scheduled]. *)
Definition delivered_once (w : World) : Prop :=
  NoDup (campaign_ids w)
  /\ NoDup (dispatched w)
  /\ forall c, c ∈ outreach_campaigns (db w) ->
               campaign_id c ∈ dispatched w -> status c <> scheduled.

(** The rows of a (carrier, broker) pair. *)
Definition of_pair (userId bid : string) (c : Campaign) : bool :=
  (String.eqb (broker_id c) bid && String.eqb (carrier_id c) userId)%bool.

End Outreach.

(** ** Concrete records used by the evaluations below *)

Module Scenarios.

Import TargetScorer Outreach.

(** A broker already contacted, whose only scoring signal is a credit score
    of [0]. *)
Definition zero_credit_broker : Broker :=
  {| b_id := "b1"; b_carrier_id := "u1"; company_name := "Acme Logistics";
     email := Some "ops@acme.test"; phone := Some "+15550100";
     address_state := Some "TX"; preferred_lanes := None;
     authority_status := None; insurance_on_file := false;
     outreach_status := Some "contacted";
     credit_score := Some 0; days_to_pay := None; response_rate := None;
     total_loads_booked := None; total_outreach_attempts := None;
     total_responses := None; last_contact_date := None;
     first_contact_date := None |}.

(** The same broker with an unknown credit score and same-day payment. *)
Definition same_day_pay_broker : Broker :=
  {| b_id := "b1"; b_carrier_id := "u1"; company_name := "Acme Logistics";
     email := Some "ops@acme.test"; phone := Some "+15550100";
     address_state := Some "TX"; preferred_lanes := None;
     authority_status := None; insurance_on_file := false;
     outreach_status := Some "contacted";
     credit_score := None; days_to_pay := Some 0; response_rate := None;
     total_loads_booked := None; total_outreach_attempts := None;
     total_responses := None; last_contact_date := None;
     first_contact_date := None |}.

(** A broker with a good record in the carrier's home state. *)
Definition strong_broker : Broker :=
  {| b_id := "b2"; b_carrier_id := "u1"; company_name := "Garden State Freight";
     email := Some "desk@gsf.test"; phone := Some "+15550101";
     address_state := Some "nj"; preferred_lanes := Some ["NJ-FL"; "NJ-TX"];
     authority_status := Some "ACTIVE"; insurance_on_file := true;
     outreach_status := Some "new";
     credit_score := Some 96; days_to_pay := Some 10;
     response_rate := Some (75 # 1)%Q;
     total_loads_booked := Some 12; total_outreach_attempts := Some 4;
     total_responses := Some 3; last_contact_date := Some 0;
     first_contact_date := Some 0 |}.

Definition nj_carrier : Carrier :=
  {| c_user_id := "u1"; home_base_state := Some "NJ";
     c_preferred_lanes := Some ["NJ-FL"; "PA-OH"] |}.

(** Providers that accept every request. *)
Definition env_live : Env :=
  {| sendgrid_ready := true; twilio_from := Some "+15550000";
     sgMail_send := fun _ => inl "msg-1";
     calls_create := fun _ => Some "CA-1";
     process_zone := utc |}.

(** An email provider that rejects every message. *)
Definition env_bounce : Env :=
  {| sendgrid_ready := true; twilio_from := Some "+15550000";
     sgMail_send := fun _ => inr "550 mailbox unavailable";
     calls_create := fun _ => Some "CA-1";
     process_zone := utc |}.

(** A broker in California, not yet contacted. *)
Definition ca_broker : Broker :=
  {| b_id := "b1"; b_carrier_id := "u1"; company_name := "Acme Logistics";
     email := Some "ops@acme.test"; phone := Some "+15550100";
     address_state := Some "CA"; preferred_lanes := None;
     authority_status := Some "ACTIVE"; insurance_on_file := true;
     outreach_status := Some "new";
     credit_score := Some 88; days_to_pay := Some 30; response_rate := None;
     total_loads_booked := None; total_outreach_attempts := None;
     total_responses := None; last_contact_date := None;
     first_contact_date := None |}.

Definition blacklisted_broker : Broker :=
  {| b_id := "b1"; b_carrier_id := "u1"; company_name := "Acme Logistics";
     email := Some "ops@acme.test"; phone := Some "+15550100";
     address_state := Some "CA"; preferred_lanes := None;
     authority_status := Some "ACTIVE"; insurance_on_file := true;
     outreach_status := Some "blacklisted";
     credit_score := Some 88; days_to_pay := Some 30; response_rate := None;
     total_loads_booked := None; total_outreach_attempts := Some 1;
     total_responses := None; last_contact_date := Some 0;
     first_contact_date := Some 0 |}.

Definition templates0 : list Template :=
  [ mkTemplate "initial_outreach" None "cold_outreach" true 1 0;
    mkTemplate "follow_up_1" None "follow_up" true 2 3;
    mkTemplate "follow_up_2" None "follow_up" true 3 7 ].

Definition day : Z := 86400000.

(** A row of the pair (u1, b1). *)
Definition row (cid : nat) (seq : Z) (st : CampaignStatus) (at_ : Z)
    (sentAt : option Z) : Campaign :=
  {| campaign_id := cid; carrier_id := "u1"; broker_id := "b1";
     campaign_type := if seq =? 1 then "cold_outreach" else "follow_up";
     method := by_email; status := st; sequence_step := seq;
     parent_campaign_id := if seq =? 1 then None else Some 1%nat;
     scheduled_at := Some at_; sent_at := sentAt; replied_at := None;
     sendgrid_message_id := None; error_message := None |}.

Definition world_of (b : Broker) (cs : list Campaign) : World :=
  {| db := {| outreach_campaigns := cs;
              brokers := {[ "b1" := b ]};
              carrier_profiles := {[ "u1" := nj_carrier ]};
              email_templates := templates0 |};
     mails := []; calls := [] |}.

(** No campaign yet. *)
Definition w_fresh : World := world_of ca_broker [].

(** The only step-1 row of the pair is cancelled. *)
Definition w_cancelled_only : World :=
  world_of ca_broker [row 1 1 cancelled 0 None].

(** The initial email was sent; no follow-up rows. *)
Definition w_sent : World :=
  world_of ca_broker [row 1 1 sent 0 (Some 0)].

(** The initial email was sent and two follow-ups are scheduled. *)
Definition w_sequence : World :=
  world_of ca_broker
    [row 1 1 sent 0 (Some 0);
     row 2 2 scheduled (3 * day) None;
     row 3 3 scheduled (7 * day) None].

(** The initial step is already marked replied while two follow-ups are
    still scheduled. *)
Definition w_replied_pending : World :=
  world_of ca_broker
    [row 1 1 replied 0 (Some 0);
     row 2 2 scheduled (3 * day) None;
     row 3 3 scheduled (7 * day) None].

(** A broker who lost his email address after one contact. *)
Definition no_email_broker : Broker :=
  {| b_id := "b1"; b_carrier_id := "u1"; company_name := "Acme Logistics";
     email := None; phone := Some "+15550100";
     address_state := Some "CA"; preferred_lanes := None;
     authority_status := Some "ACTIVE"; insurance_on_file := true;
     outreach_status := Some "contacted";
     credit_score := Some 88; days_to_pay := Some 30; response_rate := None;
     total_loads_booked := None; total_outreach_attempts := Some 1;
     total_responses := None; last_contact_date := Some 0;
     first_contact_date := Some 0 |}.

(** One follow-up due, for a blacklisted broker. *)
Definition w_blacklisted_due : World :=
  world_of blacklisted_broker
    [row 1 1 sent 0 (Some 0); row 2 2 scheduled (3 * day) None].

(** One follow-up due, for a broker without an email address. *)
Definition w_no_email_due : World :=
  world_of no_email_broker
    [row 1 1 sent 0 (Some 0); row 2 2 scheduled (3 * day) None].

(** A wall clock showing the same time in every zone. *)
Definition clock_at (h m : nat) : ComplianceWindow.TimeZones :=
  fun _ _ => ComplianceWindow.mkLocalTime h m.

End Scenarios.

(** ** Further handlers of the same files *)

(** Record updates used to state how a score moves with one column. *)
Module Fields.

Definition with_credit_score (v : option Z) (b : Broker) : Broker :=
  {| b_id := b_id b; b_carrier_id := b_carrier_id b;
     company_name := company_name b; email := email b; phone := phone b;
     address_state := address_state b; preferred_lanes := preferred_lanes b;
     authority_status := authority_status b;
     insurance_on_file := insurance_on_file b;
     outreach_status := outreach_status b;
     credit_score := v; days_to_pay := days_to_pay b;
     response_rate := response_rate b;
     total_loads_booked := total_loads_booked b;
     total_outreach_attempts := total_outreach_attempts b;
     total_responses := total_responses b;
     last_contact_date := last_contact_date b;
     first_contact_date := first_contact_date b |}.

Definition with_total_loads_booked (v : option Z) (b : Broker) : Broker :=
  {| b_id := b_id b; b_carrier_id := b_carrier_id b;
     company_name := company_name b; email := email b; phone := phone b;
     address_state := address_state b; preferred_lanes := preferred_lanes b;
     authority_status := authority_status b;
     insurance_on_file := insurance_on_file b;
     outreach_status := outreach_status b;
     credit_score := credit_score b; days_to_pay := days_to_pay b;
     response_rate := response_rate b;
     total_loads_booked := v;
     total_outreach_attempts := total_outreach_attempts b;
     total_responses := total_responses b;
     last_contact_date := last_contact_date b;
     first_contact_date := first_contact_date b |}.

Definition with_address_state (v : option string) (b : Broker) : Broker :=
  {| b_id := b_id b; b_carrier_id := b_carrier_id b;
     company_name := company_name b; email := email b; phone := phone b;
     address_state := v; preferred_lanes := preferred_lanes b;
     authority_status := authority_status b;
     insurance_on_file := insurance_on_file b;
     outreach_status := outreach_status b;
     credit_score := credit_score b; days_to_pay := days_to_pay b;
     response_rate := response_rate b;
     total_loads_booked := total_loads_booked b;
     total_outreach_attempts := total_outreach_attempts b;
     total_responses := total_responses b;
     last_contact_date := last_contact_date b;
     first_contact_date := first_contact_date b |}.

Definition with_outreach_status (v : option string) (now : Z) (b : Broker)
    : Broker :=
  {| b_id := b_id b; b_carrier_id := b_carrier_id b;
     company_name := company_name b; email := email b; phone := phone b;
     address_state := address_state b; preferred_lanes := preferred_lanes b;
     authority_status := authority_status b;
     insurance_on_file := insurance_on_file b;
     outreach_status := v;
     credit_score := credit_score b; days_to_pay := days_to_pay b;
     response_rate := response_rate b;
     total_loads_booked := total_loads_booked b;
     total_outreach_attempts := total_outreach_attempts b;
     total_responses := total_responses b;
     last_contact_date := Some now;
     first_contact_date := first_contact_date b |}.

End Fields.

(** *** api/broker-score.ts: the handler *)

Module BrokerScore.

Import RelationshipScorer Outreach.

(** [score >= 80 ? 'EXCELLENT' : score >= 60 ? 'GOOD' : score >= 40 ? 'FAIR'
    : 'POOR'] *)
Definition label (score : Z) : string :=
  if score >=? 80 then "EXCELLENT"
  else if score >=? 60 then "GOOD"
  else if score >=? 40 then "FAIR"
  else "POOR".

Inductive ScoreReply :=
  | ScoreError (code : nat) (message : string)
  | Scored (broker_id : string) (score : Z) (bd : Breakdown) (lbl : string).

(** The [relationship_score] column of [brokers] is kept beside the rows,
    as a map from broker id to the stored score. *)

(** [case 'score'] for an authenticated [userId]. *)
Definition score_one (now : Z) (userId : string) (req_id : option string)
    (d : DB) (scores : gmap string Z) : gmap string Z * ScoreReply :=
  match req_id with
  | None | Some EmptyString => (scores, ScoreError 400 "id required")
  | Some bid =>
      match broker_of d userId bid with
      | None => (scores, ScoreError 404 "Broker not found")
      | Some broker =>
          let '(score, bd) := calculateRelationshipScore now broker in
          (<[bid := score]> scores, Scored bid score bd (label score))
      end
  end.

(** [from('brokers').select('*').eq('carrier_id', userId)]: the rows of one
    carrier with their ids, in the order the store returns them. *)
Definition carrier_rows (userId : string) (bs : gmap string Broker)
    : list (string * Broker) :=
  List.filter (fun kb => String.eqb (b_carrier_id (snd kb)) userId)
    (map_to_list bs).

(** The loop of [case 'score-all']: the scores and the [updated] counter. *)
Definition score_loop (now : Z) (rows : list (string * Broker))
    (acc : gmap string Z * nat) : gmap string Z * nat :=
  fold_left
    (fun acc kb =>
       (<[fst kb := fst (calculateRelationshipScore now (snd kb))]> (fst acc),
        S (snd acc)))
    rows acc.

(** [case 'score-all']: the scores after the request and [updated]. *)
Definition score_all (now : Z) (userId : string) (d : DB)
    (scores : gmap string Z) : gmap string Z * nat :=
  match carrier_rows userId (brokers d) with
  | [] => (scores, O)
  | rows => score_loop now rows (scores, O)
  end.

(** [.eq('carrier_id', userId).not('outreach_status', 'eq', 'blacklisted')]:
    a row whose status is null does not pass the negated comparison. *)
Definition not_blacklisted (userId : string) (b : Broker) : bool :=
  (String.eqb (b_carrier_id b) userId
   && match outreach_status b with
      | Some s => negb (String.eqb s "blacklisted")
      | None => false
      end)%bool.

(** The predicate of the [filter] of [case 'needs-attention']. *)
Definition wants_attention (now : Z) (b : Broker) : bool :=
  match last_contact_date b with
  | None => true
  | Some t =>
      let daysSince := (now - t) / ms_per_day in
      if ((daysSince >? 14) && status_is (outreach_status b) "contacted")%bool
      then true
      else if status_is (outreach_status b) "responded" then true
      else false
  end.

Definition priority (s : option string) : Z :=
  if status_is s "responded" then 0
  else if status_is s "new" then 1
  else 2.

(** [(data || []).filter(...).sort(...)] on the rows the query returned. *)
Definition needsAttention (now : Z) (data : list Broker) : list Broker :=
  sort_by
    (fun a b => priority (outreach_status a) <=? priority (outreach_status b))
    (List.filter (wants_attention now) data).

(** [case 'needs-attention'] for an authenticated [userId]. *)
Definition needs_attention (now : Z) (userId : string) (d : DB)
    : list Broker :=
  needsAttention now
    (List.filter (not_blacklisted userId) (snd <$> map_to_list (brokers d))).

End BrokerScore.

(** *** api/lane-targeting.ts: [case 'recommendations'] *)

Module Targeting.

Import TargetScorer Outreach.

(** A row of [brokers] with its [mc_number]. *)
Record CrmRow := mkCrmRow { crm_broker : Broker; crm_mc : option string }.

(** A row of [broker_leads]: the columns the scorer reads, the [mc_number]
    and the [broker_authority] flag. *)
Record LeadRow := mkLeadRow {
  lead_fields : Broker;
  lead_mc : option string;
  broker_authority : bool
}.

Inductive Source := from_crm | from_lead.

Record Target := mkTarget {
  target_fields : Broker;
  target_mc : option string;
  target_score : Z;
  source : Source
}.

(** [carrier.home_base_state?.toUpperCase() || ''] *)
Definition carrierState_of (carrier : Carrier) : string :=
  match home_base_state carrier with
  | Some s => JS.toUpperCase s
  | None => ""
  end.

(** [[carrierState, ...(STATE_NEIGHBORS[carrierState] || [])]] *)
Definition targetStates (carrierState : string) : list string :=
  carrierState :: default [] (STATE_NEIGHBORS !! carrierState).

(** The CRM query: the carrier's rows that are not blacklisted. *)
Definition crmBrokers (userId : string) (crm : list CrmRow) : list CrmRow :=
  List.filter (fun r => BrokerScore.not_blacklisted userId (crm_broker r)) crm.

(** The leads query: [.in('address_state', targetStates)
    .eq('authority_status', 'ACTIVE').eq('broker_authority', true)
    .limit(100)]. *)
Definition leads_in (states : list string) (leads : list LeadRow)
    : list LeadRow :=
  take 100
    (List.filter
       (fun l =>
          match address_state (lead_fields l) with
          | Some st => existsb (String.eqb st) states
          | None => false
          end
          && status_is (authority_status (lead_fields l)) "ACTIVE"
          && broker_authority l)%bool
       leads).

(** [new Set(crmBrokers.map(b => b.mc_number).filter(Boolean))] *)
Definition crmMCs (rows : list CrmRow) : list string :=
  omap (fun r => if JS.truthy_str (crm_mc r) then crm_mc r else None) rows.

Definition has (set : list string) (x : option string) : bool :=
  match x with
  | Some v => existsb (String.eqb v) set
  | None => false
  end.

(** [case 'recommendations'] for an authenticated [userId]; [None] is the
    400 answer for a carrier without a profile. *)
Definition recommendations (userId : string)
    (profiles : gmap string Carrier) (crm : list CrmRow)
    (leads : list LeadRow) : option (list Target) :=
  match profiles !! userId with
  | None => None
  | Some carrier =>
      let carrierState := carrierState_of carrier in
      let rows := crmBrokers userId crm in
      let found := leads_in (targetStates carrierState) leads in
      let scoredCRM :=
        (fun r => mkTarget (crm_broker r) (crm_mc r)
                    (scoreBrokerTarget (crm_broker r) carrier carrierState)
                    from_crm) <$> rows in
      let newLeads :=
        (fun l => mkTarget (lead_fields l) (lead_mc l)
                    (scoreBrokerTarget (lead_fields l) carrier carrierState)
                    from_lead)
          <$> List.filter (fun l => negb (has (crmMCs rows) (lead_mc l))) found in
      Some (take 30
              (sort_by (fun a b => target_score b <=? target_score a)
                 (scoredCRM ++ newLeads)))
  end.

End Targeting.

(** *** api/email-send.ts [bulk-send], api/response-track.ts [log-response],
    and the summary of api/follow-up-check.ts *)

Module Desk.

Import TargetScorer Outreach.

Record BulkResult := mkBulkResult {
  bulk_broker_id : string;
  bulk_status : string;
  bulk_error : option string
}.

(** The body of the loop of [case 'bulk-send']. *)
Definition bulk_entry (userId : string) (d : DB) (brokerId : string)
    : BulkResult :=
  match broker_of d userId brokerId with
  | None => mkBulkResult brokerId "skipped" (Some "Not found")
  | Some broker =>
      if negb (JS.truthy_str (email broker))
      then mkBulkResult brokerId "skipped" (Some "No email")
      else mkBulkResult brokerId "queued" None
  end.

(** [case 'bulk-send'] for an authenticated [userId]; [broker_ids] is the
    array of the request body, [None] when it is missing or not an array. *)
Definition bulk_send (userId : string) (broker_ids : option (list string))
    (w : World) : World * Response * list BulkResult :=
  match broker_ids with
  | None | Some [] => (w, Reply 400 "broker_ids array required", [])
  | Some ids =>
      if (20 <? length ids)%nat
      then (w, Reply 400 "Maximum 20 brokers per bulk send", [])
      else (w, Reply 200 "Bulk outreach queued",
            bulk_entry userId (db w) <$> ids)
  end.

(** The [outreach_status] written by [case 'log-response']. *)
Definition status_after (next_action : option string) (b : Broker)
    : option string :=
  if status_is next_action "blacklist" then Some "blacklisted"
  else if status_is next_action "active" then Some "active"
  else if status_is next_action "negotiate" then Some "negotiating"
  else outreach_status b.

(** [case 'log-response'] for an authenticated [userId].  The [notes]
    column is not kept.  [update(...).eq('id', ..).eq('carrier_id', ..)
    .select().single()] reports an error when no row matches, which the
    handler throws: the answer is then 500 (its text, the store's message,
    is not modelled). *)
Definition log_response (now : Z) (userId : string)
    (req_broker_id : option string) (next_action : option string)
    (w : World) : World * Response :=
  match req_broker_id with
  | None | Some EmptyString => (w, Reply 400 "broker_id required")
  | Some bid =>
      match broker_of (db w) userId bid with
      | None => (w, Reply 500 "Internal server error")
      | Some broker =>
          (set_db
             (set_brokers
                (update_broker bid
                   (fun b => Fields.with_outreach_status
                               (status_after next_action b) now b)
                   (brokers (db w)))
                (db w))
             w,
           Reply 200 "Response logged")
      end
  end.

(** The counters of the sweep's answer. *)
Record Summary := mkSummary {
  processed : nat;
  n_sent : nat;
  n_failed : nat;
  n_skipped : nat
}.

Definition count_where (p : Outcome -> bool) (results : list Outcome) : nat :=
  length (List.filter p results).

Definition summarize (pendingCampaigns : list Due) (results : list Outcome)
    : Summary :=
  {| processed := length pendingCampaigns;
     n_sent := count_where (fun r => String.eqb (o_status r) "sent") results;
     n_failed := count_where (fun r => String.eqb (o_status r) "failed") results;
     n_skipped :=
       count_where
         (fun r => (String.eqb (o_status r) "skipped"
                    || String.eqb (o_status r) "cancelled")%bool)
         results |}.

(** The summary a sweep answers with. *)
Definition sweep_summary (env : Env) (now : Z) (w : World) : Summary :=
  let pendingCampaigns := fetch_due now (db w) in
  summarize pendingCampaigns (snd (process_batch env now pendingCampaigns w)).

(** A broker a sweep would write to: an email address on file and a status
    other than responded, active and blacklisted. *)
Definition contactable (joined : option Broker) : bool :=
  match joined with
  | None => false
  | Some broker =>
      (JS.truthy_str (email broker)
       && negb (status_is (outreach_status broker) "responded"
                || status_is (outreach_status broker) "active")
       && negb (status_is (outreach_status broker) "blacklisted"))%bool
  end.

(** Two versions of a broker row that differ at most in the contact
    tracking columns [last_contact_date] and [total_outreach_attempts]. *)
Definition same_but_contact (b b' : Broker) : Prop :=
  b_id b' = b_id b /\ b_carrier_id b' = b_carrier_id b
  /\ company_name b' = company_name b /\ email b' = email b
  /\ phone b' = phone b /\ address_state b' = address_state b
  /\ preferred_lanes b' = preferred_lanes b
  /\ authority_status b' = authority_status b
  /\ insurance_on_file b' = insurance_on_file b
  /\ outreach_status b' = outreach_status b
  /\ credit_score b' = credit_score b /\ days_to_pay b' = days_to_pay b
  /\ response_rate b' = response_rate b
  /\ total_loads_booked b' = total_loads_booked b
  /\ total_responses b' = total_responses b
  /\ first_contact_date b' = first_contact_date b.

(** The default follow-up templates in the order [scheduleFollowUps] walks
    them. *)
Definition followup_templates (d : DB) : list Template :=
  sort_by (fun a b => t_sequence_step a <=? t_sequence_step b)
    (List.filter
       (fun t => is_default t && String.eqb (category t) "follow_up")%bool
       (email_templates d)).

(** The number of fetched rows of a broker that end as [sent]. *)
Definition sent_to (env : Env) (bid : string) (batch : list Due) : nat :=
  length
    (List.filter
       (fun r => (String.eqb (broker_id (due_campaign r)) bid
                  && status_eqb (final_status env r) sent)%bool)
       batch).

End Desk.

(** ** Further concrete records *)

Module Cases.

Import TargetScorer Outreach Scenarios.


(** A second carrier's broker, never contacted. *)
Definition other_broker : Broker :=
  {| b_id := "b9"; b_carrier_id := "u2"; company_name := "Prairie Freight";
     email := Some "desk@prairie.test"; phone := None;
     address_state := Some "KS"; preferred_lanes := None;
     authority_status := None; insurance_on_file := false;
     outreach_status := Some "new";
     credit_score := None; days_to_pay := None; response_rate := None;
     total_loads_booked := None; total_outreach_attempts := None;
     total_responses := None; last_contact_date := None;
     first_contact_date := None |}.

(** A store with brokers of two carriers. *)
Definition two_carriers : DB :=
  {| outreach_campaigns := [];
     brokers := {[ "b1" := ca_broker; "b2" := strong_broker;
                   "b9" := other_broker ]};
     carrier_profiles := {[ "u1" := nj_carrier ]};
     email_templates := templates0 |}.

(** A broker the carrier blacklisted, filed with its MC number, and a lead
    that carries the same MC number. *)
Definition crm_blacklisted : list Targeting.CrmRow :=
  [Targeting.mkCrmRow blacklisted_broker (Some "MC100")].

Definition lead_same_mc : Targeting.LeadRow :=
  Targeting.mkLeadRow (Fields.with_address_state (Some "NJ") strong_broker)
    (Some "MC100") true.

End Cases.

(** ** The stores the handlers produce *)

Module Reach.

Import TargetScorer Outreach Desk.

(** Two versions of a campaign row that differ at most in the columns an
    outcome is written to: [status], [error_message], [sent_at],
    [sendgrid_message_id] and [replied_at]. *)
Definition same_but_outcome (c x : Campaign) : Prop :=
  campaign_id x = campaign_id c /\ carrier_id x = carrier_id c
  /\ broker_id x = broker_id c /\ campaign_type x = campaign_type c
  /\ method x = method c /\ sequence_step x = sequence_step c
  /\ parent_campaign_id x = parent_campaign_id c
  /\ scheduled_at x = scheduled_at c.

(** A step closed without a send: the verdict and its reason are written,
    nothing else. *)
Definition closed_as (verdict : CampaignStatus) (reason : string)
    (c x : Campaign) : Prop :=
  same_but_outcome c x /\ replied_at x = replied_at c
  /\ status x = verdict /\ error_message x = Some reason
  /\ sent_at x = sent_at c
  /\ sendgrid_message_id x = sendgrid_message_id c.

(** A step after the delivery step: [sent] with the time and the message
    id when the provider accepted the message [m] (or no credentials are
    configured), [failed] with the provider's error otherwise. *)
Definition delivered_as (env : Env) (now : Z) (m : Mail)
    (c x : Campaign) : Prop :=
  same_but_outcome c x /\ replied_at x = replied_at c
  /\ if sendgrid_ready env then
       match sgMail_send env m with
       | inl mid =>
           status x = sent /\ sent_at x = Some now
           /\ sendgrid_message_id x = or_null mid /\ error_message x = None
       | inr err =>
           status x = failed /\ sent_at x = None
           /\ sendgrid_message_id x = None /\ error_message x = or_null err
       end
     else
       status x = sent /\ sent_at x = Some now
       /\ sendgrid_message_id x = Some "dev-mode" /\ error_message x = None.

(** The columns of a fetched step [row] after the loop body, [c] being its
    stored version before. *)
Definition disposition (env : Env) (now : Z) (row : Due)
    (c x : Campaign) : Prop :=
  let addr := due_broker row ≫= email in
  let st := due_broker row ≫= outreach_status in
  if negb (JS.truthy_str addr) then
    closed_as failed "Broker has no email address" c x
  else if (status_is st "responded" || status_is st "active")%bool then
    closed_as cancelled "Broker already responded — follow-up cancelled" c x
  else if status_is st "blacklisted" then
    closed_as cancelled "Broker is blacklisted" c x
  else delivered_as env now (due_mail row) c x.




(** Every scheduled step has, in its own (carrier, broker) pair, a step
    that awaits a reply. *)
Definition open_parent (cs : list Campaign) : Prop :=
  forall c, c ∈ cs -> status c = scheduled ->
    exists a, a ∈ cs
      /\ of_pair (carrier_id c) (broker_id c) a = true
      /\ awaiting_reply (status a) = true.

(** What every reachable store satisfies: [delivered_once] (distinct row
    ids, no step delivered twice, no delivered step still scheduled),
    every id in the delivery log is the id of a row, and [open_parent]. *)
Definition kept (w : World) : Prop :=
  delivered_once w
  /\ (forall i, i ∈ dispatched w -> i ∈ campaign_ids w)
  /\ open_parent (outreach_campaigns (db w)).

End Reach.

(** * Properties *)

(** ** RelationshipScorer *)

Section RelationshipScorerFacts.

Import RelationshipScorer.

Lemma paymentScore_bounds broker : 0 <= paymentScore broker <= 25.
Proof.
  unfold paymentScore, JS.min, JS.max.
  repeat case_match; lia.
Qed.

Lemma responseScore_bounds now broker : 0 <= responseScore now broker <= 25.
Proof.
  unfold responseScore, JS.min, JS.max.
  repeat case_match; lia.
Qed.

Lemma revenueScore_bounds broker : 0 <= revenueScore broker <= 25.
Proof. unfold revenueScore. repeat case_match; lia. Qed.

Lemma reliabilityScore_bounds broker : 0 <= reliabilityScore broker <= 25.
Proof.
  unfold reliabilityScore, JS.min.
  repeat case_match; lia.
Qed.

(** The code's payment rule and the specified one agree on every record
    whose credit score and days-to-pay are not the number [0]. *)
Lemma paymentScore_agrees_off_zero broker :
  credit_score broker <> Some 0 ->
  days_to_pay broker <> Some 0 ->
  paymentScore broker = paymentScore_spec broker.
Proof.
  intros Hc Hd.
  unfold paymentScore, paymentScore_spec, payment_tier, JS.truthy_num,
    JS.or_zero, JS.min, JS.max.
  destruct (credit_score broker) as [cs|], (days_to_pay broker) as [d|];
    try (destruct (Z.eqb_spec cs 0); [congruence|]);
    try (destruct (Z.eqb_spec d 0); [congruence|]);
    simpl; reflexivity.
Qed.

(** C9: [calculateRelationshipScore] is a total function whose score lies in
    [0,100] for every record and instant, each sub-score lying in [0,25];
    a record whose scoring columns are all absent gets payment 15,
    responsiveness 10, revenue 0, reliability 10, total 35. *)
Theorem calculateRelationshipScore_total_in_range :
  (forall now broker,
     let result := calculateRelationshipScore now broker in
     0 <= fst result <= 100
     /\ 0 <= payment (snd result) <= 25
     /\ 0 <= responsiveness (snd result) <= 25
     /\ 0 <= revenue (snd result) <= 25
     /\ 0 <= reliability (snd result) <= 25)
  /\ (forall now bid cid cname mail tel st lanes first,
        calculateRelationshipScore now
          (mkBroker bid cid cname mail tel st lanes None false None
                    None None None None None None None first)
        = (35, mkBreakdown 15 10 0 10)).
Proof.
  split.
  - intros now broker. cbn.
    pose proof (paymentScore_bounds broker).
    pose proof (responseScore_bounds now broker).
    pose proof (revenueScore_bounds broker).
    pose proof (reliabilityScore_bounds broker).
    unfold JS.min. repeat split; lia.
  - reflexivity.
Qed.

Example calculateRelationshipScore_blank :
  calculateRelationshipScore 0 blank_broker = (35, mkBreakdown 15 10 0 10).
Proof. reflexivity. Qed.

Example calculateRelationshipScore_strong :
  calculateRelationshipScore (3 * ms_per_day) Scenarios.strong_broker
  = (97, mkBreakdown 25 25 25 22).
Proof. vm_compute. reflexivity. Qed.

(** C8: on a record whose credit score is the number [0] the payment
    sub-score stays at the default 15, where the specified tiering gives 5;
    on a record whose days-to-pay is [0] the +5 adjustment is not applied
    (15 where the specified rule gives 20). *)
Theorem paymentScore_zero_is_absent :
  paymentScore Scenarios.zero_credit_broker = 15
  /\ paymentScore_spec Scenarios.zero_credit_broker = 5
  /\ paymentScore Scenarios.same_day_pay_broker = 15
  /\ paymentScore_spec Scenarios.same_day_pay_broker = 20.
Proof. repeat split; reflexivity. Qed.

End RelationshipScorerFacts.

(** ** TargetScorer *)

Section TargetScorerFacts.

Import TargetScorer.

Lemma scoreBrokerTarget_in_range broker carrier home :
  0 <= scoreBrokerTarget broker carrier home <= 100.
Proof. unfold scoreBrokerTarget, JS.min, JS.max. lia. Qed.

Lemma geo_points_spec broker home : geo_points broker home = spec_geo broker home.
Proof.
  unfold geo_points, spec_geo, brokerState, status_is, array_includes.
  generalize (STATE_NEIGHBORS !! home) as ns. intros ns.
  destruct (address_state broker) as [r|]; cbn [fmap option_fmap option_map].
  - destruct (String.eqb (JS.toUpperCase r) home); [reflexivity|].
    destruct ns; reflexivity.
  - destruct ns; reflexivity.
Qed.

Lemma filter_nothing {A} (l : list A) : List.filter (fun _ => false) l = [].
Proof. induction l; simpl; auto. Qed.

Lemma lane_points_spec broker carrier :
  lane_points broker carrier = spec_lanes broker carrier.
Proof.
  unfold lane_points, spec_lanes, lane_overlap.
  destruct (default [] (c_preferred_lanes carrier)) as [|l ls] eqn:Hc.
  { reflexivity. }
  destruct (default [] (preferred_lanes broker)) as [|bl bls] eqn:Hb.
  { cbn [length existsb]. rewrite filter_nothing. reflexivity. }
  set (kept := List.filter _ (l :: ls)).
  assert (Hpos : forall n : nat, (0 <? Z.of_nat (S n)) = true)
    by (intros n; apply Z.ltb_lt; lia).
  cbn [length]. rewrite !Hpos. cbn [andb].
  destruct kept; cbn [length]; [reflexivity|].
  rewrite Hpos. lia.
Qed.

Lemma authority_points_spec broker :
  authority_points broker = spec_authority broker.
Proof.
  unfold authority_points, spec_authority.
  rewrite orb_comm. reflexivity.
Qed.

Lemma credit_points_spec broker :
  credit_score broker <> Some 0 -> credit_points broker = spec_credit broker.
Proof.
  intros Hc. unfold credit_points, spec_credit, JS.truthy_num, JS.cmp_num.
  destruct (credit_score broker) as [cs|]; [|reflexivity].
  destruct (Z.eqb_spec cs 0); [congruence|]. reflexivity.
Qed.

Lemma pay_points_spec broker :
  days_to_pay broker <> Some 0 -> pay_points broker = spec_pay broker.
Proof.
  intros Hd. unfold pay_points, spec_pay, JS.truthy_num, JS.cmp_num.
  destruct (days_to_pay broker) as [d|]; [|reflexivity].
  destruct (Z.eqb_spec d 0); [congruence|]. reflexivity.
Qed.

Lemma new_points_spec broker : new_points broker = spec_new broker.
Proof.
  unfold new_points, spec_new, status_is, JS.truthy_str.
  destruct (outreach_status broker) as [[|c s]|]; reflexivity.
Qed.

Lemma booked_points_spec broker :
  0 <= default 0 (total_loads_booked broker) ->
  booked_points broker = spec_booked broker.
Proof.
  unfold booked_points, spec_booked, JS.cmp_num, JS.or_zero.
  destruct (total_loads_booked broker) as [n|]; simpl; [|reflexivity].
  intros Hn. destruct (Z.gtb_spec n 0); lia.
Qed.

Lemma rate_points_spec broker : rate_points broker = spec_rate broker.
Proof.
  unfold rate_points, spec_rate, JS.rate_gt.
  destruct (response_rate broker); reflexivity.
Qed.

(** Away from the number [0] in [credit_score] and [days_to_pay], and for a
    non-negative booking count, the code computes the reference score. *)
Lemma scoreBrokerTarget_agrees_off_zero broker carrier home :
  credit_score broker <> Some 0 ->
  days_to_pay broker <> Some 0 ->
  0 <= default 0 (total_loads_booked broker) ->
  scoreBrokerTarget broker carrier home
  = scoreBrokerTarget_spec broker carrier home.
Proof.
  intros Hc Hd Hn.
  unfold scoreBrokerTarget, scoreBrokerTarget_spec, raw_score, clamp,
    JS.min, JS.max.
  rewrite geo_points_spec, lane_points_spec, authority_points_spec,
    credit_points_spec, pay_points_spec, new_points_spec,
    booked_points_spec, rate_points_spec by assumption.
  reflexivity.
Qed.

(** C7: for a broker whose credit score is the number [0] the code applies
    no credit penalty and returns 50 where the reference definition gives
    35; for one whose days-to-pay is [0] it gives no quick-pay bonus and
    returns 50 where the reference gives 60.  Both results stay within
    [0,100]. *)
Theorem scoreBrokerTarget_zero_is_absent :
  scoreBrokerTarget Scenarios.zero_credit_broker Scenarios.nj_carrier "NJ" = 50
  /\ scoreBrokerTarget_spec Scenarios.zero_credit_broker Scenarios.nj_carrier "NJ" = 35
  /\ scoreBrokerTarget Scenarios.same_day_pay_broker Scenarios.nj_carrier "NJ" = 50
  /\ scoreBrokerTarget_spec Scenarios.same_day_pay_broker Scenarios.nj_carrier "NJ" = 60.
Proof. repeat split; vm_compute; reflexivity. Qed.

Example scoreBrokerTarget_strong :
  raw_score Scenarios.strong_broker Scenarios.nj_carrier "NJ" = 180
  /\ scoreBrokerTarget Scenarios.strong_broker Scenarios.nj_carrier "NJ" = 100
  /\ scoreBrokerTarget_spec Scenarios.strong_broker Scenarios.nj_carrier "NJ" = 100.
Proof. repeat split; vm_compute; reflexivity. Qed.

End TargetScorerFacts.

(** ** ComplianceWindow *)

Section ComplianceWindowFacts.

Import ComplianceWindow.

Lemma prefix_app_l (p s t : string) :
  String.prefix p s = true -> String.prefix p (s +:+ t) = true.
Proof.
  revert s. induction p as [|c p IH]; intros s H.
  - destruct (s +:+ t); reflexivity.
  - destruct s as [|d s]; [discriminate|].
    change (String d s +:+ t) with (String d (s +:+ t)).
    cbn [String.prefix] in *.
    destruct (ascii_dec c d); [apply IH; exact H|discriminate].
Qed.

Lemma includes_app_l (s t sub : string) :
  JS.includes s sub = true -> JS.includes (s +:+ t) sub = true.
Proof.
  induction s as [|c s IH]; intros H.
  - cbn in H. rewrite orb_false_r in H.
    destruct sub; [|discriminate]. destruct t; reflexivity.
  - cbn [JS.includes] in H. apply orb_true_iff in H as [H|H].
    + change (String c s +:+ t) with (String c (s +:+ t)) in *.
      cbn [JS.includes]. apply orb_true_iff. left.
      apply (prefix_app_l sub (String c s) t H).
    + change (String c s +:+ t) with (String c (s +:+ t)).
      cbn [JS.includes]. apply orb_true_iff. right. auto.
Qed.

(** Every rule record, listed or defaulted, has the window [8, 21). *)
Lemma getStateRules_window code :
  call_start_hour (getStateRules code) = 8%nat
  /\ call_end_hour (getStateRules code) = 21%nat.
Proof.
  unfold getStateRules.
  destruct (STATE_RULES !! JS.toUpperCase code) as [rules|] eqn:Hlook.
  - unfold STATE_RULES in Hlook. apply elem_of_list_to_map_2 in Hlook.
    unfold STATE_RULES_table in Hlook.
    repeat (apply elem_of_cons in Hlook as [Hlook|Hlook];
            [injection Hlook as _ ->; split; reflexivity|]).
    apply elem_of_nil in Hlook. contradiction.
  - split; reflexivity.
Qed.

Lemma getStateRules_CA :
  getStateRules "CA"
  = mkStateRule "CA" "California" "America/Los_Angeles" 8 21 true
      ["Requires written consent for automated calls";
       "Must identify caller within first 30 seconds"].
Proof. vm_compute. reflexivity. Qed.

(** C6: a region absent from the table is evaluated with the federal window
    [8, 21) and registry flag false; for every region and instant the
    result is refused with a reason mentioning "early" below the window
    start, refused with a reason mentioning "late" at or past the window
    end, and allowed otherwise; for "CA" local hour 7 is refused as early
    and local hour 10 is allowed. *)
Theorem canCallNow_follows_window :
  forall (zones : TimeZones) (now : Z) (code : string),
    let rules := getStateRules code in
    let hour := hours (zones (timezone rules) now) in
    let check := canCallNow zones now code in
    (STATE_RULES !! JS.toUpperCase code = None ->
       call_start_hour rules = 8%nat /\ call_end_hour rules = 21%nat
       /\ state_dnc_registry rules = false)
    /\ ((hour < call_start_hour rules)%nat ->
          allowed check = false /\ JS.includes (reason check) "early" = true)
    /\ ((call_end_hour rules <= hour)%nat ->
          allowed check = false /\ JS.includes (reason check) "late" = true)
    /\ ((call_start_hour rules <= hour < call_end_hour rules)%nat ->
          allowed check = true)
    /\ (hours (zones "America/Los_Angeles" now) = 7%nat ->
          allowed (canCallNow zones now "CA") = false
          /\ JS.includes (reason (canCallNow zones now "CA")) "early" = true)
    /\ (hours (zones "America/Los_Angeles" now) = 10%nat ->
          allowed (canCallNow zones now "CA") = true).
Proof.
  intros zones now code rules hour check.
  assert (Hgen : forall c,
    let r := getStateRules c in
    let h := hours (zones (timezone r) now) in
    let k := canCallNow zones now c in
    ((h < call_start_hour r)%nat ->
       allowed k = false /\ JS.includes (reason k) "early" = true)
    /\ ((call_end_hour r <= h)%nat ->
          allowed k = false /\ JS.includes (reason k) "late" = true)
    /\ ((call_start_hour r <= h < call_end_hour r)%nat -> allowed k = true)).
  { intros c r h k.
    destruct (getStateRules_window c) as [Hs He].
    fold r in Hs, He.
    subst k. unfold canCallNow. fold r. fold h.
    destruct (Nat.ltb_spec h (call_start_hour r)) as [Hlt|Hge].
    - cbn [allowed reason].
      split; [intros _; split; [reflexivity|] | split; intros; lia].
      apply includes_app_l. reflexivity.
    - destruct (Nat.leb_spec (call_end_hour r) h) as [Hle|Hgt].
      + cbn [allowed reason].
        split; [intros; lia|].
        split; [intros _; split; [reflexivity|] | intros; lia].
        apply includes_app_l. reflexivity.
      + cbn [allowed reason].
        split; [intros; lia|]. split; [intros; lia|]. reflexivity. }
  destruct (Hgen code) as (Hearly & Hlate & Hok).
  split.
  { intros Hnone. subst rules. unfold getStateRules. rewrite Hnone.
    repeat split; reflexivity. }
  split; [exact Hearly|]. split; [exact Hlate|]. split; [exact Hok|].
  destruct (Hgen "CA") as (HearlyCA & _ & HokCA).
  rewrite getStateRules_CA in HearlyCA, HokCA.
  cbn [timezone call_start_hour call_end_hour] in HearlyCA, HokCA.
  split.
  - intros H7. apply HearlyCA. rewrite H7. lia.
  - intros H10. apply HokCA. rewrite H10. lia.
Qed.

Example canCallNow_CA_early :
  canCallNow (Scenarios.clock_at 7 5) 0 "ca"
  = {| allowed := false;
       reason := "Too early in California. Calling allowed after 8:00 AM local time. Current local time: 07:05.";
       local_time := "07:05" |}.
Proof. vm_compute. reflexivity. Qed.

Example canCallNow_unlisted_ok :
  canCallNow (Scenarios.clock_at 10 30) 0 "wy"
  = {| allowed := true;
       reason := "OK to call WY. Current local time: 10:30. Window: 8:00 AM - 21:00 PM.";
       local_time := "10:30" |}.
Proof. vm_compute. reflexivity. Qed.

Lemma canCallNow_follows_window_witness :
  (allowed (canCallNow (Scenarios.clock_at 7 30) 0 "CA") = false
   /\ JS.includes (reason (canCallNow (Scenarios.clock_at 7 30) 0 "CA"))
        "early" = true)
  /\ allowed (canCallNow (Scenarios.clock_at 10 0) 0 "CA") = true
  /\ (allowed (canCallNow (Scenarios.clock_at 21 0) 0 "wy") = false
      /\ JS.includes (reason (canCallNow (Scenarios.clock_at 21 0) 0 "wy"))
           "late" = true)
  /\ (call_start_hour (getStateRules "wy") = 8%nat
      /\ call_end_hour (getStateRules "wy") = 21%nat
      /\ state_dnc_registry (getStateRules "wy") = false).
Proof.
  split; [|split; [|split]].
  - destruct (canCallNow_follows_window (Scenarios.clock_at 7 30) 0 "CA")
      as (_ & _ & _ & _ & H7 & _).
    exact (H7 eq_refl).
  - destruct (canCallNow_follows_window (Scenarios.clock_at 10 0) 0 "CA")
      as (_ & _ & _ & _ & _ & H10).
    exact (H10 eq_refl).
  - destruct (canCallNow_follows_window (Scenarios.clock_at 21 0) 0 "wy")
      as (_ & _ & Hlate & _).
    apply Hlate. vm_compute. reflexivity.
  - destruct (canCallNow_follows_window (Scenarios.clock_at 21 0) 0 "wy")
      as (Hunknown & _).
    apply Hunknown. vm_compute. reflexivity.
Defined.

End ComplianceWindowFacts.

(** ** Outreach campaigns *)

Section OutreachFacts.

Import TargetScorer Outreach.

(** *** The provider step and the fan-out *)

Lemma deliver_db env m w : db (fst (deliver env m w)) = db w.
Proof.
  unfold deliver.
  destruct (sendgrid_ready env); [destruct (sgMail_send env m)|]; reflexivity.
Qed.

Lemma deliver_calls env m w : calls (fst (deliver env m w)) = calls w.
Proof.
  unfold deliver.
  destruct (sendgrid_ready env); [destruct (sgMail_send env m)|]; reflexivity.
Qed.

Lemma deliver_mails env m w :
  mails (fst (deliver env m w))
  = mails w ++ (if sendgrid_ready env then [m] else []).
Proof.
  unfold deliver.
  destruct (sendgrid_ready env); [destruct (sgMail_send env m)|]; cbn;
    rewrite ?app_nil_r; reflexivity.
Qed.

Lemma deliver_success env m w :
  success (snd (deliver env m w))
  = if sendgrid_ready env
    then match sgMail_send env m with inl _ => true | inr _ => false end
    else true.
Proof.
  unfold deliver.
  destruct (sendgrid_ready env); [destruct (sgMail_send env m)|]; reflexivity.
Qed.

Lemma scheduleFollowUps_effect zone u bid parent now d :
  brokers (scheduleFollowUps zone u bid parent now d) = brokers d
  /\ exists rows,
       outreach_campaigns (scheduleFollowUps zone u bid parent now d)
       = outreach_campaigns d ++ rows
       /\ Forall (fun c => status c = scheduled
                           /\ parent_campaign_id c = Some parent
                           /\ carrier_id c = u /\ broker_id c = bid) rows.
Proof.
  unfold scheduleFollowUps.
  generalize (sort_by (fun a b => t_sequence_step a <=? t_sequence_step b)
                (List.filter
                   (fun t => (is_default t && String.eqb (category t) "follow_up")%bool)
                   (email_templates d))) as templates.
  intros templates. revert d.
  induction templates as [|tmpl templates IH]; intros d.
  - split; [reflexivity|]. exists []. rewrite app_nil_r. split; [reflexivity|constructor].
  - cbn [fold_left].
    destruct (IH (set_campaigns
                    (outreach_campaigns d ++
                       [followup_row zone (next_id (outreach_campaigns d)) u bid parent now tmpl])
                    d)) as [Hb (rows & Hrows & Hall)].
    split; [rewrite Hb; reflexivity|].
    exists (followup_row zone (next_id (outreach_campaigns d)) u bid parent now tmpl :: rows).
    split.
    + rewrite Hrows. cbn [outreach_campaigns set_campaigns].
      rewrite <- app_assoc. reflexivity.
    + constructor; [repeat split; reflexivity|exact Hall].
Qed.

(** *** Initiation *)

(** What [send-initial] does once its three validations have passed. *)
Lemma send_initial_validated env now u bid w carrier broker :
  bid <> "" ->
  carrier_profiles (db w) !! u = Some carrier ->
  broker_of (db w) u bid = Some broker ->
  JS.truthy_str (email broker) = true ->
  send_initial env now u (Some bid) w
  = match single (step1_rows (db w) u bid) with
    | Some _ => (w, Reply 409 "Initial outreach already sent to this broker")
    | None =>
        match template_named (db w) u "initial_outreach" with
        | None => (w, Reply 500 "Initial outreach template not found")
        | Some _ =>
            let w1 := fst (deliver env (mkMail (default "" (email broker)) None) w) in
            let r := snd (deliver env (mkMail (default "" (email broker)) None) w) in
            let cid := next_id (outreach_campaigns (db w1)) in
            let d2 := set_campaigns
                        (outreach_campaigns (db w1) ++ [initial_row cid u bid now r])
                        (db w1) in
            let d3 := set_brokers
                        (update_broker bid (contacted_patch broker now) (brokers d2)) d2 in
            let d4 := if success r
                      then scheduleFollowUps (process_zone env) u bid cid now d3
                      else d3 in
            (set_db d4 w1,
             Reply 200 (if success r then "Initial outreach sent" else "Failed to send"))
        end
    end.
Proof.
  intros Hbid Hcar Hbro Hmail.
  unfold send_initial.
  destruct bid as [|a bid]; [congruence|].
  rewrite Hcar, Hbro, Hmail. cbn [negb].
  destruct (single (step1_rows (db w) u (String a bid))); [reflexivity|].
  destruct (template_named (db w) u "initial_outreach"); [|reflexivity].
  destruct (deliver env (mkMail (default "" (email broker)) None) w) as [w1 r].
  reflexivity.
Qed.

(** What [initiate] does once its validations have passed and provider
    credentials are configured. *)
Lemma initiate_validated env now u bid w carrier broker fromNumber :
  bid <> "" ->
  carrier_profiles (db w) !! u = Some carrier ->
  broker_of (db w) u bid = Some broker ->
  JS.truthy_str (phone broker) = true ->
  twilio_from env = Some fromNumber ->
  fromNumber <> "" ->
  initiate env now u (Some bid) w
  = let request := mkPhoneCall (default "" (phone broker)) fromNumber in
    let w1 := {| db := db w; mails := mails w; calls := calls w ++ [request] |} in
    match calls_create env request with
    | None => (w1, Reply 500 "Internal server error")
    | Some _ =>
        let d2 := log_call u bid now None (db w1) in
        let d3 := set_brokers
                    (update_broker bid (called_patch broker now) (brokers d2)) d2 in
        (set_db d3 w1, Reply 200 "Calling")
    end.
Proof.
  intros Hbid Hcar Hbro Hphone Hfrom Hne.
  unfold initiate.
  destruct bid as [|a bid]; [congruence|].
  rewrite Hcar, Hbro, Hphone, Hfrom. cbn [negb].
  destruct fromNumber; [congruence|]. reflexivity.
Qed.

(** The call path looks up no campaign row: once its validations have
    passed, [initiate] appends a step-1 row for every call the provider
    accepts, and in dev mode for every request. *)
Lemma initiate_appends_step1_row env now u bid w carrier broker :
  bid <> "" ->
  carrier_profiles (db w) !! u = Some carrier ->
  broker_of (db w) u bid = Some broker ->
  JS.truthy_str (phone broker) = true ->
  let cs := outreach_campaigns (db w) in
  let out := initiate env now u (Some bid) w in
  match twilio_from env with
  | Some (String a f) =>
      match calls_create env
              (mkPhoneCall (default "" (phone broker)) (String a f)) with
      | Some _ =>
          http (snd out) = 200%nat
          /\ outreach_campaigns (db (fst out))
             = cs ++ [call_row (next_id cs) u bid now None]
      | None =>
          http (snd out) = 500%nat
          /\ outreach_campaigns (db (fst out)) = cs
      end
  | _ =>
      http (snd out) = 200%nat
      /\ outreach_campaigns (db (fst out))
         = cs ++ [call_row (next_id cs) u bid now
                    (Some "DEV MODE — no actual call placed")]
  end.
Proof.
  intros Hbid Hcar Hbro Hphone cs. cbn zeta.
  destruct (twilio_from env) as [[|a f]|] eqn:Hfrom.
  - unfold initiate. destruct bid as [|x bid]; [congruence|].
    rewrite Hcar, Hbro, Hphone, Hfrom. cbn. split; reflexivity.
  - rewrite (initiate_validated env now u bid w carrier broker (String a f))
      by (assumption || discriminate).
    cbn zeta.
    destruct (calls_create env
                (mkPhoneCall (default "" (phone broker)) (String a f)));
      cbn; split; reflexivity.
  - unfold initiate. destruct bid as [|x bid]; [congruence|].
    rewrite Hcar, Hbro, Hphone, Hfrom. cbn. split; reflexivity.
Qed.

Example initiate_after_sent_step1 :
  active_step1 (db Scenarios.w_sent) "u1" "b1"
  = [Scenarios.row 1 1 sent 0 (Some 0)]
  /\ http (snd (initiate Scenarios.env_live 1000 "u1" (Some "b1")
                  Scenarios.w_sent)) = 200%nat
  /\ active_step1
       (db (fst (initiate Scenarios.env_live 1000 "u1" (Some "b1")
                   Scenarios.w_sent))) "u1" "b1"
     = [Scenarios.row 1 1 sent 0 (Some 0); call_row 2 "u1" "b1" 1000 None].
Proof. repeat split; vm_compute; reflexivity. Qed.

(** *** The broker update of the initial send *)

(** C10 (as the code has it): once [send-initial] has passed its
    validations, the pair has no step-1 row to conflict with and the
    initial template is found, the broker row is updated whether or not
    the delivery succeeded: status "contacted", last contact now, first
    contact kept or set to now, attempts incremented by one.  The step-1 row
    is written with status [sent] or [failed] after the delivery result,
    and on failure it is the only row added. *)
Theorem send_initial_updates_broker :
  forall env now u bid w carrier broker tmpl,
    bid <> "" ->
    carrier_profiles (db w) !! u = Some carrier ->
    broker_of (db w) u bid = Some broker ->
    JS.truthy_str (email broker) = true ->
    single (step1_rows (db w) u bid) = None ->
    template_named (db w) u "initial_outreach" = Some tmpl ->
    let out := send_initial env now u (Some bid) w in
    let r := snd (deliver env (mkMail (default "" (email broker)) None) w) in
    let cs := outreach_campaigns (db w) in
    let step1 := initial_row (next_id cs) u bid now r in
    (exists b',
        brokers (db (fst out)) !! bid = Some b'
        /\ outreach_status b' = Some "contacted"
        /\ last_contact_date b' = Some now
        /\ first_contact_date b' = Some (default now (first_contact_date broker))
        /\ total_outreach_attempts b'
           = Some (JS.or_zero (total_outreach_attempts broker) + 1))
    /\ step1 ∈ outreach_campaigns (db (fst out))
    /\ status step1 = (if success r then sent else failed)
    /\ (success r = false -> outreach_campaigns (db (fst out)) = cs ++ [step1])
    /\ (success r = true ->
        exists followups,
          outreach_campaigns (db (fst out)) = cs ++ step1 :: followups
          /\ Forall (fun c => status c = scheduled
                              /\ parent_campaign_id c = Some (next_id cs))
               followups).
Proof.
  intros env now u bid w carrier broker tmpl Hbid Hcar Hbro Hmail Hnone Htmpl
    out r cs step1.
  assert (Hrow : brokers (db w) !! bid = Some broker).
  { unfold broker_of in Hbro. destruct (brokers (db w) !! bid) as [b|]; [|discriminate].
    destruct (String.eqb (b_carrier_id b) u); congruence. }
  subst out.
  rewrite (send_initial_validated env now u bid w carrier broker) by assumption.
  rewrite Hnone, Htmpl. cbn zeta. cbn [fst snd].
  rewrite (deliver_db env _ w). fold r. fold cs. fold step1.
  set (d3 := set_brokers _ _).
  assert (Hd3 : brokers d3 !! bid = Some (contacted_patch broker now broker)).
  { subst d3. cbn [brokers set_brokers set_campaigns]. unfold update_broker.
    rewrite lookup_alter_eq, Hrow. reflexivity. }
  assert (Hcs3 : outreach_campaigns d3 = cs ++ [step1]) by reflexivity.
  destruct (scheduleFollowUps_effect (process_zone env) u bid (next_id cs) now d3)
    as [Hb (rows & Hrows & Hall)].
  split.
  { exists (contacted_patch broker now broker).
    split.
    - destruct (success r); cbn [db set_db]; [rewrite Hb|]; exact Hd3.
    - cbn. destruct (first_contact_date broker); repeat split; reflexivity. }
  split.
  { destruct (success r); cbn [db set_db].
    - rewrite Hrows, Hcs3. set_solver.
    - rewrite Hcs3. set_solver. }
  split; [reflexivity|].
  split.
  - intros Hfail. rewrite Hfail. cbn [db set_db]. exact Hcs3.
  - intros Hok. rewrite Hok. cbn [db set_db].
    exists rows. rewrite Hrows, Hcs3, <- app_assoc. split; [reflexivity|].
    eapply Forall_impl; [exact Hall|]. intros c Hc. split; apply Hc.
Qed.

Lemma send_initial_updates_broker_witness :
  exists b',
    brokers (db (fst (send_initial Scenarios.env_bounce 1000 "u1" (Some "b1")
                        Scenarios.w_fresh))) !! "b1" = Some b'
    /\ outreach_status b' = Some "contacted"
    /\ last_contact_date b' = Some 1000
    /\ first_contact_date b' = Some 1000
    /\ total_outreach_attempts b' = Some 1.
Proof.
  assert (Hbid : "b1" <> "") by discriminate.
  destruct (send_initial_updates_broker Scenarios.env_bounce 1000 "u1" "b1"
              Scenarios.w_fresh Scenarios.nj_carrier Scenarios.ca_broker
              (mkTemplate "initial_outreach" None "cold_outreach" true 1 0)
              Hbid eq_refl eq_refl eq_refl eq_refl eq_refl) as [H _].
  exact H.
Defined.

(** C10 fails as stated: with the carrier profile present, the broker found
    and an email address on file, a pair that already has a step-1 row is
    answered 409 and the broker row is left as it was. *)
Lemma send_initial_updates_broker_counterexample :
  carrier_profiles (db Scenarios.w_sent) !! "u1" = Some Scenarios.nj_carrier
  /\ broker_of (db Scenarios.w_sent) "u1" "b1" = Some Scenarios.ca_broker
  /\ JS.truthy_str (email Scenarios.ca_broker) = true
  /\ http (snd (send_initial Scenarios.env_live 1000 "u1" (Some "b1")
                  Scenarios.w_sent)) = 409%nat
  /\ brokers (db (fst (send_initial Scenarios.env_live 1000 "u1" (Some "b1")
                         Scenarios.w_sent))) !! "b1"
     = Some Scenarios.ca_broker
  /\ outreach_status Scenarios.ca_broker = Some "new"
  /\ total_outreach_attempts Scenarios.ca_broker = None.
Proof. repeat split; vm_compute; reflexivity. Qed.

(** *** Calls and the compliance window *)

(** C5 (as the code has it): [initiate] places the call whenever its
    validations pass, credentials are configured and the provider accepts
    the request, also at an instant when [canCallNow] refuses the broker's
    region: the handler never consults the window.  Email sends are not
    gated either: under the same refusal [send-initial] hands the message
    to the provider. *)
Theorem dispatch_ignores_compliance_window :
  forall env now u bid w carrier broker fromNumber sid zones region,
    bid <> "" ->
    carrier_profiles (db w) !! u = Some carrier ->
    broker_of (db w) u bid = Some broker ->
    address_state broker = Some region ->
    ComplianceWindow.allowed (ComplianceWindow.canCallNow zones now region)
    = false ->
    (JS.truthy_str (phone broker) = true ->
     twilio_from env = Some fromNumber ->
     fromNumber <> "" ->
     calls_create env (mkPhoneCall (default "" (phone broker)) fromNumber)
     = Some sid ->
     http (snd (initiate env now u (Some bid) w)) = 200%nat
     /\ calls (fst (initiate env now u (Some bid) w))
        = calls w ++ [mkPhoneCall (default "" (phone broker)) fromNumber])
    /\ (JS.truthy_str (email broker) = true ->
        single (step1_rows (db w) u bid) = None ->
        is_Some (template_named (db w) u "initial_outreach") ->
        sendgrid_ready env = true ->
        http (snd (send_initial env now u (Some bid) w)) = 200%nat
        /\ mails (fst (send_initial env now u (Some bid) w))
           = mails w ++ [mkMail (default "" (email broker)) None]).
Proof.
  intros env now u bid w carrier broker fromNumber sid zones region
    Hbid Hcar Hbro Hregion Hrefused.
  split.
  - intros Hphone Hfrom Hne Hsid.
    rewrite (initiate_validated env now u bid w carrier broker fromNumber)
      by assumption.
    cbn zeta. rewrite Hsid. split; reflexivity.
  - intros Hmail Hnone [tmpl Htmpl] Hready.
    rewrite (send_initial_validated env now u bid w carrier broker)
      by assumption.
    rewrite Hnone, Htmpl. cbn zeta. cbn [fst snd http mails set_db].
    split; [reflexivity|].
    rewrite deliver_mails, Hready. reflexivity.
Qed.

Lemma dispatch_ignores_compliance_window_witness :
  calls (fst (initiate Scenarios.env_live 1000 "u1" (Some "b1")
                Scenarios.w_fresh))
  = [mkPhoneCall "+15550100" "+15550000"]
  /\ mails (fst (send_initial Scenarios.env_live 1000 "u1" (Some "b1")
                   Scenarios.w_fresh))
     = [mkMail "ops@acme.test" None].
Proof.
  assert (Hbid : "b1" <> "") by discriminate.
  assert (Hfrom : "+15550000" <> "") by discriminate.
  assert (Hrefused :
    ComplianceWindow.allowed
      (ComplianceWindow.canCallNow (Scenarios.clock_at 3 0) 1000 "CA") = false)
    by (vm_compute; reflexivity).
  destruct (dispatch_ignores_compliance_window Scenarios.env_live 1000 "u1"
              "b1" Scenarios.w_fresh Scenarios.nj_carrier Scenarios.ca_broker
              "+15550000" "CA-1" (Scenarios.clock_at 3 0) "CA"
              Hbid eq_refl eq_refl eq_refl Hrefused) as [Hcall Hmail].
  split.
  - exact (proj2 (Hcall eq_refl eq_refl Hfrom eq_refl)).
  - refine (proj2 (Hmail eq_refl eq_refl _ eq_refl)).
    eexists. vm_compute. reflexivity.
Defined.

(** C5 fails as stated: at 03:00 local time [canCallNow] refuses California,
    and [initiate] still places the call to a California broker. *)
Lemma dispatch_ignores_compliance_window_counterexample :
  address_state Scenarios.ca_broker = Some "CA"
  /\ ComplianceWindow.allowed
       (ComplianceWindow.canCallNow (Scenarios.clock_at 3 0) 1000 "CA") = false
  /\ http (snd (initiate Scenarios.env_live 1000 "u1" (Some "b1")
                  Scenarios.w_fresh)) = 200%nat
  /\ calls (fst (initiate Scenarios.env_live 1000 "u1" (Some "b1")
                   Scenarios.w_fresh))
     = [mkPhoneCall "+15550100" "+15550000"].
Proof. repeat split; vm_compute; reflexivity. Qed.

(** *** Queries: filtering, ordering *)

Lemma elem_of_filter_bool {A} (p : A -> bool) (l : list A) (x : A) :
  x ∈ List.filter p l <-> x ∈ l /\ p x = true.
Proof. rewrite !list_elem_of_In. apply filter_In. Qed.

Lemma filter_bool_sublist {A} (p : A -> bool) (l : list A) :
  sublist (List.filter p l) l.
Proof.
  induction l as [|x l IH]; cbn; [constructor|].
  destruct (p x); [apply sublist_skip|apply sublist_cons]; exact IH.
Qed.

Lemma insert_by_perm {A} (le : A -> A -> bool) (x : A) (l : list A) :
  insert_by le x l ≡ₚ x :: l.
Proof.
  induction l as [|y l IH]; cbn; [reflexivity|].
  destruct (le x y); [reflexivity|].
  rewrite IH. apply Permutation_swap.
Qed.

Lemma sort_by_perm {A} (le : A -> A -> bool) (l : list A) :
  sort_by le l ≡ₚ l.
Proof.
  induction l as [|x l IH]; cbn; [reflexivity|].
  rewrite insert_by_perm, IH. reflexivity.
Qed.


Lemma status_eqb_eq a b : status_eqb a b = true <-> a = b.
Proof. destruct a, b; cbn; split; congruence. Qed.

(** *** The sweep *)

Lemma fetch_due_sources now d r :
  r ∈ fetch_due now d ->
  due_campaign r ∈ outreach_campaigns d
  /\ status (due_campaign r) = scheduled
  /\ is_due now (due_campaign r) = true
  /\ due_broker r = brokers d !! broker_id (due_campaign r).
Proof.
  unfold fetch_due. intros Hr.
  apply list_elem_of_fmap in Hr as (c & -> & Hc).
  cbn [due_campaign due_broker].
  apply (fun H => elem_of_sublist _ _ _ H (sublist_take _ 100)) in Hc.
  rewrite sort_by_perm in Hc.
  apply elem_of_filter_bool in Hc as [Hin Hdue].
  repeat split; try assumption.
  unfold is_due in Hdue. apply andb_true_iff in Hdue as [Hst _].
  apply status_eqb_eq. exact Hst.
Qed.

Lemma fetch_due_ids now d :
  NoDup (campaign_id <$> outreach_campaigns d) ->
  NoDup (due_id <$> fetch_due now d).
Proof.
  intros Hnd. unfold fetch_due.
  rewrite <- list_fmap_compose.
  change (due_id ∘ _) with campaign_id.
  eapply sublist_NoDup; [|apply fmap_sublist, sublist_take].
  rewrite sort_by_perm.
  eapply sublist_NoDup; [exact Hnd|apply fmap_sublist, filter_bool_sublist].
Qed.

Lemma close_step_frame cid st msg w :
  brokers (db (close_step cid st msg w)) = brokers (db w)
  /\ mails (close_step cid st msg w) = mails w
  /\ outreach_campaigns (db (close_step cid st msg w))
     = update_campaign cid (with_status st (Some msg))
         (outreach_campaigns (db w)).
Proof. repeat split; reflexivity. Qed.

(** The loop body rewrites the rows carrying the fetched id, gives them a
    status other than [scheduled], and hands at most that id to the
    provider. *)
Lemma process_campaign_shape env now w row :
  exists patch,
    outreach_campaigns (db (fst (process_campaign env now w row)))
    = update_campaign (due_id row) patch (outreach_campaigns (db w))
    /\ (forall c, campaign_id (patch c) = campaign_id c
                  /\ carrier_id (patch c) = carrier_id c
                  /\ broker_id (patch c) = broker_id c
                  /\ status (patch c) = final_status env row)
    /\ dispatched (fst (process_campaign env now w row))
       = dispatched w ++ handed_over env row.
Proof.
  unfold process_campaign, final_status, handed_over, precedence, due_mail.
  fold (due_id row).
  destruct (due_broker row) as [broker|]; cbn [mbind option_bind].
  2:{ eexists. cbn. rewrite app_nil_r.
      split; [reflexivity|]. split; [|reflexivity].
      intros c. repeat split; reflexivity. }
  destruct (JS.truthy_str (email broker)) eqn:Hmail; cbn [negb].
  2:{ eexists. cbn. rewrite app_nil_r.
      split; [reflexivity|]. split; [|reflexivity].
      intros c. repeat split; reflexivity. }
  destruct (status_is (outreach_status broker) "responded"
            || status_is (outreach_status broker) "active")%bool.
  { eexists. cbn. rewrite app_nil_r.
    split; [reflexivity|]. split; [|reflexivity].
    intros c. repeat split; reflexivity. }
  destruct (status_is (outreach_status broker) "blacklisted").
  { eexists. cbn. rewrite app_nil_r.
    split; [reflexivity|]. split; [|reflexivity].
    intros c. repeat split; reflexivity. }
  set (m := mkMail (default "" (email broker)) (Some (due_id row))).
  pose proof (deliver_db env m w) as Hdb.
  pose proof (deliver_mails env m w) as Hm.
  pose proof (deliver_success env m w) as Hs.
  unfold provider_accepts. rewrite <- Hs.
  destruct (deliver env m w) as [w1 r].
  cbn [fst snd] in *.
  exists (sent_patch now r).
  split; [rewrite Hdb; destruct (success r); reflexivity|].
  split; [intros c; repeat split; reflexivity|].
  unfold dispatched. cbn [mails set_db]. rewrite Hm, omap_app.
  destruct (sendgrid_ready env); reflexivity.
Qed.

Lemma final_status_closed env row : final_status env row <> scheduled.
Proof.
  unfold final_status, precedence.
  repeat case_match; simplify_eq; discriminate.
Qed.

Lemma update_campaign_ids cid patch cs :
  (forall c, campaign_id (patch c) = campaign_id c) ->
  campaign_id <$> update_campaign cid patch cs = campaign_id <$> cs.
Proof.
  intros Hid. unfold update_campaign. rewrite <- list_fmap_compose.
  apply list_fmap_ext. intros i c _. cbn.
  destruct (Nat.eqb (campaign_id c) cid); [apply Hid|reflexivity].
Qed.

Lemma elem_of_update_campaign cid patch cs x :
  x ∈ update_campaign cid patch cs <->
  exists c, c ∈ cs /\ x = if Nat.eqb (campaign_id c) cid then patch c else c.
Proof.
  unfold update_campaign. rewrite list_elem_of_fmap.
  split; intros (c & H1 & H2); exists c; split; assumption.
Qed.

Lemma sweep_unfold env now w :
  sweep env now w = fst (process_batch env now (fetch_due now (db w)) w).
Proof.
  unfold sweep, follow_up_check.
  destruct (fetch_due now (db w)); reflexivity.
Qed.

Lemma process_batch_cons env now row rest w :
  fst (process_batch env now (row :: rest) w)
  = fst (process_batch env now rest (fst (process_campaign env now w row))).
Proof.
  cbn [process_batch].
  destruct (process_campaign env now w row) as [w1 o]. cbn [fst].
  destruct (process_batch env now rest w1) as [w2 os]. reflexivity.
Qed.

(** The loop keeps the ids of the store. *)
Lemma process_batch_ids env now batch w :
  campaign_ids (fst (process_batch env now batch w)) = campaign_ids w.
Proof.
  revert w. induction batch as [|row rest IH]; intros w; [reflexivity|].
  rewrite process_batch_cons, IH.
  destruct (process_campaign_shape env now w row) as (patch & Hcs & Hpatch & _).
  unfold campaign_ids. rewrite Hcs.
  apply update_campaign_ids. intros c. apply Hpatch.
Qed.

(** The loop hands to the provider exactly the rows that pass the
    precedence, in batch order. *)
Lemma process_batch_dispatched env now batch w :
  dispatched (fst (process_batch env now batch w))
  = dispatched w ++ mjoin (handed_over env <$> batch).
Proof.
  revert w. induction batch as [|row rest IH]; intros w.
  - cbn. rewrite app_nil_r. reflexivity.
  - rewrite process_batch_cons, IH.
    destruct (process_campaign_shape env now w row) as (patch & _ & _ & Hd).
    rewrite Hd. cbn. rewrite <- app_assoc. reflexivity.
Qed.

Lemma handed_over_sublist env batch :
  sublist (mjoin (handed_over env <$> batch)) (due_id <$> batch).
Proof.
  induction batch as [|row rest IH]; cbn; [constructor|].
  unfold handed_over at 1.
  destruct (precedence row); [|destruct (sendgrid_ready env)]; cbn.
  - apply sublist_cons, IH.
  - apply sublist_skip, IH.
  - apply sublist_cons, IH.
Qed.

(** A row of the store after the loop is a row of the store before it, or
    is no longer [scheduled]. *)
Lemma process_batch_rows_kept env now batch w x :
  x ∈ outreach_campaigns (db (fst (process_batch env now batch w))) ->
  x ∈ outreach_campaigns (db w) \/ status x <> scheduled.
Proof.
  revert w. induction batch as [|row rest IH]; intros w Hx; [left; exact Hx|].
  rewrite process_batch_cons in Hx.
  destruct (IH _ Hx) as [Hw1|Hclosed]; [|right; exact Hclosed].
  destruct (process_campaign_shape env now w row) as (patch & Hcs & Hpatch & _).
  rewrite Hcs in Hw1. apply elem_of_update_campaign in Hw1 as (c & Hc & ->).
  destruct (Nat.eqb (campaign_id c) (due_id row)).
  - right. destruct (Hpatch c) as (_ & _ & _ & ->). apply final_status_closed.
  - left. exact Hc.
Qed.

(** Every row carrying a fetched id has left [scheduled] after the loop. *)
Lemma process_batch_rows_closed env now batch w x :
  x ∈ outreach_campaigns (db (fst (process_batch env now batch w))) ->
  campaign_id x ∈ due_id <$> batch ->
  status x <> scheduled.
Proof.
  revert w. induction batch as [|row rest IH]; intros w Hx Hid.
  - inversion Hid.
  - rewrite process_batch_cons in Hx.
    destruct (decide (campaign_id x ∈ due_id <$> rest)) as [Hrest|Hrest].
    { eapply IH; eassumption. }
    cbn in Hid. apply elem_of_cons in Hid as [Hid|Hid]; [|contradiction].
    destruct (process_batch_rows_kept _ _ _ _ _ Hx) as [Hw1|Hclosed];
      [|exact Hclosed].
    destruct (process_campaign_shape env now w row) as (patch & Hcs & Hpatch & _).
    rewrite Hcs in Hw1. apply elem_of_update_campaign in Hw1 as (c & Hc & ->).
    destruct (Nat.eqb_spec (campaign_id c) (due_id row)) as [Heq|Hne].
    + destruct (Hpatch c) as (_ & _ & _ & ->). apply final_status_closed.
    + congruence.
Qed.

(** One sweep preserves [delivered_once]. *)
Lemma sweep_delivered_once env now w :
  delivered_once w -> delivered_once (sweep env now w).
Proof.
  intros (Hids & Hdisp & Hsettled).
  rewrite sweep_unfold.
  set (batch := fetch_due now (db w)).
  assert (Hbatch : NoDup (due_id <$> batch)) by (apply fetch_due_ids, Hids).
  assert (Hfresh : forall i, i ∈ due_id <$> batch -> i ∉ dispatched w).
  { intros i Hi Hsent.
    apply list_elem_of_fmap in Hi as (r & -> & Hr).
    apply fetch_due_sources in Hr as (Hin & Hst & _).
    exact (Hsettled _ Hin Hsent Hst). }
  pose proof (handed_over_sublist env batch) as Hsub.
  split; [rewrite process_batch_ids; exact Hids|].
  split.
  - rewrite process_batch_dispatched. apply NoDup_app.
    split; [exact Hdisp|]. split.
    + intros i Hi Hnew. eapply Hfresh; [|exact Hi].
      eapply elem_of_sublist; eassumption.
    + eapply sublist_NoDup; eassumption.
  - intros c Hc Hsent.
    rewrite process_batch_dispatched in Hsent.
    apply elem_of_app in Hsent as [Hold|Hnew].
    + destruct (process_batch_rows_kept _ _ _ _ _ Hc) as [Hw|Hclosed];
        [|exact Hclosed].
      exact (Hsettled _ Hw Hold).
    + eapply process_batch_rows_closed; [exact Hc|].
      eapply elem_of_sublist; eassumption.
Qed.

(** C4 (as the code has it): sweeps that run one after the other never hand
    a step to the provider twice.  From a store with distinct row ids in
    which no delivered step is still scheduled, any sequence of sweeps, each
    with its own environment and clock reading, keeps the delivery log free
    of repetitions and leaves every delivered step with a status other than
    [scheduled]; a later fetch, at whatever instant, therefore contains no
    step that was already delivered. *)
Theorem sequential_sweeps_deliver_once :
  forall runs w,
    delivered_once w ->
    delivered_once (sweeps runs w)
    /\ forall now r, r ∈ fetch_due now (db (sweeps runs w)) ->
                     due_id r ∉ dispatched (sweeps runs w).
Proof.
  intros runs w Hw.
  assert (Hlater : delivered_once (sweeps runs w)).
  { unfold sweeps. revert w Hw.
    induction runs as [|[env now] runs IH]; intros w Hw; [exact Hw|].
    cbn [fold_left fst snd]. apply IH. apply sweep_delivered_once. exact Hw. }
  split; [exact Hlater|].
  intros now r Hr Hsent.
  destruct Hlater as (_ & _ & Hsettled).
  apply fetch_due_sources in Hr as (Hin & Hst & _).
  exact (Hsettled _ Hin Hsent Hst).
Qed.

Lemma sequential_sweeps_deliver_once_witness :
  delivered_once
    (sweeps [(Scenarios.env_live, 10 * Scenarios.day);
             (Scenarios.env_live, 11 * Scenarios.day)]
       Scenarios.w_sequence).
Proof.
  apply (sequential_sweeps_deliver_once
           [(Scenarios.env_live, 10 * Scenarios.day);
            (Scenarios.env_live, 11 * Scenarios.day)]
           Scenarios.w_sequence).
  split; [|split].
  - apply (bool_decide_unpack _). vm_compute. reflexivity.
  - apply (bool_decide_unpack _). vm_compute. reflexivity.
  - intros c _ Hc. inversion Hc.
Defined.

Example sequential_sweeps_log :
  dispatched
    (sweeps [(Scenarios.env_live, 10 * Scenarios.day);
             (Scenarios.env_live, 11 * Scenarios.day)]
       Scenarios.w_sequence)
  = [2; 3]%nat.
Proof. vm_compute. reflexivity. Qed.

(** C4 fails as stated for overlapping invocations: when the second sweep
    fetches before the first has updated the rows, both follow-ups of the
    sequence are handed to the provider twice. *)
Lemma overlapping_sweeps_counterexample :
  dispatched
    (overlapped_sweeps Scenarios.env_live (10 * Scenarios.day)
       (10 * Scenarios.day) Scenarios.w_sequence)
  = [2; 3; 2; 3]%nat
  /\ ~ NoDup (dispatched
                (overlapped_sweeps Scenarios.env_live (10 * Scenarios.day)
                   (10 * Scenarios.day) Scenarios.w_sequence)).
Proof.
  assert (H : dispatched
                (overlapped_sweeps Scenarios.env_live (10 * Scenarios.day)
                   (10 * Scenarios.day) Scenarios.w_sequence)
              = [2; 3; 2; 3]%nat) by (vm_compute; reflexivity).
  split; [exact H|].
  rewrite H. intros Hnd. apply NoDup_cons in Hnd as [Hnotin _].
  apply Hnotin. set_solver.
Qed.

(** Rows whose id was not fetched are left as they were. *)
Lemma process_batch_rows_outside env now batch w x :
  x ∈ outreach_campaigns (db (fst (process_batch env now batch w))) ->
  campaign_id x ∉ due_id <$> batch ->
  x ∈ outreach_campaigns (db w).
Proof.
  revert w. induction batch as [|row rest IH]; intros w Hx Hout; [exact Hx|].
  rewrite process_batch_cons in Hx.
  cbn in Hout. apply not_elem_of_cons in Hout as [Hne Hrest].
  specialize (IH _ Hx Hrest).
  destruct (process_campaign_shape env now w row) as (patch & Hcs & Hpatch & _).
  rewrite Hcs in IH. apply elem_of_update_campaign in IH as (c & Hc & ->).
  destruct (Nat.eqb_spec (campaign_id c) (due_id row)) as [Heq|_];
    [|exact Hc].
  destruct (Hpatch c) as (Hid & _). congruence.
Qed.

(** After the loop over a batch with distinct ids, every row carrying a
    fetched id has the status the precedence prescribes for that fetched
    row. *)
Lemma process_batch_status env now batch w r x :
  NoDup (due_id <$> batch) ->
  r ∈ batch ->
  x ∈ outreach_campaigns (db (fst (process_batch env now batch w))) ->
  campaign_id x = due_id r ->
  status x = final_status env r.
Proof.
  revert w. induction batch as [|row rest IH]; intros w Hnd Hr Hx Hid.
  - inversion Hr.
  - cbn in Hnd. apply NoDup_cons in Hnd as [Hfirst Hnd].
    rewrite process_batch_cons in Hx.
    apply elem_of_cons in Hr as [->|Hr]; [|eapply IH; eassumption].
    assert (Hout : campaign_id x ∉ due_id <$> rest) by (rewrite Hid; exact Hfirst).
    pose proof (process_batch_rows_outside _ _ _ _ _ Hx Hout) as Hw1.
    destruct (process_campaign_shape env now w row) as (patch & Hcs & Hpatch & _).
    rewrite Hcs in Hw1. apply elem_of_update_campaign in Hw1 as (c & Hc & ->).
    destruct (Nat.eqb_spec (campaign_id c) (due_id row)) as [_|Hne].
    + apply Hpatch.
    + contradiction.
Qed.

(** The precedence at the level of a whole sweep: in a store with distinct
    row ids every fetched step ends with the status its joined broker
    prescribes, and the provider receives exactly the steps that pass the
    precedence. *)
Lemma sweep_settles_due_steps env now w :
  NoDup (campaign_ids w) ->
  (forall r x, r ∈ fetch_due now (db w) ->
               x ∈ outreach_campaigns (db (sweep env now w)) ->
               campaign_id x = due_id r ->
               status x = final_status env r)
  /\ dispatched (sweep env now w)
     = dispatched w ++ mjoin (handed_over env <$> fetch_due now (db w)).
Proof.
  intros Hnd. rewrite sweep_unfold. split.
  - intros r x Hr Hx Hid.
    eapply process_batch_status; [apply fetch_due_ids, Hnd| | |]; eassumption.
  - apply process_batch_dispatched.
Qed.

(** The loop body touches at most the broker of its row, and only when the
    row ends up [sent]. *)
Lemma process_campaign_brokers env now w row b :
  b <> broker_id (due_campaign row) \/ final_status env row <> sent ->
  brokers (db (fst (process_campaign env now w row))) !! b
  = brokers (db w) !! b.
Proof.
  unfold process_campaign, final_status, precedence, due_mail.
  fold (due_id row).
  destruct (due_broker row) as [broker|]; cbn [mbind option_bind];
    [|reflexivity].
  destruct (JS.truthy_str (email broker)); cbn [negb]; [|reflexivity].
  destruct (status_is (outreach_status broker) "responded"
            || status_is (outreach_status broker) "active")%bool;
    [reflexivity|].
  destruct (status_is (outreach_status broker) "blacklisted"); [reflexivity|].
  set (m := mkMail (default "" (email broker)) (Some (due_id row))).
  pose proof (deliver_db env m w) as Hdb.
  pose proof (deliver_success env m w) as Hs.
  unfold provider_accepts. rewrite <- Hs.
  destruct (deliver env m w) as [w1 r]. cbn [fst snd] in *.
  cbn [db set_db]. rewrite Hdb.
  destruct (success r); [|reflexivity].
  intros [Hne|Hst]; [|congruence].
  cbn [brokers set_brokers]. unfold update_broker.
  apply lookup_alter_ne. congruence.
Qed.

Lemma process_batch_brokers env now batch w b :
  (forall r, r ∈ batch -> broker_id (due_campaign r) = b ->
             final_status env r <> sent) ->
  brokers (db (fst (process_batch env now batch w))) !! b
  = brokers (db w) !! b.
Proof.
  revert w. induction batch as [|row rest IH]; intros w Hquiet; [reflexivity|].
  rewrite process_batch_cons, IH.
  - apply process_campaign_brokers.
    destruct (decide (b = broker_id (due_campaign row))) as [->|Hne];
      [right|left; exact Hne].
    apply (Hquiet row); [apply elem_of_cons; left|]; reflexivity.
  - intros r Hr. apply Hquiet. apply elem_of_cons. right. exact Hr.
Qed.

(** The two sweep scenarios of the specification, evaluated. *)
Example sweep_blacklisted_scenario :
  let out := sweep Scenarios.env_live (10 * Scenarios.day)
               Scenarios.w_blacklisted_due in
  (fun c => (status c, error_message c)) <$> outreach_campaigns (db out)
  = [(sent, None); (cancelled, Some "Broker is blacklisted")]
  /\ mails out = []
  /\ brokers (db out) = brokers (db Scenarios.w_blacklisted_due).
Proof. repeat split; vm_compute; reflexivity. Qed.

Example sweep_no_email_scenario :
  let out := sweep Scenarios.env_live (10 * Scenarios.day)
               Scenarios.w_no_email_due in
  (fun c => (status c, error_message c)) <$> outreach_campaigns (db out)
  = [(sent, None); (failed, Some "Broker has no email address")]
  /\ mails out = []
  /\ brokers (db out) !! "b1" = Some Scenarios.no_email_broker.
Proof. repeat split; vm_compute; reflexivity. Qed.

Example sweep_delivers_scenario :
  let out := sweep Scenarios.env_live (4 * Scenarios.day) Scenarios.w_sequence in
  status <$> outreach_campaigns (db out) = [sent; sent; scheduled]
  /\ mails out = [mkMail "ops@acme.test" (Some 2%nat)]
  /\ (total_outreach_attempts <$> brokers (db out) !! "b1") = Some (Some 1)
  /\ (last_contact_date <$> brokers (db out) !! "b1")
     = Some (Some (4 * Scenarios.day)).
Proof. repeat split; vm_compute; reflexivity. Qed.

(** *** Replies *)






Lemma elem_of_cancel_scheduled u bid cs x :
  x ∈ cancel_scheduled u bid cs <->
  exists c, c ∈ cs
    /\ x = if (of_pair u bid c && status_eqb (status c) scheduled)%bool
           then with_status cancelled (Some "Cancelled — broker responded") c
           else c.
Proof.
  unfold cancel_scheduled, of_pair. rewrite list_elem_of_fmap.
  split; intros (c & H1 & H2); exists c; split; assumption.
Qed.

(** What [mark-responded] does to the campaign rows and to the logs. *)
Lemma mark_responded_rows now u bid w :
  bid <> "" ->
  outreach_campaigns (db (fst (mark_responded now u (Some bid) w)))
  = match latest_sent (db w) u bid with
    | Some picked =>
        cancel_scheduled u bid
          (update_campaign (campaign_id picked) (replied_patch now)
             (outreach_campaigns (db w)))
    | None => outreach_campaigns (db w)
    end
  /\ mails (fst (mark_responded now u (Some bid) w)) = mails w.
Proof.
  intros Hbid. unfold mark_responded.
  destruct bid as [|a bid]; [congruence|].
  cbn zeta. cbn [fst set_db db mails].
  split; [|reflexivity].
  destruct (latest_sent (db w) u (String a bid));
    match goal with
    | |- context [broker_of ?d ?u ?b] => destruct (broker_of d u b)
    end; reflexivity.
Qed.



Lemma NoDup_fmap_elem_inj {A B} (f : A -> B) (l : list A) (x y : A) :
  NoDup (f <$> l) -> x ∈ l -> y ∈ l -> f x = f y -> x = y.
Proof.
  induction l as [|a l IH]; intros Hnd Hx Hy Hf; [inversion Hx|].
  cbn in Hnd. apply NoDup_cons in Hnd as [Ha Hnd].
  apply elem_of_cons in Hx as [->|Hx]; apply elem_of_cons in Hy as [->|Hy].
  - reflexivity.
  - exfalso. apply Ha. rewrite Hf. apply list_elem_of_fmap_2. exact Hy.
  - exfalso. apply Ha. rewrite <- Hf. apply list_elem_of_fmap_2. exact Hx.
  - apply IH; assumption.
Qed.

(** Every row after the two updates of [mark-responded] stems from a row
    with the same id and the same pair. *)
Lemma responded_rows_origin now u bid pid cs x :
  x ∈ cancel_scheduled u bid (update_campaign pid (replied_patch now) cs) ->
  exists c0, c0 ∈ cs
    /\ campaign_id x = campaign_id c0
    /\ of_pair u bid x = of_pair u bid c0.
Proof.
  intros (c1 & Hc1 & ->)%elem_of_cancel_scheduled.
  apply elem_of_update_campaign in Hc1 as (c0 & Hc0 & ->).
  exists c0. split; [exact Hc0|].
  destruct (Nat.eqb (campaign_id c0) pid);
    match goal with
    | |- context [if ?b then _ else _] => destruct b
    end; split; reflexivity.
Qed.

Lemma responded_rows_not_scheduled now u bid pid cs x :
  x ∈ cancel_scheduled u bid (update_campaign pid (replied_patch now) cs) ->
  of_pair u bid x = true ->
  status x <> scheduled.
Proof.
  intros (c1 & Hc1 & ->)%elem_of_cancel_scheduled.
  destruct (of_pair u bid c1 && status_eqb (status c1) scheduled)%bool eqn:Hcond.
  - intros _. discriminate.
  - intros Hpair Hst. rewrite Hpair in Hcond. cbn in Hcond.
    rewrite Hst in Hcond. discriminate.
Qed.

End OutreachFacts.

(** * Further properties of the same code *)

(** ** Scores *)

Section ScoreFacts.

Import RelationshipScorer TargetScorer Fields.

Lemma status_is_true s lit : status_is s lit = true <-> s = Some lit.
Proof.
  unfold status_is. destruct s as [v|]; [|split; discriminate].
  rewrite String.eqb_eq. split; congruence.
Qed.

Ltac zify_tests :=
  repeat match goal with
         | |- context [?a >=? ?b] => rewrite (Z.geb_leb a b)
         | |- context [?a >? ?b] => rewrite (Z.gtb_ltb a b)
         end;
  repeat match goal with
         | |- context [?a <=? ?b] => destruct (Z.leb_spec a b)
         | |- context [?a <? ?b] => destruct (Z.ltb_spec a b)
         end.

(** X1: the reliability sub-score is 0 exactly for a blacklisted broker;
    for every other broker it is at least 10. *)
Theorem reliability_zero_iff_blacklisted :
  forall broker,
    (reliabilityScore broker = 0 <-> outreach_status broker = Some "blacklisted")
    /\ (outreach_status broker <> Some "blacklisted" ->
        10 <= reliabilityScore broker).
Proof.
  intros broker.
  assert (Hcases : (outreach_status broker = Some "blacklisted"
                    /\ reliabilityScore broker = 0)
                   \/ (outreach_status broker <> Some "blacklisted"
                       /\ 10 <= reliabilityScore broker)).
  { unfold reliabilityScore, JS.min.
    destruct (status_is (outreach_status broker) "blacklisted") eqn:Hb.
    - left. split; [apply status_is_true; exact Hb|reflexivity].
    - right. split.
      + intros H. apply status_is_true in H. congruence.
      + repeat case_match; lia. }
  destruct Hcases as [[Hb Hz]|[Hb Hz]].
  - split; [split; auto|congruence].
  - split; [split; [lia|congruence]|auto].
Qed.

Lemma reliability_zero_iff_blacklisted_witness :
  10 <= reliabilityScore Scenarios.ca_broker.
Proof.
  apply (reliability_zero_iff_blacklisted Scenarios.ca_broker).
  discriminate.
Defined.

(** X2: with the other columns fixed, a higher credit score never lowers
    the payment sub-score, as long as neither score is the number 0. *)
Theorem paymentScore_monotone_in_credit :
  forall broker c1 c2,
    c1 <> 0 -> c2 <> 0 -> c1 <= c2 ->
    paymentScore (with_credit_score (Some c1) broker)
    <= paymentScore (with_credit_score (Some c2) broker).
Proof.
  intros broker c1 c2 H1 H2 Hle.
  unfold paymentScore, JS.truthy_num, JS.or_zero, JS.min, JS.max.
  cbn [credit_score days_to_pay with_credit_score].
  destruct (Z.eqb_spec c1 0); [contradiction|].
  destruct (Z.eqb_spec c2 0); [contradiction|].
  cbn [negb].
  destruct (days_to_pay broker) as [d|]; [destruct (Z.eqb_spec d 0)|];
    cbn [negb]; zify_tests; lia.
Qed.

Lemma paymentScore_monotone_in_credit_witness :
  paymentScore (with_credit_score (Some 79) Scenarios.ca_broker)
  <= paymentScore (with_credit_score (Some 96) Scenarios.ca_broker).
Proof.
  apply paymentScore_monotone_in_credit; lia.
Defined.

Lemma revenueScore_monotone v n2 broker :
  match v with Some n1 => n1 <= n2 | None => True end ->
  revenueScore (with_total_loads_booked v broker)
  <= revenueScore (with_total_loads_booked (Some n2) broker).
Proof.
  intros Hle. unfold revenueScore, JS.cmp_num.
  cbn [total_loads_booked with_total_loads_booked].
  destruct v as [n1|]; zify_tests; lia.
Qed.

(** X3: with the other columns fixed, more booked loads never lower the
    relationship score; a first booking never lowers it either. *)
Theorem relationship_score_monotone_in_loads :
  forall now broker v n2,
    match v with Some n1 => n1 <= n2 | None => True end ->
    fst (calculateRelationshipScore now (with_total_loads_booked v broker))
    <= fst (calculateRelationshipScore now
              (with_total_loads_booked (Some n2) broker)).
Proof.
  intros now broker v n2 Hle.
  pose proof (revenueScore_monotone v n2 broker Hle) as Hrev.
  unfold calculateRelationshipScore, breakdown, JS.min.
  cbn [fst payment responsiveness revenue reliability].
  change (paymentScore (with_total_loads_booked v broker))
    with (paymentScore broker).
  change (paymentScore (with_total_loads_booked (Some n2) broker))
    with (paymentScore broker).
  change (responseScore now (with_total_loads_booked v broker))
    with (responseScore now broker).
  change (responseScore now (with_total_loads_booked (Some n2) broker))
    with (responseScore now broker).
  change (reliabilityScore (with_total_loads_booked v broker))
    with (reliabilityScore broker).
  change (reliabilityScore (with_total_loads_booked (Some n2) broker))
    with (reliabilityScore broker).
  lia.
Qed.

Lemma relationship_score_monotone_in_loads_witness :
  fst (calculateRelationshipScore 0
         (with_total_loads_booked (Some 1) Scenarios.ca_broker))
  <= fst (calculateRelationshipScore 0
            (with_total_loads_booked (Some 7) Scenarios.ca_broker)).
Proof.
  apply (relationship_score_monotone_in_loads 0 Scenarios.ca_broker (Some 1) 7).
  lia.
Defined.

Lemma raw_score_floor broker carrier carrierState :
  30 <= raw_score broker carrier carrierState.
Proof.
  { unfold raw_score.
    assert (0 <= geo_points broker carrierState)
      by (unfold geo_points; repeat case_match; lia).
    assert (0 <= lane_points broker carrier)
      by (unfold lane_points; repeat case_match; lia).
    assert (0 <= authority_points broker)
      by (unfold authority_points; case_match; lia).
    assert (-15 <= credit_points broker)
      by (unfold credit_points; repeat case_match; lia).
    assert (-5 <= pay_points broker)
      by (unfold pay_points; repeat case_match; lia).
    assert (0 <= new_points broker)
      by (unfold new_points; case_match; lia).
    assert (0 <= booked_points broker).
    { unfold booked_points, JS.cmp_num, JS.or_zero.
      destruct (total_loads_booked broker) as [n|]; [|lia].
      zify_tests; lia. }
    assert (0 <= rate_points broker)
      by (unfold rate_points; case_match; lia).
    lia. }
Qed.

(** X4: the target score is never below 30: the penalties add up to 20 at
    most, so the lower bound 0 of the final clamp is never reached. *)
Theorem scoreBrokerTarget_at_least_30 :
  forall broker carrier carrierState,
    30 <= raw_score broker carrier carrierState
    /\ 30 <= scoreBrokerTarget broker carrier carrierState <= 100.
Proof.
  intros broker carrier carrierState.
  pose proof (raw_score_floor broker carrier carrierState) as Hraw.
  split; [exact Hraw|].
  unfold scoreBrokerTarget, JS.min, JS.max. lia.
Qed.

Lemma upper_ascii_idem c : JS.upper_ascii (JS.upper_ascii c) = JS.upper_ascii c.
Proof.
  destruct c as [[] [] [] [] [] [] [] []]; vm_compute; reflexivity.
Qed.

Lemma toUpperCase_idem s : JS.toUpperCase (JS.toUpperCase s) = JS.toUpperCase s.
Proof.
  induction s as [|c s IH]; cbn [JS.toUpperCase]; [reflexivity|].
  rewrite upper_ascii_idem, IH. reflexivity.
Qed.

(** X5: the target score does not depend on the letter case of the
    broker's state: a broker filed under "nj" scores as one filed under
    "NJ". *)
Theorem scoreBrokerTarget_state_case_insensitive :
  forall broker carrier carrierState st,
    scoreBrokerTarget (with_address_state (Some (JS.toUpperCase st)) broker)
      carrier carrierState
    = scoreBrokerTarget (with_address_state (Some st) broker)
        carrier carrierState.
Proof.
  intros broker carrier carrierState st.
  unfold scoreBrokerTarget, raw_score.
  assert (Hgeo : geo_points (with_address_state (Some (JS.toUpperCase st)) broker)
                   carrierState
                 = geo_points (with_address_state (Some st) broker) carrierState).
  { unfold geo_points, brokerState.
    cbn [address_state with_address_state fmap option_fmap option_map].
    rewrite toUpperCase_idem. reflexivity. }
  rewrite Hgeo. reflexivity.
Qed.

Lemma prefix_refl s : String.prefix s s = true.
Proof.
  induction s as [|c s IH]; cbn; [reflexivity|].
  destruct (ascii_dec c c); [exact IH|contradiction].
Qed.

Lemma includes_refl s : JS.includes s s = true.
Proof. destruct s; cbn [JS.includes]; rewrite prefix_refl; reflexivity. Qed.

(** X6: lane overlap adds between 0 and ten points per carrier lane, and
    at least ten points as soon as the carrier and the broker list one
    lane in common. *)
Theorem lane_points_bounds :
  forall broker carrier,
    0 <= lane_points broker carrier
         <= 10 * Z.of_nat (length (default [] (c_preferred_lanes carrier)))
    /\ (forall l, l ∈ default [] (c_preferred_lanes carrier) ->
                  l ∈ default [] (preferred_lanes broker) ->
                  10 <= lane_points broker carrier).
Proof.
  intros broker carrier. rewrite lane_points_spec. unfold spec_lanes.
  set (keep := fun l : string =>
                 existsb (fun bl => (JS.includes bl l || JS.includes l bl)%bool)
                   (default [] (preferred_lanes broker))).
  split.
  - pose proof (filter_length_le keep (default [] (c_preferred_lanes carrier))).
    lia.
  - intros l Hc Hb.
    assert (Hin : l ∈ List.filter keep (default [] (c_preferred_lanes carrier))).
    { apply elem_of_filter_bool. split; [exact Hc|].
      unfold keep. apply existsb_exists. exists l.
      split; [apply list_elem_of_In; exact Hb|].
      rewrite includes_refl. reflexivity. }
    destruct (List.filter keep (default [] (c_preferred_lanes carrier)));
      [inversion Hin|cbn [length]; lia].
Qed.

Lemma lane_points_bounds_witness :
  10 <= lane_points Scenarios.strong_broker Scenarios.nj_carrier.
Proof.
  apply (proj2 (lane_points_bounds Scenarios.strong_broker Scenarios.nj_carrier)
           "NJ-FL").
  - apply elem_of_cons. left. reflexivity.
  - apply elem_of_cons. left. reflexivity.
Defined.

End ScoreFacts.

(** ** Calling hours *)

Section CallingHoursFacts.

Import ComplianceWindow.

(** X7: the evaluation does not depend on the letter case of the region
    code: "ca" and "CA" (and any code and its upper-case form) get the same
    rule record and the same answer. *)
Theorem canCallNow_case_insensitive :
  forall zones now code,
    getStateRules (JS.toUpperCase code) = getStateRules code
    /\ canCallNow zones now (JS.toUpperCase code) = canCallNow zones now code.
Proof.
  intros zones now code.
  assert (Hrules : getStateRules (JS.toUpperCase code) = getStateRules code).
  { unfold getStateRules. rewrite toUpperCase_idem. reflexivity. }
  split; [exact Hrules|].
  unfold canCallNow. rewrite Hrules. reflexivity.
Qed.

(** X8: every rule record carries the window [8, 21), so whether a call is
    allowed depends on the region only through its time zone: it is allowed
    exactly when the local hour there is at least 8 and below 21, and two
    regions in the same zone get the same verdict and the same local
    time.  A region outside the table is evaluated on New York time. *)
Theorem canCallNow_by_time_zone :
  forall zones now a,
    (allowed (canCallNow zones now a) = true
       <-> (8 <= hours (zones (timezone (getStateRules a)) now) < 21)%nat)
    /\ (forall b, timezone (getStateRules a) = timezone (getStateRules b) ->
          allowed (canCallNow zones now a) = allowed (canCallNow zones now b)
          /\ local_time (canCallNow zones now a)
             = local_time (canCallNow zones now b))
    /\ (STATE_RULES !! JS.toUpperCase a = None ->
          timezone (getStateRules a) = "America/New_York").
Proof.
  intros zones now a.
  assert (Hshape : forall c,
    allowed (canCallNow zones now c)
    = ((8 <=? hours (zones (timezone (getStateRules c)) now))%nat
       && (hours (zones (timezone (getStateRules c)) now) <? 21)%nat)%bool
    /\ local_time (canCallNow zones now c)
       = pad2 (hours (zones (timezone (getStateRules c)) now)) +:+ ":"
         +:+ pad2 (minutes (zones (timezone (getStateRules c)) now))).
  { intros c. destruct (getStateRules_window c) as [Hs He].
    unfold canCallNow. rewrite Hs, He.
    set (h := hours _).
    destruct (Nat.ltb_spec h 8) as [Hlt|Hge].
    - cbn [allowed local_time]. split; [|reflexivity].
      destruct (Nat.leb_spec 8 h); [lia|reflexivity].
    - destruct (Nat.leb_spec 21 h) as [Hle|Hgt]; cbn [allowed local_time];
        (split; [|reflexivity]).
      + destruct (Nat.leb_spec 8 h); [|lia].
        destruct (Nat.ltb_spec h 21); [lia|reflexivity].
      + destruct (Nat.leb_spec 8 h); [|lia].
        destruct (Nat.ltb_spec h 21); [reflexivity|lia]. }
  split; [|split].
  - destruct (Hshape a) as [-> _].
    rewrite andb_true_iff, Nat.leb_le, Nat.ltb_lt. reflexivity.
  - intros b Hzone.
    destruct (Hshape a) as [-> ->]. destruct (Hshape b) as [-> ->].
    rewrite Hzone. split; reflexivity.
  - intros Hnone. unfold getStateRules. rewrite Hnone. reflexivity.
Qed.

Lemma canCallNow_by_time_zone_witness :
  allowed (canCallNow (Scenarios.clock_at 9 0) 0 "NY")
  = allowed (canCallNow (Scenarios.clock_at 9 0) 0 "zz")
  /\ timezone (getStateRules "zz") = "America/New_York".
Proof.
  destruct (canCallNow_by_time_zone (Scenarios.clock_at 9 0) 0 "NY")
    as (_ & Hsame & _).
  destruct (canCallNow_by_time_zone (Scenarios.clock_at 9 0) 0 "zz")
    as (_ & _ & Hdefault).
  split.
  - apply (Hsame "zz"). vm_compute. reflexivity.
  - apply Hdefault. vm_compute. reflexivity.
Defined.

End CallingHoursFacts.

(** ** The follow-up sweep as a whole *)

Section SweepFacts.

Import TargetScorer Outreach Desk.

(** The result of [sort_by] is in order, for an order that is total and
    transitive on the rows at hand. *)
Lemma insert_by_sorted {A} (le : A -> A -> bool) (P : A -> Prop) x l :
  (forall a b, P a -> P b -> le a b = true \/ le b a = true) ->
  (forall a b c, P a -> P b -> P c ->
                 le a b = true -> le b c = true -> le a c = true) ->
  P x -> Forall P l ->
  StronglySorted (fun a b => le a b = true) l ->
  StronglySorted (fun a b => le a b = true) (insert_by le x l).
Proof.
  intros Htotal Htrans Hx HP Hsorted.
  induction l as [|y l IH]; cbn [insert_by].
  - constructor; constructor.
  - apply Forall_cons in HP as [Hy HP].
    apply StronglySorted_inv in Hsorted as [Hsl Hyl].
    destruct (le x y) eqn:Hxy.
    + constructor; [constructor; assumption|].
      constructor; [exact Hxy|].
      rewrite List.Forall_forall in Hyl. rewrite Forall_forall in HP.
      apply List.Forall_forall. intros z Hz.
      apply (Htrans x y z); auto.
      apply HP, list_elem_of_In, Hz.
    + constructor; [apply IH; assumption|].
      rewrite List.Forall_forall. intros z Hz.
      apply list_elem_of_In in Hz. rewrite insert_by_perm in Hz.
      apply elem_of_cons in Hz as [->|Hz].
      * destruct (Htotal x y Hx Hy); congruence.
      * rewrite List.Forall_forall in Hyl. apply Hyl, list_elem_of_In, Hz.
Qed.

Lemma sort_by_sorted {A} (le : A -> A -> bool) (P : A -> Prop) l :
  (forall a b, P a -> P b -> le a b = true \/ le b a = true) ->
  (forall a b c, P a -> P b -> P c ->
                 le a b = true -> le b c = true -> le a c = true) ->
  Forall P l ->
  StronglySorted (fun a b => le a b = true) (sort_by le l).
Proof.
  intros Htotal Htrans HP.
  induction l as [|x l IH]; cbn [sort_by]; [constructor|].
  apply Forall_cons in HP as [Hx HP].
  eapply insert_by_sorted; eauto.
  rewrite sort_by_perm. exact HP.
Qed.

Lemma sorted_app_le {A} (R : A -> A -> Prop) l1 l2 a b :
  StronglySorted R (l1 ++ l2) -> a ∈ l1 -> b ∈ l2 -> R a b.
Proof.
  induction l1 as [|x l1 IH]; intros Hs Ha Hb; [inversion Ha|].
  cbn in Hs. apply StronglySorted_inv in Hs as [Hs Hx].
  apply elem_of_cons in Ha as [->|Ha]; [|apply IH; assumption].
  rewrite List.Forall_forall in Hx. apply Hx, list_elem_of_In.
  apply elem_of_app. right. exact Hb.
Qed.

Lemma due_rows_sorted now cs :
  StronglySorted (fun a b => earlier a b = true)
    (sort_by earlier (List.filter (is_due now) cs)).
Proof.
  apply (sort_by_sorted earlier (fun c => is_Some (scheduled_at c))).
  - intros a b [x Ha] [y Hb]. unfold earlier. rewrite Ha, Hb.
    destruct (Z.leb_spec x y); [left; reflexivity|right].
    apply Z.leb_le. lia.
  - intros a b c [x Ha] [y Hb] [z Hc]. unfold earlier.
    rewrite Ha, Hb, Hc, !Z.leb_le. lia.
  - apply Forall_forall. intros c Hc.
    apply elem_of_filter_bool in Hc as [_ Hdue].
    unfold is_due in Hdue. apply andb_true_iff in Hdue as [_ Hat].
    destruct (scheduled_at c); [eexists; reflexivity|discriminate].
Qed.

(** X9: a sweep fetches at most 100 rows, every one of them scheduled and
    due, oldest first; and a due row it leaves out is left out because the
    batch is full, with no fetched row scheduled later than it. *)
Theorem fetch_due_oldest_hundred :
  forall now d,
    let batch := fetch_due now d in
    (length batch <= 100)%nat
    /\ (forall r, r ∈ batch ->
          due_campaign r ∈ outreach_campaigns d
          /\ status (due_campaign r) = scheduled
          /\ exists t, scheduled_at (due_campaign r) = Some t /\ t <= now)
    /\ StronglySorted (fun a b => earlier a b = true) (due_campaign <$> batch)
    /\ (forall c, c ∈ outreach_campaigns d -> is_due now c = true ->
          c ∈ due_campaign <$> batch
          \/ (length batch = 100%nat
              /\ forall r, r ∈ batch -> earlier (due_campaign r) c = true)).
Proof.
  intros now d batch. subst batch. unfold fetch_due.
  set (sorted := sort_by earlier (List.filter (is_due now) (outreach_campaigns d))).
  assert (Hmap : due_campaign <$>
                   ((fun c => mkDue c (brokers d !! broker_id c)) <$> take 100 sorted)
                 = take 100 sorted).
  { rewrite <- list_fmap_compose. apply list_fmap_id. }
  assert (Hsorted : StronglySorted (fun a b => earlier a b = true) sorted)
    by apply due_rows_sorted.
  split; [rewrite length_fmap, length_take; lia|].
  split.
  { intros r Hr.
    apply list_elem_of_fmap in Hr as (c & -> & Hc). cbn [due_campaign].
    apply (fun H => elem_of_sublist _ _ _ H (sublist_take _ 100)) in Hc.
    subst sorted. rewrite sort_by_perm in Hc.
    apply elem_of_filter_bool in Hc as [Hin Hdue].
    unfold is_due in Hdue. apply andb_true_iff in Hdue as [Hst Hat].
    split; [exact Hin|]. split; [apply status_eqb_eq; exact Hst|].
    destruct (scheduled_at c) as [t|]; [|discriminate].
    exists t. split; [reflexivity|]. apply Z.leb_le. exact Hat. }
  split.
  { rewrite Hmap. rewrite <- (take_drop 100 sorted) in Hsorted.
    clear -Hsorted. revert Hsorted.
    generalize (take 100 sorted) as l1. generalize (drop 100 sorted) as l2.
    intros l2 l1. induction l1 as [|x l1 IH]; intros Hs; [constructor|].
    cbn in Hs. apply StronglySorted_inv in Hs as [Hs Hx].
    constructor; [apply IH; exact Hs|].
    rewrite List.Forall_forall in *. intros z Hz. apply Hx.
    apply in_or_app. left. exact Hz. }
  intros c Hc Hdue. rewrite Hmap.
  assert (Hin : c ∈ sorted).
  { subst sorted. rewrite sort_by_perm. apply elem_of_filter_bool. auto. }
  rewrite <- (take_drop 100 sorted) in Hin.
  apply elem_of_app in Hin as [Hin|Hin]; [left; exact Hin|right].
  assert (Hlen : (100 <= length sorted)%nat).
  { destruct (Nat.le_gt_cases 100 (length sorted)) as [H|H]; [exact H|].
    rewrite drop_ge in Hin by lia. inversion Hin. }
  split; [rewrite length_fmap, length_take; lia|].
  intros r Hr. apply list_elem_of_fmap in Hr as (x & -> & Hx).
  cbn [due_campaign].
  rewrite <- (take_drop 100 sorted) in Hsorted.
  exact (sorted_app_le _ _ _ _ _ Hsorted Hx Hin).
Qed.

Lemma filter_bool_nil {A} (p : A -> bool) (l : list A) :
  (forall x, x ∈ l -> p x = false) -> List.filter p l = [].
Proof.
  induction l as [|x l IH]; intros H; cbn; [reflexivity|].
  rewrite (H x) by (apply elem_of_cons; left; reflexivity).
  apply IH. intros y Hy. apply H. apply elem_of_cons. right. exact Hy.
Qed.

(** X10: when at most 100 rows are due, a sweep leaves nothing due at the
    same instant: running it again right away, under any environment,
    changes nothing and sends nothing. *)
Theorem sweep_settles_the_instant :
  forall env env' now w,
    (length (List.filter (is_due now) (outreach_campaigns (db w))) <= 100)%nat ->
    fetch_due now (db (sweep env now w)) = []
    /\ sweep env' now (sweep env now w) = sweep env now w.
Proof.
  intros env env' now w Hfew.
  assert (Hnone : fetch_due now (db (sweep env now w)) = []).
  { unfold fetch_due at 1.
    rewrite (filter_bool_nil (is_due now)); [reflexivity|].
    intros x Hx. destruct (is_due now x) eqn:Hdue; [exfalso|reflexivity].
    assert (Hst : status x = scheduled).
    { unfold is_due in Hdue. apply andb_true_iff in Hdue as [Hst _].
      apply status_eqb_eq. exact Hst. }
    rewrite sweep_unfold in Hx.
    destruct (process_batch_rows_kept _ _ _ _ _ Hx) as [Hw|Hclosed];
      [|contradiction].
    eapply process_batch_rows_closed; [exact Hx| |exact Hst].
    unfold fetch_due. rewrite <- list_fmap_compose.
    change (due_id ∘ _) with campaign_id.
    apply list_elem_of_fmap_2.
    rewrite take_ge by (rewrite sort_by_perm; exact Hfew).
    rewrite sort_by_perm. apply elem_of_filter_bool. auto. }
  split; [exact Hnone|].
  unfold sweep at 1, follow_up_check. rewrite Hnone. reflexivity.
Qed.

Lemma sweep_settles_the_instant_witness :
  (length (List.filter (is_due (10 * Scenarios.day))
             (outreach_campaigns (db Scenarios.w_sequence))) <= 100)%nat
  /\ sweep Scenarios.env_bounce (10 * Scenarios.day)
       (sweep Scenarios.env_live (10 * Scenarios.day) Scenarios.w_sequence)
     = sweep Scenarios.env_live (10 * Scenarios.day) Scenarios.w_sequence.
Proof.
  assert (H : (length (List.filter (is_due (10 * Scenarios.day))
                 (outreach_campaigns (db Scenarios.w_sequence))) <= 100)%nat)
    by (vm_compute; lia).
  split; [exact H|].
  exact (proj2 (sweep_settles_the_instant Scenarios.env_live
                  Scenarios.env_bounce (10 * Scenarios.day)
                  Scenarios.w_sequence H)).
Defined.

Lemma same_but_contact_refl b : same_but_contact b b.
Proof. unfold same_but_contact. repeat split; reflexivity. Qed.

Lemma same_but_contact_trans a b c :
  same_but_contact a b -> same_but_contact b c -> same_but_contact a c.
Proof. unfold same_but_contact. intuition congruence. Qed.

Lemma touched_same_but_contact a now b :
  same_but_contact b (touched_patch a now b).
Proof. unfold same_but_contact. repeat split; reflexivity. Qed.

(** A fetched row passes the precedence exactly when its joined broker is
    [contactable]. *)
Lemma precedence_contactable row :
  precedence row = None <-> contactable (due_broker row) = true.
Proof.
  unfold precedence, contactable.
  destruct (due_broker row) as [broker|]; cbn [mbind option_bind];
    [|cbn; split; discriminate].
  destruct (JS.truthy_str (email broker)); cbn [negb andb];
    [|split; discriminate].
  destruct (status_is (outreach_status broker) "responded"
            || status_is (outreach_status broker) "active")%bool;
    cbn [negb andb]; [split; discriminate|].
  destruct (status_is (outreach_status broker) "blacklisted"); cbn [negb];
    split; congruence.
Qed.

Lemma final_status_sent env row :
  status_eqb (final_status env row) sent
  = (contactable (due_broker row) && provider_accepts env (due_mail row))%bool.
Proof.
  unfold final_status.
  destruct (contactable (due_broker row)) eqn:Hc.
  - apply precedence_contactable in Hc. rewrite Hc. cbn [andb].
    destruct (provider_accepts env (due_mail row)); reflexivity.
  - destruct (precedence row) as [v|] eqn:Hp.
    + unfold precedence in Hp. repeat case_match; simplify_eq; reflexivity.
    + apply precedence_contactable in Hp. congruence.
Qed.

(** What the loop body does to the tables other than [outreach_campaigns],
    to the logs, and what it answers. *)
Lemma process_campaign_tables env now w row :
  let out := fst (process_campaign env now w row) in
  let bid := broker_id (due_campaign row) in
  carrier_profiles (db out) = carrier_profiles (db w)
  /\ email_templates (db out) = email_templates (db w)
  /\ calls out = calls w
  /\ mails out
     = mails w ++ (if (sendgrid_ready env && contactable (due_broker row))%bool
                   then [due_mail row] else [])
  /\ brokers (db out)
     = (if status_eqb (final_status env row) sent
        then alter
               (touched_patch
                  (brokers (db w) !! bid ≫= total_outreach_attempts) now)
               bid (brokers (db w))
        else brokers (db w))
  /\ o_status (snd (process_campaign env now w row))
     = if contactable (due_broker row)
       then (if provider_accepts env (due_mail row) then "sent" else "failed")
       else if JS.truthy_str (due_broker row ≫= email)
            then "cancelled" else "skipped".
Proof.
  cbn zeta. rewrite final_status_sent.
  unfold process_campaign, contactable, due_mail.
  fold (due_id row).
  destruct (due_broker row) as [broker|]; cbn [mbind option_bind].
  2:{ cbn [fst snd close_step set_db set_campaigns db mails calls
           carrier_profiles email_templates brokers o_status andb
           JS.truthy_str].
      rewrite andb_false_r, app_nil_r. repeat split; reflexivity. }
  destruct (JS.truthy_str (email broker)) eqn:Hmail; cbn [negb andb].
  2:{ cbn [fst snd close_step set_db set_campaigns db mails calls
           carrier_profiles email_templates brokers o_status].
      rewrite andb_false_r, app_nil_r. repeat split; reflexivity. }
  destruct (status_is (outreach_status broker) "responded"
            || status_is (outreach_status broker) "active")%bool;
    cbn [negb andb].
  { cbn [fst snd close_step set_db set_campaigns db mails calls
         carrier_profiles email_templates brokers o_status].
    rewrite andb_false_r, app_nil_r. repeat split; reflexivity. }
  destruct (status_is (outreach_status broker) "blacklisted"); cbn [negb].
  { cbn [fst snd close_step set_db set_campaigns db mails calls
         carrier_profiles email_templates brokers o_status].
    rewrite andb_false_r, app_nil_r. repeat split; reflexivity. }
  rewrite andb_true_r.
  set (m := mkMail (default "" (email broker)) (Some (due_id row))).
  pose proof (deliver_db env m w) as Hdb.
  pose proof (deliver_mails env m w) as Hm.
  pose proof (deliver_calls env m w) as Hcalls.
  pose proof (deliver_success env m w) as Hs.
  unfold provider_accepts. rewrite <- Hs.
  destruct (deliver env m w) as [w1 r]. cbn [fst snd] in *.
  cbn [db set_db mails calls o_status]. rewrite Hdb.
  destruct (success r);
    cbn [carrier_profiles email_templates brokers set_brokers set_campaigns];
    repeat split; assumption || reflexivity.
Qed.

Lemma process_batch_results env now row rest w :
  snd (process_batch env now (row :: rest) w)
  = snd (process_campaign env now w row)
    :: snd (process_batch env now rest (fst (process_campaign env now w row))).
Proof.
  cbn [process_batch].
  destruct (process_campaign env now w row) as [w1 o]. cbn [fst snd].
  destruct (process_batch env now rest w1) as [w2 os]. reflexivity.
Qed.

Lemma process_batch_tables env now batch w :
  let out := fst (process_batch env now batch w) in
  carrier_profiles (db out) = carrier_profiles (db w)
  /\ email_templates (db out) = email_templates (db w)
  /\ calls out = calls w
  /\ mails out
     = mails w ++ (if sendgrid_ready env
                   then due_mail <$>
                          List.filter (fun r => contactable (due_broker r)) batch
                   else []).
Proof.
  cbn zeta. revert w. induction batch as [|row rest IH]; intros w.
  - cbn. destruct (sendgrid_ready env); rewrite app_nil_r;
      repeat split; reflexivity.
  - rewrite process_batch_cons.
    destruct (IH (fst (process_campaign env now w row))) as (H1 & H2 & H3 & H4).
    destruct (process_campaign_tables env now w row)
      as (G1 & G2 & G3 & G4 & _).
    rewrite H1, H2, H3, H4, G1, G2, G3, G4.
    repeat split; try reflexivity.
    cbn [List.filter].
    destruct (sendgrid_ready env), (contactable (due_broker row));
      cbn [andb fmap list_fmap]; rewrite <- ?app_assoc, ?app_nil_r;
      reflexivity.
Qed.

Lemma process_batch_absent env now batch w k :
  brokers (db w) !! k = None ->
  brokers (db (fst (process_batch env now batch w))) !! k = None.
Proof.
  revert w. induction batch as [|row rest IH]; intros w Hk; [exact Hk|].
  rewrite process_batch_cons. apply IH.
  destruct (process_campaign_tables env now w row) as (_ & _ & _ & _ & Ht & _).
  rewrite Ht. destruct (status_eqb (final_status env row) sent); [|exact Hk].
  apply lookup_alter_None. exact Hk.
Qed.

Lemma sent_to_cons env bid row rest :
  sent_to env bid (row :: rest)
  = if (String.eqb (broker_id (due_campaign row)) bid
        && status_eqb (final_status env row) sent)%bool
    then S (sent_to env bid rest) else sent_to env bid rest.
Proof.
  unfold sent_to. cbn [List.filter].
  destruct (String.eqb (broker_id (due_campaign row)) bid
            && status_eqb (final_status env row) sent)%bool; reflexivity.
Qed.

(** The loop raises a broker's attempt counter once per row of that broker
    that ends as [sent], and writes nothing else but the contact date. *)
Lemma process_batch_attempts env now batch :
  forall w bid b,
    brokers (db w) !! bid = Some b ->
    exists b',
      brokers (db (fst (process_batch env now batch w))) !! bid = Some b'
      /\ same_but_contact b b'
      /\ (sent_to env bid batch = 0%nat -> b' = b)
      /\ ((0 < sent_to env bid batch)%nat ->
          total_outreach_attempts b'
          = Some (JS.or_zero (total_outreach_attempts b)
                  + Z.of_nat (sent_to env bid batch))
          /\ last_contact_date b' = Some now).
Proof.
  induction batch as [|row rest IH]; intros w bid b Hb.
  - exists b. split; [exact Hb|]. split; [apply same_but_contact_refl|].
    split; [reflexivity|]. unfold sent_to. cbn. lia.
  - rewrite process_batch_cons, sent_to_cons.
    destruct (String.eqb (broker_id (due_campaign row)) bid
              && status_eqb (final_status env row) sent)%bool eqn:Hcond.
    + apply andb_true_iff in Hcond as [Hbid Hst].
      apply String.eqb_eq in Hbid.
      set (b1 := touched_patch (total_outreach_attempts b) now b).
      assert (Hb1 : brokers (db (fst (process_campaign env now w row))) !! bid
                    = Some b1).
      { destruct (process_campaign_tables env now w row)
          as (_ & _ & _ & _ & Ht & _).
        rewrite Ht, Hst, Hbid, lookup_alter_eq, Hb. reflexivity. }
      destruct (IH _ bid b1 Hb1) as (b' & Hb' & Hsame & Hzero & Hpos).
      exists b'. split; [exact Hb'|].
      split.
      { eapply same_but_contact_trans; [|exact Hsame].
        apply touched_same_but_contact. }
      split; [discriminate|]. intros _.
      destruct (sent_to env bid rest) as [|n] eqn:Hn.
      * rewrite (Hzero eq_refl). subst b1.
        cbn [total_outreach_attempts last_contact_date touched_patch].
        split; reflexivity.
      * destruct Hpos as [Ha Hl]; [lia|]. rewrite Ha. subst b1.
        cbn [total_outreach_attempts touched_patch JS.or_zero].
        split; [f_equal; lia|exact Hl].
    + apply IH. rewrite process_campaign_brokers; [exact Hb|].
      apply andb_false_iff in Hcond as [Hne|Hst].
      * left. apply String.eqb_neq in Hne. congruence.
      * right. intros Heq. rewrite Heq in Hst. discriminate.
Qed.

(** Rows whose id was not fetched stay in the store as they are. *)
Lemma process_batch_keeps env now batch w c :
  c ∈ outreach_campaigns (db w) ->
  campaign_id c ∉ due_id <$> batch ->
  c ∈ outreach_campaigns (db (fst (process_batch env now batch w))).
Proof.
  revert w. induction batch as [|row rest IH]; intros w Hc Hout; [exact Hc|].
  rewrite process_batch_cons.
  cbn in Hout. apply not_elem_of_cons in Hout as [Hne Hrest].
  apply IH; [|exact Hrest].
  destruct (process_campaign_shape env now w row) as (patch & Hcs & _).
  rewrite Hcs. apply elem_of_update_campaign. exists c.
  split; [exact Hc|].
  destruct (Nat.eqb_spec (campaign_id c) (due_id row)); [contradiction|].
  reflexivity.
Qed.

(** X11: what a sweep leaves alone.  It adds and removes no campaign row
    and keeps their ids in order; it does not touch the carrier profiles,
    the templates or the call log; it adds and removes no broker, and
    changes at most the last contact date and the attempt counter of one;
    a row that was not fetched stays as it is, and in a store with distinct
    ids that is every row that is not due. *)
Theorem sweep_frame :
  forall env now w,
    let out := sweep env now w in
    campaign_ids out = campaign_ids w
    /\ carrier_profiles (db out) = carrier_profiles (db w)
    /\ email_templates (db out) = email_templates (db w)
    /\ calls out = calls w
    /\ (forall k, brokers (db out) !! k = None <-> brokers (db w) !! k = None)
    /\ (forall k b b', brokers (db w) !! k = Some b ->
                       brokers (db out) !! k = Some b' ->
                       same_but_contact b b')
    /\ (forall c, c ∈ outreach_campaigns (db w) ->
                  campaign_id c ∉ due_id <$> fetch_due now (db w) ->
                  c ∈ outreach_campaigns (db out))
    /\ (NoDup (campaign_ids w) ->
        forall c, c ∈ outreach_campaigns (db w) -> is_due now c = false ->
                  c ∈ outreach_campaigns (db out)).
Proof.
  intros env now w out. subst out. rewrite sweep_unfold.
  set (batch := fetch_due now (db w)).
  destruct (process_batch_tables env now batch w) as (H1 & H2 & H3 & _).
  split; [apply process_batch_ids|].
  split; [exact H1|]. split; [exact H2|]. split; [exact H3|].
  split.
  { intros k. split; [|apply process_batch_absent].
    intros Hout. destruct (brokers (db w) !! k) as [b|] eqn:Hk; [|reflexivity].
    destruct (process_batch_attempts env now batch w k b Hk) as (b' & Hb' & _).
    congruence. }
  split.
  { intros k b b' Hk Hout.
    destruct (process_batch_attempts env now batch w k b Hk)
      as (b'' & Hb' & Hsame & _).
    congruence. }
  split; [intros c; apply process_batch_keeps|].
  intros Hnd c Hc Hnot. apply process_batch_keeps; [exact Hc|].
  intros Hid. apply list_elem_of_fmap in Hid as (r & Hid & Hr).
  apply fetch_due_sources in Hr as (Hin & _ & Hdue & _).
  assert (due_campaign r = c) as Heq.
  { eapply (NoDup_fmap_elem_inj campaign_id); [exact Hnd| | |];
      [exact Hin|exact Hc|]. symmetry. exact Hid. }
  congruence.
Qed.

(** X12: a sweep raises a broker's attempt counter by exactly the number
    of that broker's fetched rows that end as [sent], reading [null] as
    zero, and then stamps the sweep's clock reading as the last contact;
    a broker with no such row keeps its record. *)
Theorem sweep_counts_attempts :
  forall env now w bid b,
    brokers (db w) !! bid = Some b ->
    let n := sent_to env bid (fetch_due now (db w)) in
    exists b',
      brokers (db (sweep env now w)) !! bid = Some b'
      /\ (n = 0%nat -> b' = b)
      /\ ((0 < n)%nat ->
          total_outreach_attempts b'
          = Some (JS.or_zero (total_outreach_attempts b) + Z.of_nat n)
          /\ last_contact_date b' = Some now).
Proof.
  intros env now w bid b Hb n. subst n. rewrite sweep_unfold.
  destruct (process_batch_attempts env now (fetch_due now (db w)) w bid b Hb)
    as (b' & Hb' & _ & Hzero & Hpos).
  exists b'. repeat split; auto; apply Hpos; assumption.
Qed.

Lemma sweep_counts_attempts_witness :
  exists b',
    brokers (db (sweep Scenarios.env_live (10 * Scenarios.day)
                   Scenarios.w_sequence)) !! "b1" = Some b'
    /\ total_outreach_attempts b' = Some 2
    /\ last_contact_date b' = Some (10 * Scenarios.day).
Proof.
  destruct (sweep_counts_attempts Scenarios.env_live (10 * Scenarios.day)
              Scenarios.w_sequence "b1" Scenarios.ca_broker eq_refl)
    as (b' & Hb' & _ & Hpos).
  exists b'. split; [exact Hb'|]. apply Hpos. vm_compute. lia.
Defined.

(** The counters of the answer, row by row. *)
Lemma process_batch_counts env now batch w :
  let results := snd (process_batch env now batch w) in
  count_where (fun r => String.eqb (o_status r) "sent") results
  = length (List.filter
              (fun r => (contactable (due_broker r)
                         && provider_accepts env (due_mail r))%bool) batch)
  /\ count_where (fun r => String.eqb (o_status r) "failed") results
     = length (List.filter
                 (fun r => (contactable (due_broker r)
                            && negb (provider_accepts env (due_mail r)))%bool)
                 batch)
  /\ count_where
       (fun r => (String.eqb (o_status r) "skipped"
                  || String.eqb (o_status r) "cancelled")%bool) results
     = length (List.filter (fun r => negb (contactable (due_broker r))) batch)
  /\ (count_where (fun r => String.eqb (o_status r) "sent") results
      + count_where (fun r => String.eqb (o_status r) "failed") results
      + count_where
          (fun r => (String.eqb (o_status r) "skipped"
                     || String.eqb (o_status r) "cancelled")%bool) results
      = length batch)%nat.
Proof.
  cbn zeta. revert w. induction batch as [|row rest IH]; intros w.
  - cbn. repeat split; reflexivity.
  - rewrite process_batch_results.
    destruct (IH (fst (process_campaign env now w row))) as (I1 & I2 & I3 & I4).
    destruct (process_campaign_tables env now w row)
      as (_ & _ & _ & _ & _ & Ho).
    unfold count_where in *. cbn [List.filter]. rewrite Ho.
    destruct (contactable (due_broker row));
      [destruct (provider_accepts env (due_mail row))
      |destruct (JS.truthy_str (due_broker row ≫= email))];
      cbn [andb negb orb String.eqb Ascii.eqb Bool.eqb length];
      rewrite ?I1, ?I2, ?I3; repeat split; try reflexivity;
      rewrite <- I4, ?I1, ?I2, ?I3; lia.
Qed.

(** X13: the counters a sweep answers with.  [processed] is the size of
    the fetched batch, at most 100; [sent], [failed] and [skipped] add up to
    it; [sent] counts the rows that end as [sent], [failed] the rows the
    provider refused, and [skipped] the rows closed before any send, the
    cancelled ones included. *)
Theorem sweep_summary_adds_up :
  forall env now w,
    let batch := fetch_due now (db w) in
    let s := sweep_summary env now w in
    processed s = length batch
    /\ (processed s <= 100)%nat
    /\ (n_sent s + n_failed s + n_skipped s = processed s)%nat
    /\ n_sent s
       = length (List.filter
                   (fun r => status_eqb (final_status env r) sent) batch)
    /\ n_failed s
       = length (List.filter
                   (fun r => (contactable (due_broker r)
                              && negb (provider_accepts env (due_mail r)))%bool)
                   batch)
    /\ n_skipped s
       = length (List.filter (fun r => negb (contactable (due_broker r))) batch).
Proof.
  intros env now w batch s. subst s. unfold sweep_summary, summarize.
  fold batch. cbn [processed n_sent n_failed n_skipped].
  destruct (process_batch_counts env now batch w) as (H1 & H2 & H3 & H4).
  split; [reflexivity|].
  split.
  { subst batch. unfold fetch_due. rewrite length_fmap, length_take. lia. }
  split; [exact H4|].
  split; [|split; assumption].
  rewrite H1. f_equal. apply filter_ext. intros r.
  symmetry. apply final_status_sent.
Qed.

(** X14: the mail a sweep sends.  With provider credentials it sends one
    message per fetched row whose broker, as joined when the sweep starts,
    has an email address and is not responded, active or blacklisted, in
    batch order, to that address and naming that row; without credentials
    it sends none. *)
Theorem sweep_mails :
  forall env now w,
    let batch := fetch_due now (db w) in
    mails (sweep env now w)
    = mails w ++ (if sendgrid_ready env
                  then due_mail <$>
                         List.filter (fun r => contactable (due_broker r)) batch
                  else [])
    /\ forall r, r ∈ batch -> contactable (due_broker r) = true ->
         exists b addr,
           brokers (db w) !! broker_id (due_campaign r) = Some b
           /\ email b = Some addr /\ addr <> ""
           /\ due_mail r = mkMail addr (Some (campaign_id (due_campaign r)))
           /\ status_is (outreach_status b) "responded" = false
           /\ status_is (outreach_status b) "active" = false
           /\ status_is (outreach_status b) "blacklisted" = false.
Proof.
  intros env now w batch. rewrite sweep_unfold. fold batch.
  split; [apply process_batch_tables|].
  intros r Hr Hc. subst batch.
  apply fetch_due_sources in Hr as (_ & _ & _ & Hjoin).
  unfold due_mail, due_id. unfold contactable in Hc. rewrite Hjoin in *.
  destruct (brokers (db w) !! broker_id (due_campaign r)) as [b|];
    [|discriminate].
  apply andb_true_iff in Hc as [Hc Hbl].
  apply andb_true_iff in Hc as [Hmail Hst].
  apply negb_true_iff in Hbl. apply negb_true_iff in Hst.
  apply orb_false_iff in Hst as [Hresp Hact].
  cbn [mbind option_bind].
  destruct (email b) as [addr|] eqn:Haddr; [|discriminate].
  exists b, addr.
  split; [reflexivity|]. split; [exact Haddr|].
  split; [intros ->; discriminate|].
  split; [reflexivity|]. split; [exact Hresp|]. split; assumption.
Qed.

End SweepFacts.

(** ** Requests one after the other *)

Section ComposedFacts.

Import TargetScorer Outreach Desk.

(** A sweep does not change whether a broker is [contactable]. *)
Lemma sweep_contactable env now w k :
  contactable (brokers (db (sweep env now w)) !! k)
  = contactable (brokers (db w) !! k).
Proof.
  rewrite sweep_unfold.
  destruct (brokers (db w) !! k) as [b|] eqn:Hk.
  - destruct (process_batch_attempts env now (fetch_due now (db w)) w k b Hk)
      as (b' & Hb' & Hsame & _).
    rewrite Hb'.
    destruct Hsame as (_ & _ & _ & He & _ & _ & _ & _ & _ & Hs & _).
    unfold contactable. rewrite He, Hs. reflexivity.
  - rewrite (process_batch_absent env now _ w k Hk). reflexivity.
Qed.

(** While a broker is not [contactable], sweeps send only mail that
    belongs to scheduled steps of other brokers. *)
Lemma sweeps_skip_uncontactable runs w bid m :
  contactable (brokers (db w) !! bid) = false ->
  m ∈ mails (sweeps runs w) ->
  m ∈ mails w
  \/ exists c, c ∈ outreach_campaigns (db w)
       /\ mail_step m = Some (campaign_id c)
       /\ broker_id c <> bid /\ status c = scheduled.
Proof.
  unfold sweeps. revert w.
  induction runs as [|[env now] runs IH]; intros w Hquiet Hm; [left; exact Hm|].
  cbn [fold_left fst snd] in Hm.
  assert (Hq1 : contactable (brokers (db (sweep env now w)) !! bid) = false)
    by (rewrite sweep_contactable; exact Hquiet).
  destruct (IH _ Hq1 Hm) as [Hold|(c & Hc & Hstep & Hne & Hst)].
  - rewrite sweep_unfold in Hold.
    destruct (process_batch_tables env now (fetch_due now (db w)) w)
      as (_ & _ & _ & Hmails).
    rewrite Hmails in Hold.
    apply elem_of_app in Hold as [Hold|Hnew]; [left; exact Hold|right].
    destruct (sendgrid_ready env); [|inversion Hnew].
    apply list_elem_of_fmap in Hnew as (r & -> & Hr).
    apply elem_of_filter_bool in Hr as [Hr Hc].
    apply fetch_due_sources in Hr as (Hin & Hst & _ & Hjoin).
    exists (due_campaign r).
    split; [exact Hin|]. split; [reflexivity|]. split; [|exact Hst].
    intros Heq. rewrite Hjoin, Heq, Hquiet in Hc. discriminate.
  - right. rewrite sweep_unfold in Hc.
    destruct (process_batch_rows_kept _ _ _ _ _ Hc) as [Hw|Hclosed];
      [|congruence].
    exists c. repeat split; assumption.
Qed.

Lemma mark_responded_broker now u bid w b :
  bid <> "" ->
  broker_of (db w) u bid = Some b ->
  brokers (db (fst (mark_responded now u (Some bid) w))) !! bid
  = Some (responded_patch b now b).
Proof.
  intros Hbid Hb. unfold mark_responded.
  destruct bid as [|a bid]; [congruence|].
  cbn zeta. cbn [fst set_db db].
  assert (Hsame : forall d1, brokers d1 = brokers (db w) ->
                    broker_of d1 u (String a bid) = Some b).
  { intros d1 Hd1. unfold broker_of in *. rewrite Hd1. exact Hb. }
  assert (Hlook : brokers (db w) !! String a bid = Some b).
  { unfold broker_of in Hb.
    destruct (brokers (db w) !! String a bid) as [b0|]; [|discriminate].
    destruct (String.eqb (b_carrier_id b0) u); congruence. }
  destruct (latest_sent (db w) u (String a bid)).
  - rewrite Hsame by reflexivity. cbn [brokers set_brokers set_campaigns].
    unfold update_broker. rewrite lookup_alter_eq, Hlook. reflexivity.
  - rewrite Hb. cbn [brokers set_brokers].
    unfold update_broker. rewrite lookup_alter_eq, Hlook. reflexivity.
Qed.

(** X15: once a broker of the carrier is marked responded, no sequence
    of sweeps sends that broker anything, whether or not the request found
    a step to mark and follow-ups to cancel: every later message belongs to
    a step of another broker. *)
Theorem mark_responded_silences_sweeps :
  forall now u bid w b,
    bid <> "" ->
    broker_of (db w) u bid = Some b ->
    let out := fst (mark_responded now u (Some bid) w) in
    (brokers (db out) !! bid ≫= outreach_status) = Some "responded"
    /\ (forall runs m, m ∈ mails (sweeps runs out) ->
          m ∈ mails w
          \/ exists c, c ∈ outreach_campaigns (db out)
               /\ mail_step m = Some (campaign_id c)
               /\ broker_id c <> bid)
    /\ (forall runs c m,
          NoDup (campaign_ids out) ->
          c ∈ outreach_campaigns (db out) -> broker_id c = bid ->
          m ∈ mails (sweeps runs out) ->
          mail_step m = Some (campaign_id c) -> m ∈ mails w).
Proof.
  intros now u bid w b Hbid Hb out.
  pose proof (mark_responded_broker now u bid w b Hbid Hb) as Hlook.
  fold out in Hlook.
  destruct (mark_responded_rows now u bid w Hbid) as [_ Hmails].
  fold out in Hmails.
  assert (Hquiet : contactable (brokers (db out) !! bid) = false).
  { rewrite Hlook. unfold contactable.
    cbn [outreach_status responded_patch status_is String.eqb Ascii.eqb
         Bool.eqb orb negb andb].
    rewrite andb_false_r. reflexivity. }
  assert (Hall : forall runs m, m ∈ mails (sweeps runs out) ->
            m ∈ mails w
            \/ exists c, c ∈ outreach_campaigns (db out)
                 /\ mail_step m = Some (campaign_id c)
                 /\ broker_id c <> bid).
  { intros runs m Hm.
    destruct (sweeps_skip_uncontactable runs out bid m Hquiet Hm)
      as [Hold|(c & Hc & Hstep & Hne & _)].
    - left. rewrite <- Hmails. exact Hold.
    - right. exists c. repeat split; assumption. }
  split; [rewrite Hlook; reflexivity|].
  split; [exact Hall|].
  intros runs c m Hnd Hc Hcb Hm Hstep.
  destruct (Hall runs m Hm) as [Hold|(c' & Hc' & Hstep' & Hne)];
    [exact Hold|exfalso].
  assert (c' = c) as ->.
  { eapply (NoDup_fmap_elem_inj campaign_id); [exact Hnd| | |];
      [exact Hc'|exact Hc|congruence]. }
  contradiction.
Qed.

Lemma mark_responded_silences_sweeps_witness :
  mails (sweeps [(Scenarios.env_live, 10 * Scenarios.day)]
           (fst (mark_responded (5 * Scenarios.day) "u1" (Some "b1")
                   Scenarios.w_replied_pending)))
  = [].
Proof.
  assert (Hbid : "b1" <> "") by discriminate.
  destruct (mark_responded_silences_sweeps (5 * Scenarios.day) "u1" "b1"
              Scenarios.w_replied_pending Scenarios.ca_broker Hbid eq_refl)
    as (_ & Hall & _).
  destruct (mails (sweeps [(Scenarios.env_live, 10 * Scenarios.day)]
                     (fst (mark_responded (5 * Scenarios.day) "u1" (Some "b1")
                             Scenarios.w_replied_pending)))) as [|m rest] eqn:E;
    [reflexivity|exfalso].
  destruct (Hall [(Scenarios.env_live, 10 * Scenarios.day)] m)
    as [Hold|(c & Hc & _ & Hne)].
  - rewrite E. apply elem_of_cons. left. reflexivity.
  - inversion Hold.
  - apply Hne. clear -Hc. vm_compute in Hc.
    repeat (apply elem_of_cons in Hc as [->|Hc]; [reflexivity|]).
    inversion Hc.
Defined.

Lemma log_response_broker now u bid next w b :
  bid <> "" ->
  broker_of (db w) u bid = Some b ->
  log_response now u (Some bid) next w
  = (set_db
       (set_brokers
          (update_broker bid
             (fun b => Fields.with_outreach_status (status_after next b) now b)
             (brokers (db w)))
          (db w))
       w,
     Reply 200 "Response logged")
  /\ brokers (db w) !! bid = Some b.
Proof.
  intros Hbid Hb. unfold log_response.
  destruct bid as [|a bid]; [congruence|]. rewrite Hb.
  split; [reflexivity|].
  unfold broker_of in Hb.
  destruct (brokers (db w) !! String a bid) as [b0|]; [|discriminate].
  destruct (String.eqb (b_carrier_id b0) u); congruence.
Qed.

(** X16: after [log-response] with the next action "blacklist" or
    "active" for a broker of the carrier, the broker's status is
    "blacklisted" or "active", and no sequence of sweeps sends that broker
    anything. *)
Theorem log_response_stops_outreach :
  forall now u bid next w b,
    bid <> "" ->
    broker_of (db w) u bid = Some b ->
    next = Some "blacklist" \/ next = Some "active" ->
    let out := fst (log_response now u (Some bid) next w) in
    (brokers (db out) !! bid ≫= outreach_status)
    = (if status_is next "blacklist" then Some "blacklisted" else Some "active")
    /\ outreach_campaigns (db out) = outreach_campaigns (db w)
    /\ forall runs m, m ∈ mails (sweeps runs out) ->
         m ∈ mails w
         \/ exists c, c ∈ outreach_campaigns (db w)
              /\ mail_step m = Some (campaign_id c)
              /\ broker_id c <> bid.
Proof.
  intros now u bid next w b Hbid Hb Hnext out.
  destruct (log_response_broker now u bid next w b Hbid Hb) as [Hout Hlook].
  subst out. rewrite Hout. cbn [fst set_db db mails].
  cbn [brokers set_brokers outreach_campaigns]. unfold update_broker.
  assert (Hafter : alter
                     (fun b0 => Fields.with_outreach_status
                                  (status_after next b0) now b0)
                     bid (brokers (db w)) !! bid
                   = Some (Fields.with_outreach_status
                             (status_after next b) now b)).
  { rewrite lookup_alter_eq, Hlook. reflexivity. }
  assert (Hstatus : status_after next b
                    = if status_is next "blacklist"
                      then Some "blacklisted" else Some "active").
  { destruct Hnext as [-> | ->]; reflexivity. }
  split.
  { rewrite Hafter. cbn [mbind option_bind Fields.with_outreach_status
                         outreach_status]. exact Hstatus. }
  split; [reflexivity|].
  intros runs m Hm.
  match type of Hm with
  | _ ∈ mails (sweeps _ ?o) =>
      destruct (sweeps_skip_uncontactable runs o bid m) as
        [Hold|(c & Hc & Hstep & Hne & _)]
  end.
  - cbn [db set_db brokers set_brokers]. unfold update_broker.
    rewrite Hafter. unfold contactable.
    cbn [Fields.with_outreach_status outreach_status email].
    rewrite Hstatus.
    destruct Hnext as [-> | ->]; cbn; rewrite ?andb_false_r; reflexivity.
  - exact Hm.
  - left. exact Hold.
  - right. exists c. repeat split; assumption.
Qed.

Lemma log_response_stops_outreach_witness :
  (brokers (db (fst (log_response (5 * Scenarios.day) "u1" (Some "b1")
                       (Some "blacklist") Scenarios.w_sequence)))
     !! "b1" ≫= outreach_status) = Some "blacklisted".
Proof.
  assert (Hbid : "b1" <> "") by discriminate.
  apply (log_response_stops_outreach (5 * Scenarios.day) "u1" "b1"
           (Some "blacklist") Scenarios.w_sequence Scenarios.ca_broker
           Hbid eq_refl (or_introl eq_refl)).
Defined.

(** The rows [scheduleFollowUps] appends: one per default follow-up
    template, in the order of [followup_templates]. *)
Lemma scheduleFollowUps_rows zone u bid parent now d :
  brokers (scheduleFollowUps zone u bid parent now d) = brokers d
  /\ carrier_profiles (scheduleFollowUps zone u bid parent now d)
     = carrier_profiles d
  /\ email_templates (scheduleFollowUps zone u bid parent now d)
     = email_templates d
  /\ exists rows,
       outreach_campaigns (scheduleFollowUps zone u bid parent now d)
       = outreach_campaigns d ++ rows
       /\ Forall2
            (fun t c => exists cid, c = followup_row zone cid u bid parent now t)
            (followup_templates d) rows.
Proof.
  unfold scheduleFollowUps, followup_templates.
  generalize (sort_by (fun a b => t_sequence_step a <=? t_sequence_step b)
                (List.filter
                   (fun t => (is_default t && String.eqb (category t) "follow_up")%bool)
                   (email_templates d))) as templates.
  intros templates. revert d.
  induction templates as [|tmpl templates IH]; intros d.
  - repeat split; try reflexivity.
    exists []. rewrite app_nil_r. split; [reflexivity|constructor].
  - cbn [fold_left].
    destruct (IH (set_campaigns
                    (outreach_campaigns d ++
                       [followup_row zone (next_id (outreach_campaigns d)) u bid parent now tmpl])
                    d)) as (Hb & Hc & Ht & rows & Hrows & Hall).
    split; [rewrite Hb; reflexivity|].
    split; [rewrite Hc; reflexivity|].
    split; [rewrite Ht; reflexivity|].
    exists (followup_row zone (next_id (outreach_campaigns d)) u bid parent now tmpl :: rows).
    split.
    + rewrite Hrows. cbn [outreach_campaigns set_campaigns].
      rewrite <- app_assoc. reflexivity.
    + constructor; [eexists; reflexivity|exact Hall].
Qed.

Lemma TimeClip_Some t u : TimeClip t = Some u -> u = t.
Proof. unfold TimeClip. case_match; congruence. Qed.

(** X17: [scheduleFollowUps] walks the default follow-up templates in
    ascending [sequence_step] and appends one row per template, in that
    order: scheduled, by email, for the same pair, pointing to the parent
    step, with the template's step number.  The schedule is the date
    [setDate] yields on the calendar of the process: when that date is
    within the range of [Date], it is the clock reading moved by the
    local offset, [delay_days] whole days, and back by the offset that
    applies at the new local time, which on a process running in UTC is
    [delay_days * 86400000] ms after the clock reading.  Every earlier row
    and the other tables are left as they are. *)
Theorem scheduleFollowUps_one_row_per_template :
  forall zone u bid parent now d,
    (forall t, t ∈ followup_templates d ->
               is_Some (setDate zone now (delay_days t))) ->
    let after := scheduleFollowUps zone u bid parent now d in
    let templates := followup_templates d in
    templates ≡ₚ List.filter
                   (fun t => is_default t && String.eqb (category t) "follow_up")%bool
                   (email_templates d)
    /\ StronglySorted
         (fun a b => (t_sequence_step a <=? t_sequence_step b) = true) templates
    /\ brokers after = brokers d
    /\ carrier_profiles after = carrier_profiles d
    /\ email_templates after = email_templates d
    /\ exists rows,
         outreach_campaigns after = outreach_campaigns d ++ rows
         /\ Forall2
              (fun t c =>
                 sequence_step c = t_sequence_step t
                 /\ (exists at_,
                       scheduled_at c = Some at_
                       /\ at_ = now + offset_at zone now
                                + delay_days t * 86400000
                                - offset_of_local zone
                                    (now + offset_at zone now
                                     + delay_days t * 86400000)
                       /\ ((forall x, offset_at zone x = 0) ->
                           (forall x, offset_of_local zone x = 0) ->
                           at_ = now + delay_days t * 86400000))
                 /\ status c = scheduled /\ method c = by_email
                 /\ campaign_type c = "follow_up"
                 /\ parent_campaign_id c = Some parent
                 /\ carrier_id c = u /\ broker_id c = bid
                 /\ sent_at c = None)
              templates rows.
Proof.
  intros zone u bid parent now d Hvalid after templates.
  subst after templates.
  split; [apply sort_by_perm|].
  split.
  { apply (sort_by_sorted _ (fun _ => True)).
    - intros a b _ _.
      destruct (Z.leb_spec (t_sequence_step a) (t_sequence_step b));
        [left; reflexivity|right]. apply Z.leb_le. lia.
    - intros a b c _ _ _. rewrite !Z.leb_le. lia.
    - apply Forall_forall. intros; exact I. }
  destruct (scheduleFollowUps_rows zone u bid parent now d)
    as (Hb & Hc & Ht & rows & Hrows & Hall).
  split; [exact Hb|]. split; [exact Hc|]. split; [exact Ht|].
  exists rows. split; [exact Hrows|].
  apply Forall2_same_length_lookup. split; [eapply Forall2_length; exact Hall|].
  intros i t c Hti Hci.
  destruct (Forall2_lookup_lr _ _ _ _ _ _ Hall Hti Hci) as (cid & ->).
  destruct (Hvalid t (list_elem_of_lookup_2 _ _ _ Hti)) as [at_ Hat].
  cbn [sequence_step scheduled_at status method campaign_type
       parent_campaign_id carrier_id broker_id sent_at followup_row].
  split; [reflexivity|]. split; [|repeat split; reflexivity].
  exists at_. split; [exact Hat|].
  unfold setDate in Hat. apply TimeClip_Some in Hat.
  change ms_per_day with 86400000 in Hat.
  split; [exact Hat|].
  intros H0 H1. rewrite Hat, H0, H1. lia.
Qed.

Lemma scheduleFollowUps_one_row_per_template_witness :
  exists rows,
    outreach_campaigns
      (scheduleFollowUps utc "u1" "b1" 1 Scenarios.day (db Scenarios.w_sent))
    = outreach_campaigns (db Scenarios.w_sent) ++ rows
    /\ length rows = 2%nat.
Proof.
  assert (Hvalid : forall t,
            t ∈ followup_templates (db Scenarios.w_sent) ->
            is_Some (setDate utc Scenarios.day (delay_days t))).
  { intros t Ht. vm_compute in Ht.
    repeat (apply elem_of_cons in Ht as [->|Ht];
            [eexists; vm_compute; reflexivity|]).
    inversion Ht. }
  destruct (scheduleFollowUps_one_row_per_template utc "u1" "b1" 1%nat
              Scenarios.day (db Scenarios.w_sent) Hvalid)
    as (_ & _ & _ & _ & _ & rows & Hrows & Hall).
  exists rows. split; [exact Hrows|].
  apply Forall2_length in Hall. rewrite <- Hall. vm_compute. reflexivity.
Defined.



Lemma broker_of_lookup d u bid b :
  broker_of d u bid = Some b <->
  brokers d !! bid = Some b /\ String.eqb (b_carrier_id b) u = true.
Proof.
  unfold broker_of.
  destruct (brokers d !! bid) as [b0|];
    [|split; [discriminate|intros [? _]; discriminate]].
  destruct (String.eqb (b_carrier_id b0) u) eqn:E; split.
  - intros [= ->]. split; [reflexivity|exact E].
  - intros [[= ->] _]. reflexivity.
  - discriminate.
  - intros [[= ->] E']. congruence.
Qed.



(** What [initiate] leaves alone once its validations have passed. *)
Lemma initiate_tables env now u bid w carrier broker :
  bid <> "" ->
  carrier_profiles (db w) !! u = Some carrier ->
  broker_of (db w) u bid = Some broker ->
  JS.truthy_str (phone broker) = true ->
  let out := fst (initiate env now u (Some bid) w) in
  carrier_profiles (db out) = carrier_profiles (db w)
  /\ email_templates (db out) = email_templates (db w)
  /\ mails out = mails w
  /\ exists b', broker_of (db out) u bid = Some b' /\ email b' = email broker.
Proof.
  intros Hbid Hcar Hbro Hphone. cbn zeta.
  pose proof Hbro as Hfound. apply broker_of_lookup in Hfound as [Hlook Hown].
  assert (Hkeep : exists b', broker_of (db w) u bid = Some b'
                             /\ email b' = email broker)
    by (exists broker; split; [exact Hbro|reflexivity]).
  destruct (twilio_from env) as [[|a f]|] eqn:Hfrom.
  - unfold initiate. destruct bid as [|x bid]; [congruence|].
    rewrite Hcar, Hbro, Hphone, Hfrom. cbn [negb fst].
    repeat split; try reflexivity. exact Hkeep.
  - rewrite (initiate_validated env now u bid w carrier broker (String a f))
      by (assumption || discriminate).
    cbn zeta.
    destruct (calls_create env
                (mkPhoneCall (default "" (phone broker)) (String a f)));
      cbn [fst db set_db mails];
      [|repeat split; try reflexivity; exact Hkeep].
    repeat split; try reflexivity.
    exists (called_patch broker now broker). split; [|reflexivity].
    apply broker_of_lookup.
    cbn [brokers set_brokers log_call set_campaigns]. unfold update_broker.
    rewrite lookup_alter_eq, Hlook. split; [reflexivity|exact Hown].
  - unfold initiate. destruct bid as [|x bid]; [congruence|].
    rewrite Hcar, Hbro, Hphone, Hfrom. cbn [negb fst].
    repeat split; try reflexivity. exact Hkeep.
Qed.

(** X19: a call counts as the initial contact.  When the pair has no
    step-1 row and [initiate] answers 200, with the provider or in dev
    mode, a later [send-initial] to the same pair answers 409 and leaves
    everything as it is. *)
Theorem send_initial_after_call_conflicts :
  forall env env' now now' u bid w carrier broker,
    bid <> "" ->
    carrier_profiles (db w) !! u = Some carrier ->
    broker_of (db w) u bid = Some broker ->
    JS.truthy_str (phone broker) = true ->
    JS.truthy_str (email broker) = true ->
    step1_rows (db w) u bid = [] ->
    let called := initiate env now u (Some bid) w in
    http (snd called) = 200%nat ->
    send_initial env' now' u (Some bid) (fst called)
    = (fst called, Reply 409 "Initial outreach already sent to this broker").
Proof.
  intros env env' now now' u bid w carrier broker
         Hbid Hcar Hbro Hphone Hmail Hnone called Hok.
  destruct (initiate_tables env now u bid w carrier broker
              Hbid Hcar Hbro Hphone) as (Hcp & _ & _ & b' & Hb' & He).
  fold called in Hcp, Hb'.
  pose proof (initiate_appends_step1_row env now u bid w carrier broker
                Hbid Hcar Hbro Hphone) as Hrows.
  cbn zeta in Hrows. fold called in Hrows.
  assert (Hone : exists note,
            outreach_campaigns (db (fst called))
            = outreach_campaigns (db w)
              ++ [call_row (next_id (outreach_campaigns (db w))) u bid now note]).
  { destruct (twilio_from env) as [[|a f]|].
    - destruct Hrows as [_ ->]. eexists; reflexivity.
    - destruct (calls_create env _).
      + destruct Hrows as [_ ->]. eexists; reflexivity.
      + destruct Hrows as [H500 _]. congruence.
    - destruct Hrows as [_ ->]. eexists; reflexivity. }
  destruct Hone as [note Hone].
  rewrite (send_initial_validated env' now' u bid (fst called) carrier b');
    try assumption.
  - unfold step1_rows in *. rewrite Hone, List.filter_app, Hnone.
    cbn [app List.filter broker_id carrier_id sequence_step call_row].
    rewrite !String.eqb_refl. reflexivity.
  - rewrite Hcp. exact Hcar.
  - rewrite He. exact Hmail.
Qed.

Lemma send_initial_after_call_conflicts_witness :
  send_initial Scenarios.env_live (2 * Scenarios.day) "u1" (Some "b1")
    (fst (initiate Scenarios.env_live Scenarios.day "u1" (Some "b1")
            Scenarios.w_fresh))
  = (fst (initiate Scenarios.env_live Scenarios.day "u1" (Some "b1")
            Scenarios.w_fresh),
     Reply 409 "Initial outreach already sent to this broker").
Proof.
  assert (Hbid : "b1" <> "") by discriminate.
  exact (send_initial_after_call_conflicts Scenarios.env_live
           Scenarios.env_live Scenarios.day (2 * Scenarios.day) "u1" "b1"
           Scenarios.w_fresh Scenarios.nj_carrier Scenarios.ca_broker
           Hbid eq_refl eq_refl eq_refl eq_refl eq_refl eq_refl).
Defined.



(** X21: a request that is refused writes nothing.  Whenever
    [send-initial] answers 400, 404 or 409, the answers of its validations
    and of its conflict guard, the store and the logs are as before (its
    500 is left out: the handler's [catch] also answers 500, and an
    exception of the fan-out comes after the writes).  Whenever
    [mark-responded] or [log-response] answers with a status other than 200
    the store and the logs are as before; whenever [initiate] does, the
    store and the mail log are as before (the call may have been
    requested); and [bulk-send] changes nothing and sends nothing whatever
    it answers. *)
Theorem refused_requests_write_nothing :
  forall env now u req next ids w,
    (http (snd (send_initial env now u req w)) = 400%nat
     \/ http (snd (send_initial env now u req w)) = 404%nat
     \/ http (snd (send_initial env now u req w)) = 409%nat ->
     fst (send_initial env now u req w) = w)
    /\ (http (snd (initiate env now u req w)) <> 200%nat ->
        db (fst (initiate env now u req w)) = db w
        /\ mails (fst (initiate env now u req w)) = mails w)
    /\ (http (snd (mark_responded now u req w)) <> 200%nat ->
        fst (mark_responded now u req w) = w)
    /\ (http (snd (log_response now u req next w)) <> 200%nat ->
        fst (log_response now u req next w) = w)
    /\ fst (fst (bulk_send u ids w)) = w.
Proof.
  intros env now u req next ids w.
  split; [|split; [|split; [|split]]].
  - unfold send_initial.
    repeat case_match; cbn [fst snd http]; intros Hrefused;
      reflexivity || (exfalso; clear -Hrefused; intuition discriminate).
  - unfold initiate.
    repeat case_match; cbn [fst snd http db mails]; intros Hrefused;
      (split; reflexivity) || (exfalso; apply Hrefused; reflexivity).
  - unfold mark_responded.
    repeat case_match; cbn [fst snd http]; intros Hrefused;
      reflexivity || (exfalso; apply Hrefused; reflexivity).
  - unfold log_response.
    repeat case_match; cbn [fst snd http]; intros Hrefused;
      reflexivity || (exfalso; apply Hrefused; reflexivity).
  - unfold bulk_send. repeat case_match; reflexivity.
Qed.

End ComposedFacts.

(** ** Rankings: api/broker-score.ts and api/lane-targeting.ts *)

Section RankingFacts.

Import RelationshipScorer TargetScorer Outreach BrokerScore Targeting.

Lemma insert_by_skip {A} (le : A -> A -> bool) x l1 l2 :
  (forall y, y ∈ l1 -> le x y = false) ->
  insert_by le x (l1 ++ l2) = l1 ++ insert_by le x l2.
Proof.
  induction l1 as [|y l1 IH]; intros H; [reflexivity|].
  cbn [app insert_by].
  rewrite (H y) by (apply elem_of_cons; left; reflexivity).
  f_equal. apply IH. intros z Hz. apply H. apply elem_of_cons. right. exact Hz.
Qed.

Lemma insert_by_head {A} (le : A -> A -> bool) x l :
  (forall y, y ∈ l -> le x y = true) -> insert_by le x l = x :: l.
Proof.
  destruct l as [|y l]; intros H; [reflexivity|].
  cbn [insert_by].
  rewrite (H y) by (apply elem_of_cons; left; reflexivity). reflexivity.
Qed.

(** The stable sort on a key with three values lists the rows of the
    first value, then those of the second, then those of the third, each
    group in its original order. *)
Lemma sort_by_three_groups {A} (key : A -> Z) (l : list A) :
  (forall x, x ∈ l -> 0 <= key x <= 2) ->
  sort_by (fun a b => key a <=? key b) l
  = List.filter (fun x => key x =? 0) l
    ++ List.filter (fun x => key x =? 1) l
    ++ List.filter (fun x => key x =? 2) l.
Proof.
  induction l as [|x r IH]; intros Hk; [reflexivity|].
  cbn [sort_by List.filter].
  rewrite IH by (intros y Hy; apply Hk; apply elem_of_cons; right; exact Hy).
  assert (Hx : 0 <= key x <= 2)
    by (apply Hk; apply elem_of_cons; left; reflexivity).
  assert (Hin : forall v y, y ∈ List.filter (fun x => key x =? v) r ->
                            key y = v).
  { intros v y Hy. apply elem_of_filter_bool in Hy as [_ Hp].
    apply Z.eqb_eq. exact Hp. }
  destruct (Z.eqb_spec (key x) 0) as [H0|H0].
  - destruct (Z.eqb_spec (key x) 1); [lia|].
    destruct (Z.eqb_spec (key x) 2); [lia|].
    cbn [app]. apply insert_by_head. intros y Hy. apply Z.leb_le.
    apply elem_of_app in Hy as [Hy|Hy]; [apply Hin in Hy; lia|].
    apply elem_of_app in Hy as [Hy|Hy]; apply Hin in Hy; lia.
  - destruct (Z.eqb_spec (key x) 1) as [H1|H1].
    + destruct (Z.eqb_spec (key x) 2); [lia|].
      rewrite insert_by_skip
        by (intros y Hy; apply Hin in Hy; apply Z.leb_gt; lia).
      f_equal. cbn [app]. apply insert_by_head. intros y Hy. apply Z.leb_le.
      apply elem_of_app in Hy as [Hy|Hy]; apply Hin in Hy; lia.
    + destruct (Z.eqb_spec (key x) 2) as [H2|H2]; [|lia].
      rewrite insert_by_skip
        by (intros y Hy; apply Hin in Hy; apply Z.leb_gt; lia).
      f_equal.
      rewrite insert_by_skip
        by (intros y Hy; apply Hin in Hy; apply Z.leb_gt; lia).
      f_equal. apply insert_by_head. intros y Hy. apply Z.leb_le.
      apply Hin in Hy. lia.
Qed.

Lemma priority_range s : 0 <= priority s <= 2.
Proof. unfold priority. repeat case_match; lia. Qed.

(** X22: the [needs-attention] list.  The rows the filter keeps are those
    never contacted, those whose status is "responded", and those still
    "contacted" more than 14 whole days after the last contact; the sort
    puts the responded ones first, then the new ones, then all others, and
    keeps the query order inside each group.  The query itself returns only
    the carrier's rows whose status is present and not "blacklisted". *)
Theorem needsAttention_groups :
  forall now u d,
    let data :=
      List.filter (not_blacklisted u) (snd <$> map_to_list (brokers d)) in
    let picked := List.filter (wants_attention now) data in
    needs_attention now u d
    = List.filter (fun b => status_is (outreach_status b) "responded") picked
      ++ List.filter (fun b => status_is (outreach_status b) "new") picked
      ++ List.filter
           (fun b => negb (status_is (outreach_status b) "responded")
                     && negb (status_is (outreach_status b) "new"))%bool
           picked
    /\ (forall b, b ∈ data <->
          (exists k, brokers d !! k = Some b)
          /\ b_carrier_id b = u
          /\ exists s, outreach_status b = Some s /\ s <> "blacklisted")
    /\ (forall b, b ∈ picked <->
          b ∈ data
          /\ (last_contact_date b = None
              \/ outreach_status b = Some "responded"
              \/ (outreach_status b = Some "contacted"
                  /\ exists t, last_contact_date b = Some t
                       /\ 14 < (now - t) / 86400000))).
Proof.
  intros now u d data picked.
  split; [|split].
  - unfold needs_attention, needsAttention. fold data. fold picked.
    rewrite (sort_by_three_groups (fun b => priority (outreach_status b)))
      by (intros x _; apply priority_range).
    f_equal; [|f_equal]; apply filter_ext; intros b; unfold priority.
    + destruct (status_is (outreach_status b) "responded"); [reflexivity|].
      destruct (status_is (outreach_status b) "new"); reflexivity.
    + destruct (status_is (outreach_status b) "responded") eqn:Hr.
      * apply status_is_true in Hr. rewrite Hr. reflexivity.
      * destruct (status_is (outreach_status b) "new"); reflexivity.
    + destruct (status_is (outreach_status b) "responded"); [reflexivity|].
      destruct (status_is (outreach_status b) "new"); reflexivity.
  - intros b. subst data. rewrite elem_of_filter_bool, list_elem_of_fmap.
    unfold not_blacklisted. rewrite andb_true_iff, String.eqb_eq.
    split.
    + intros [([k b'] & -> & Hkb) [Hu Hs]].
      apply elem_of_map_to_list in Hkb. cbn [snd] in *.
      split; [exists k; exact Hkb|]. split; [exact Hu|].
      destruct (outreach_status b') as [s|]; [|discriminate].
      exists s. split; [reflexivity|].
      apply negb_true_iff, String.eqb_neq in Hs. exact Hs.
    + intros ([k Hk] & Hu & s & Hs & Hne).
      split; [exists (k, b); split; [reflexivity|]|].
      * apply elem_of_map_to_list. exact Hk.
      * split; [exact Hu|]. rewrite Hs.
        apply negb_true_iff, String.eqb_neq. exact Hne.
  - intros b. subst picked. rewrite elem_of_filter_bool.
    apply and_iff_compat_l. unfold wants_attention.
    destruct (last_contact_date b) as [t|].
    2:{ split; [left; reflexivity|reflexivity]. }
    change RelationshipScorer.ms_per_day with 86400000 in *.
    change Outreach.ms_per_day with 86400000 in *.
    destruct (Z.gtb_spec ((now - t) / 86400000) 14) as [Hlate|Hearly];
      cbn [andb].
    + destruct (status_is (outreach_status b) "contacted") eqn:Hc.
      * apply status_is_true in Hc.
        split; [|reflexivity]. intros _. right. right.
        split; [exact Hc|]. exists t. split; [reflexivity|exact Hlate].
      * destruct (status_is (outreach_status b) "responded") eqn:Hr.
        -- apply status_is_true in Hr. split; [|reflexivity].
           intros _. right. left. exact Hr.
        -- split; [discriminate|].
           intros [Hn|[Hresp|[Hcont _]]]; [discriminate| |].
           ++ apply status_is_true in Hresp. congruence.
           ++ apply status_is_true in Hcont. congruence.
    + destruct (status_is (outreach_status b) "responded") eqn:Hr.
      * apply status_is_true in Hr. split; [|reflexivity].
        intros _. right. left. exact Hr.
      * split; [discriminate|].
        intros [Hn|[Hresp|(_ & t' & [= <-] & Hlate)]]; [discriminate| |lia].
        apply status_is_true in Hresp. congruence.
Qed.

(** The loop of [score-all] over rows with distinct ids. *)
Lemma score_loop_spec now rows :
  forall acc k,
    NoDup (fst <$> rows) ->
    (forall b, (k, b) ∈ rows ->
       fst (score_loop now rows acc) !! k
       = Some (fst (calculateRelationshipScore now b)))
    /\ (k ∉ fst <$> rows -> fst (score_loop now rows acc) !! k = fst acc !! k)
    /\ snd (score_loop now rows acc) = (snd acc + length rows)%nat.
Proof.
  induction rows as [|[k0 b0] rows IH]; intros acc k Hnd.
  - cbn. split; [intros b Hb; inversion Hb|]. split; [reflexivity|lia].
  - cbn in Hnd. apply NoDup_cons in Hnd as [Hk0 Hnd].
    unfold score_loop. cbn [fold_left fst snd].
    match goal with
    | |- context [fold_left ?f rows ?a] =>
        change (fold_left f rows a) with (score_loop now rows a);
        destruct (IH a k Hnd) as (I1 & I2 & I3)
    end.
    split; [|split].
    + intros b Hb. apply elem_of_cons in Hb as [Heq|Hb]; [|apply I1; exact Hb].
      injection Heq as -> ->. rewrite I2 by exact Hk0. cbn [fst].
      apply lookup_insert_eq.
    + intros Hout. cbn in Hout. apply not_elem_of_cons in Hout as [Hne Hout].
      rewrite I2 by exact Hout. cbn [fst]. apply lookup_insert_ne. congruence.
    + rewrite I3. cbn [snd length]. lia.
Qed.

Lemma calculateRelationshipScore_range now b :
  0 <= fst (calculateRelationshipScore now b) <= 100.
Proof.
  unfold calculateRelationshipScore, breakdown, JS.min.
  cbn [fst payment responsiveness revenue reliability].
  pose proof (paymentScore_bounds b).
  pose proof (responseScore_bounds now b).
  pose proof (revenueScore_bounds b).
  pose proof (reliabilityScore_bounds b).
  lia.
Qed.

(** X23: [score-all] stores, for every broker of the carrier, the score
    [score] would store for it, a number from 0 to 100; it leaves the
    stored scores of all other brokers as they are, and [updated] is the
    number of the carrier's brokers. *)
Theorem score_all_covers_the_carrier :
  forall now u d scores,
    let out := score_all now u d scores in
    (forall k b, brokers d !! k = Some b -> b_carrier_id b = u ->
       fst out !! k = Some (fst (calculateRelationshipScore now b))
       /\ 0 <= fst (calculateRelationshipScore now b) <= 100
       /\ (k <> "" ->
           fst (score_one now u (Some k) d scores) !! k = fst out !! k))
    /\ (forall k, (forall b, brokers d !! k = Some b -> b_carrier_id b <> u) ->
          fst out !! k = scores !! k)
    /\ snd out = length (carrier_rows u (brokers d)).
Proof.
  intros now u d scores out.
  assert (Hout : out = score_loop now (carrier_rows u (brokers d)) (scores, O)).
  { subst out. unfold score_all.
    destruct (carrier_rows u (brokers d)); reflexivity. }
  assert (Hnd : NoDup (fst <$> carrier_rows u (brokers d))).
  { unfold carrier_rows.
    eapply sublist_NoDup; [|apply fmap_sublist, filter_bool_sublist].
    apply NoDup_fst_map_to_list. }
  assert (Hrows : forall k b, (k, b) ∈ carrier_rows u (brokers d) <->
                    brokers d !! k = Some b /\ b_carrier_id b = u).
  { intros k b. unfold carrier_rows.
    rewrite elem_of_filter_bool, elem_of_map_to_list, String.eqb_eq.
    reflexivity. }
  rewrite Hout. split; [|split].
  - intros k b Hk Hu.
    destruct (score_loop_spec now (carrier_rows u (brokers d)) (scores, O) k Hnd)
      as (I1 & _ & _).
    assert (Hstored : fst (score_loop now (carrier_rows u (brokers d)) (scores, O))
                        !! k = Some (fst (calculateRelationshipScore now b)))
      by (apply I1, Hrows; split; assumption).
    split; [exact Hstored|].
    split; [apply calculateRelationshipScore_range|].
    intros Hne. rewrite Hstored. unfold score_one.
    destruct k as [|a k]; [congruence|].
    assert (Hfound : broker_of d u (String a k) = Some b).
    { unfold broker_of. rewrite Hk, Hu, String.eqb_refl. reflexivity. }
    rewrite Hfound.
    destruct (calculateRelationshipScore now b) as [sc bd]. cbn [fst].
    apply lookup_insert_eq.
  - intros k Hother.
    destruct (score_loop_spec now (carrier_rows u (brokers d)) (scores, O) k Hnd)
      as (_ & I2 & _).
    rewrite I2; [reflexivity|].
    intros Hin. apply list_elem_of_fmap in Hin as ([k' b] & -> & Hkb).
    apply Hrows in Hkb as [Hk Hu]. exact (Hother b Hk Hu).
  - destruct (score_loop_spec now (carrier_rows u (brokers d)) (scores, O) "" Hnd)
      as (_ & _ & I3).
    rewrite I3. reflexivity.
Qed.

Lemma sorted_take {A} (R : A -> A -> Prop) n l :
  StronglySorted R l -> StronglySorted R (take n l).
Proof.
  revert n. induction l as [|x l IH]; intros [|n] Hs; cbn [take];
    try constructor.
  - apply IH. apply StronglySorted_inv in Hs. apply Hs.
  - apply StronglySorted_inv in Hs as [_ Hx].
    rewrite List.Forall_forall in *. intros z Hz. apply Hx.
    apply list_elem_of_In. apply list_elem_of_In in Hz.
    exact (elem_of_sublist _ _ _ Hz (sublist_take _ n)).
Qed.

Lemma sorted_impl {A} (R R' : A -> A -> Prop) l :
  (forall a b, R a b -> R' a b) -> StronglySorted R l -> StronglySorted R' l.
Proof.
  intros Himpl. induction 1 as [|x l Hs IH Hx]; constructor; [exact IH|].
  eapply List.Forall_impl; [|exact Hx]. intros b. apply Himpl.
Qed.

Lemma has_false rows mc :
  has (crmMCs rows) (Some mc) = false ->
  mc <> "" ->
  forall r, r ∈ rows -> crm_mc r <> Some mc.
Proof.
  intros Hhas Hne r Hr Hmc.
  assert (Hin : mc ∈ crmMCs rows).
  { unfold crmMCs. apply list_elem_of_omap. exists r. split; [exact Hr|].
    rewrite Hmc. destruct mc; [congruence|]. reflexivity. }
  assert (Htrue : has (crmMCs rows) (Some mc) = true).
  { unfold has. apply existsb_exists. exists mc.
    split; [apply list_elem_of_In; exact Hin|apply String.eqb_refl]. }
  congruence.
Qed.

(** X24: the recommendations.  Without a profile the request is refused;
    otherwise it answers at most 30 targets, highest score first, each
    score being the target score of the row for the carrier's home state,
    from 30 to 100.  A target taken from the CRM is a row of the carrier
    whose status is present and not "blacklisted"; a target taken from the
    leads has active authority, lies in the home state or a neighbouring
    one, and carries no MC number of any CRM row that the CRM query
    returned. *)
Theorem recommendations_ranked :
  forall u profiles crm leads,
    match recommendations u profiles crm leads with
    | None => profiles !! u = None
    | Some targets =>
        exists carrier,
          profiles !! u = Some carrier
          /\ (length targets <= 30)%nat
          /\ StronglySorted (fun a b => target_score b <= target_score a) targets
          /\ forall t, t ∈ targets ->
               target_score t
               = scoreBrokerTarget (target_fields t) carrier
                   (carrierState_of carrier)
               /\ 30 <= target_score t <= 100
               /\ match source t with
                  | from_crm =>
                      exists r, r ∈ crm
                        /\ target_fields t = crm_broker r
                        /\ b_carrier_id (crm_broker r) = u
                        /\ exists s, outreach_status (crm_broker r) = Some s
                             /\ s <> "blacklisted"
                  | from_lead =>
                      exists l, l ∈ leads
                        /\ target_fields t = lead_fields l
                        /\ target_mc t = lead_mc l
                        /\ authority_status (lead_fields l) = Some "ACTIVE"
                        /\ broker_authority l = true
                        /\ (exists st, address_state (lead_fields l) = Some st
                              /\ st ∈ targetStates (carrierState_of carrier))
                        /\ forall r mc, r ∈ crmBrokers u crm ->
                             lead_mc l = Some mc -> mc <> "" ->
                             crm_mc r <> Some mc
                  end
    end.
Proof.
  intros u profiles crm leads. unfold recommendations.
  destruct (profiles !! u) as [carrier|]; [|reflexivity].
  cbn zeta. exists carrier. split; [reflexivity|].
  set (home := carrierState_of carrier).
  set (rows := crmBrokers u crm).
  set (found := leads_in (targetStates home) leads).
  set (all := _ ++ _).
  split; [rewrite length_take; lia|].
  split.
  { apply sorted_take.
    eapply sorted_impl;
      [|apply (sort_by_sorted _ (fun _ => True))].
    - intros a b Hab. apply Z.leb_le. exact Hab.
    - intros a b _ _.
      destruct (Z.leb_spec (target_score b) (target_score a));
        [left; reflexivity|right]. apply Z.leb_le. lia.
    - intros a b c _ _ _. rewrite !Z.leb_le. lia.
    - apply Forall_forall. intros; exact I. }
  intros t Ht.
  apply (fun H => elem_of_sublist _ _ _ H (sublist_take _ 30)) in Ht.
  rewrite sort_by_perm in Ht. subst all.
  assert (Hrange : forall b, 30 <= scoreBrokerTarget b carrier home <= 100).
  { intros b. pose proof (raw_score_floor b carrier home).
    unfold scoreBrokerTarget, JS.min, JS.max. lia. }
  apply elem_of_app in Ht as [Ht|Ht];
    apply list_elem_of_fmap in Ht as (x & -> & Hx);
    cbn [target_score target_fields target_mc source];
    (split; [reflexivity|]); (split; [apply Hrange|]).
  - subst rows. unfold crmBrokers in Hx.
    apply elem_of_filter_bool in Hx as [Hx Hnb].
    exists x. split; [exact Hx|]. split; [reflexivity|].
    unfold not_blacklisted in Hnb. apply andb_true_iff in Hnb as [Hu Hs].
    apply String.eqb_eq in Hu. split; [exact Hu|].
    destruct (outreach_status (crm_broker x)) as [s|]; [|discriminate].
    exists s. split; [reflexivity|].
    apply negb_true_iff, String.eqb_neq in Hs. exact Hs.
  - apply elem_of_filter_bool in Hx as [Hx Hnew].
    apply negb_true_iff in Hnew.
    subst found. unfold leads_in in Hx.
    apply (fun H => elem_of_sublist _ _ _ H (sublist_take _ 100)) in Hx.
    apply elem_of_filter_bool in Hx as [Hx Hq].
    apply andb_true_iff in Hq as [Hq Hauth].
    apply andb_true_iff in Hq as [Hstate Hactive].
    exists x. split; [exact Hx|]. split; [reflexivity|].
    split; [reflexivity|].
    split; [apply status_is_true; exact Hactive|].
    split; [exact Hauth|].
    split.
    + destruct (address_state (lead_fields x)) as [st|]; [|discriminate].
      exists st. split; [reflexivity|].
      apply existsb_exists in Hstate as (y & Hy & Heq).
      apply String.eqb_eq in Heq. subst y.
      apply list_elem_of_In. exact Hy.
    + intros r mc Hr Hmc Hne. rewrite Hmc in Hnew.
      exact (has_false rows mc Hnew Hne r Hr).
Qed.

(** X25: blacklisting a broker does not keep it out of the
    recommendations.  The MC numbers a lead is checked against are those of
    the rows the CRM query returned, which leave out every blacklisted row
    and every row without a status: a lead of the target states that no
    other CRM row of the carrier matches is recommended, when the
    candidates number 30 at most, even if its MC number is that of a broker
    the carrier blacklisted. *)
Theorem blacklisted_mc_is_recommended_again :
  forall u profiles crm leads carrier l,
    profiles !! u = Some carrier ->
    l ∈ leads_in (targetStates (carrierState_of carrier)) leads ->
    (forall r, r ∈ crm -> crm_mc r = lead_mc l ->
               b_carrier_id (crm_broker r) <> u
               \/ outreach_status (crm_broker r) = Some "blacklisted"
               \/ outreach_status (crm_broker r) = None) ->
    (length (crmBrokers u crm)
     + length (leads_in (targetStates (carrierState_of carrier)) leads)
     <= 30)%nat ->
    exists targets,
      recommendations u profiles crm leads = Some targets
      /\ mkTarget (lead_fields l) (lead_mc l)
           (scoreBrokerTarget (lead_fields l) carrier (carrierState_of carrier))
           from_lead ∈ targets.
Proof.
  intros u profiles crm leads carrier l Hprof Hl Hcrm Hfew.
  unfold recommendations. rewrite Hprof. cbn zeta.
  eexists. split; [reflexivity|].
  set (home := carrierState_of carrier) in *.
  set (rows := crmBrokers u crm) in *.
  set (found := leads_in (targetStates home) leads) in *.
  assert (Hnew : has (crmMCs rows) (lead_mc l) = false).
  { destruct (has (crmMCs rows) (lead_mc l)) eqn:Hhas; [exfalso|reflexivity].
    unfold has in Hhas. destruct (lead_mc l) as [mc|] eqn:Hmc; [|discriminate].
    apply existsb_exists in Hhas as (y & Hy & Heq).
    apply String.eqb_eq in Heq. subst y.
    apply list_elem_of_In in Hy. unfold crmMCs in Hy.
    apply list_elem_of_omap in Hy as (r & Hr & Hsome).
    destruct (JS.truthy_str (crm_mc r)); [|discriminate].
    subst rows. unfold crmBrokers in Hr.
    apply elem_of_filter_bool in Hr as [Hr Hnb].
    unfold not_blacklisted in Hnb. apply andb_true_iff in Hnb as [Hu Hs].
    apply String.eqb_eq in Hu.
    destruct (Hcrm r Hr Hsome) as [Hne|[Hbl|Hnull]].
    - contradiction.
    - rewrite Hbl in Hs. discriminate.
    - rewrite Hnull in Hs. discriminate. }
  rewrite take_ge.
  - rewrite sort_by_perm. apply elem_of_app. right.
    apply list_elem_of_fmap. exists l. split; [reflexivity|].
    apply elem_of_filter_bool. split; [exact Hl|].
    rewrite Hnew. reflexivity.
  - rewrite sort_by_perm, length_app, !length_fmap.
    pose proof (List.filter_length_le
                  (fun l0 => negb (has (crmMCs rows) (lead_mc l0))) found).
    lia.
Qed.

Lemma blacklisted_mc_is_recommended_again_witness :
  exists targets,
    recommendations "u1" {[ "u1" := Scenarios.nj_carrier ]}
      Cases.crm_blacklisted [Cases.lead_same_mc] = Some targets
    /\ mkTarget (lead_fields Cases.lead_same_mc) (Some "MC100")
         (scoreBrokerTarget (lead_fields Cases.lead_same_mc)
            Scenarios.nj_carrier "NJ")
         from_lead ∈ targets.
Proof.
  apply (blacklisted_mc_is_recommended_again "u1"
           {[ "u1" := Scenarios.nj_carrier ]} Cases.crm_blacklisted
           [Cases.lead_same_mc] Scenarios.nj_carrier Cases.lead_same_mc).
  - reflexivity.
  - vm_compute. apply elem_of_cons. left. reflexivity.
  - intros r Hr _. right. left.
    apply elem_of_cons in Hr as [->|Hr]; [reflexivity|inversion Hr].
  - vm_compute. lia.
Defined.

End RankingFacts.

(** ** The cancellation precedence of the sweep *)

Section PrecedenceFacts.

Import TargetScorer Outreach Desk Reach.

(** What the loop body writes to the fetched step, column by column. *)
Lemma process_campaign_fields env now w row :
  exists patch,
    outreach_campaigns (db (fst (process_campaign env now w row)))
    = update_campaign (due_id row) patch (outreach_campaigns (db w))
    /\ forall c, campaign_id (patch c) = campaign_id c
                 /\ disposition env now row c (patch c).
Proof.
  unfold process_campaign, disposition, closed_as, delivered_as,
    same_but_outcome, due_mail.
  fold (due_id row).
  destruct (due_broker row) as [broker|]; cbn [mbind option_bind].
  2:{ eexists. split; [reflexivity|]. intros c. cbn. repeat split; reflexivity. }
  destruct (JS.truthy_str (email broker)) eqn:Hmail; cbn [negb].
  2:{ eexists. split; [reflexivity|]. intros c. cbn. repeat split; reflexivity. }
  destruct (status_is (outreach_status broker) "responded"
            || status_is (outreach_status broker) "active")%bool.
  { eexists. split; [reflexivity|]. intros c. cbn. repeat split; reflexivity. }
  destruct (status_is (outreach_status broker) "blacklisted").
  { eexists. split; [reflexivity|]. intros c. cbn. repeat split; reflexivity. }
  set (m := mkMail (default "" (email broker)) (Some (due_id row))).
  unfold deliver.
  destruct (sendgrid_ready env).
  - destruct (sgMail_send env m) as [mid|err];
      (eexists; split; [cbn; reflexivity|]);
      intros c; cbn; repeat split; reflexivity.
  - eexists. split; [cbn; reflexivity|].
    intros c. cbn. repeat split; reflexivity.
Qed.

(** After the loop over a batch with distinct ids, every row carrying a
    fetched id is the stored version of that step, rewritten once. *)
Lemma process_batch_disposition env now batch :
  forall w r x,
    NoDup (due_id <$> batch) ->
    r ∈ batch ->
    x ∈ outreach_campaigns (db (fst (process_batch env now batch w))) ->
    campaign_id x = due_id r ->
    exists c, c ∈ outreach_campaigns (db w)
      /\ campaign_id c = due_id r
      /\ disposition env now r c x.
Proof.
  induction batch as [|row rest IH]; intros w r x Hnd Hr Hx Hid.
  - inversion Hr.
  - cbn in Hnd. apply NoDup_cons in Hnd as [Hfirst Hnd].
    rewrite process_batch_cons in Hx.
    destruct (process_campaign_fields env now w row) as (patch & Hcs & Hpatch).
    apply elem_of_cons in Hr as [->|Hr].
    + assert (Hout : campaign_id x ∉ due_id <$> rest)
        by (rewrite Hid; exact Hfirst).
      pose proof (process_batch_rows_outside _ _ _ _ _ Hx Hout) as Hw1.
      rewrite Hcs in Hw1. apply elem_of_update_campaign in Hw1 as (c & Hc & ->).
      destruct (Nat.eqb_spec (campaign_id c) (due_id row)) as [Heq|Hne].
      * exists c. split; [exact Hc|]. split; [exact Heq|]. apply Hpatch.
      * contradiction.
    + destruct (IH _ r x Hnd Hr Hx Hid) as (c1 & Hc1 & Hid1 & Hd).
      rewrite Hcs in Hc1. apply elem_of_update_campaign in Hc1 as (c & Hc & ->).
      destruct (Nat.eqb_spec (campaign_id c) (due_id row)) as [Heq|Hne].
      * exfalso. apply Hfirst. destruct (Hpatch c) as [Hpid _].
        rewrite <- Heq, <- Hpid, Hid1. apply list_elem_of_fmap_2. exact Hr.
      * exists c. repeat split; assumption.
Qed.

(** C3: for every due step the sweep processes, the disposition follows
    the cancellation precedence before any send.  In each turn of the
    loop the rows carrying the fetched id, and no others, are rewritten:
    (a) without an email address on the joined broker the step becomes
    [failed] with the reason "Broker has no email address"; (b) else,
    for a broker "responded" or "active", [cancelled] with a reason
    containing "already responded"; (c) else, for a "blacklisted" broker,
    [cancelled] with a reason containing "blacklisted"; in these three
    cases nothing is handed to the provider and no broker row changes.
    Otherwise the message goes to the provider (when credentials are
    configured), the step becomes [sent] with the time and message id, or
    [failed] with the provider's error, and exactly when it becomes [sent]
    the broker's last contact is set to the clock reading and its attempt
    counter raised by one, nothing else of any broker being written.  Over
    a whole sweep of a store with distinct row ids every fetched step ends
    with these columns, the provider receives exactly the steps that pass
    the precedence, and a broker's counter grows by the number of its steps
    that end as [sent]. *)
Theorem sweep_follows_precedence :
  forall env now,
    let fate := fun (row : Due) (c x : Campaign) =>
      let addr := due_broker row ≫= email in
      let st := due_broker row ≫= outreach_status in
      if negb (JS.truthy_str addr) then
        closed_as failed "Broker has no email address" c x
      else if (status_is st "responded" || status_is st "active")%bool then
        closed_as cancelled "Broker already responded — follow-up cancelled" c x
      else if status_is st "blacklisted" then
        closed_as cancelled "Broker is blacklisted" c x
      else delivered_as env now (due_mail row) c x in
    JS.includes "Broker has no email address" "no email" = true
    /\ JS.includes "Broker already responded — follow-up cancelled"
         "already responded" = true
    /\ JS.includes "Broker is blacklisted" "blacklisted" = true
    /\ (forall w row,
          let cid := campaign_id (due_campaign row) in
          let bid := broker_id (due_campaign row) in
          let out := fst (process_campaign env now w row) in
          let passes := contactable (due_broker row) in
          let is_sent :=
            (passes && provider_accepts env (due_mail row))%bool in
          campaign_ids out = campaign_ids w
          /\ (forall c, c ∈ outreach_campaigns (db w) ->
                if Nat.eqb (campaign_id c) cid
                then exists x, x ∈ outreach_campaigns (db out) /\ fate row c x
                else c ∈ outreach_campaigns (db out))
          /\ (forall x, x ∈ outreach_campaigns (db out) ->
                exists c, c ∈ outreach_campaigns (db w)
                  /\ if Nat.eqb (campaign_id c) cid
                     then fate row c x else x = c)
          /\ mails out
             = mails w ++ (if (sendgrid_ready env && passes)%bool
                           then [due_mail row] else [])
          /\ (forall k, k <> bid ->
                brokers (db out) !! k = brokers (db w) !! k)
          /\ (if is_sent
              then forall b, brokers (db w) !! bid = Some b ->
                     exists b',
                       brokers (db out) !! bid = Some b'
                       /\ last_contact_date b' = Some now
                       /\ total_outreach_attempts b'
                          = Some (JS.or_zero (total_outreach_attempts b) + 1)
                       /\ same_but_contact b b'
              else brokers (db out) = brokers (db w)))
    /\ (forall w,
          NoDup (campaign_ids w) ->
          let batch := fetch_due now (db w) in
          (forall r, r ∈ batch ->
             (exists x, x ∈ outreach_campaigns (db (sweep env now w))
                        /\ campaign_id x = due_id r)
             /\ forall x, x ∈ outreach_campaigns (db (sweep env now w)) ->
                  campaign_id x = due_id r ->
                  fate r (due_campaign r) x)
          /\ mails (sweep env now w)
             = mails w
               ++ (if sendgrid_ready env
                   then due_mail <$>
                          List.filter (fun r => contactable (due_broker r)) batch
                   else [])
          /\ forall bid b, brokers (db w) !! bid = Some b ->
               let n := sent_to env bid batch in
               exists b',
                 brokers (db (sweep env now w)) !! bid = Some b'
                 /\ (n = 0%nat -> b' = b)
                 /\ ((0 < n)%nat ->
                     last_contact_date b' = Some now
                     /\ total_outreach_attempts b'
                        = Some (JS.or_zero (total_outreach_attempts b)
                                + Z.of_nat n))).
Proof.
  intros env now fate.
  assert (Hfate : forall row c x, fate row c x = disposition env now row c x)
    by reflexivity.
  split; [reflexivity|]. split; [reflexivity|]. split; [reflexivity|].
  split.
  - intros w row cid bid out passes is_sent.
    destruct (process_campaign_fields env now w row) as (patch & Hcs & Hpatch).
    destruct (process_campaign_tables env now w row)
      as (_ & _ & _ & Hmails & Htab & _).
    fold out in Hcs, Hmails, Htab. fold bid in Htab. fold passes in Hmails.
    rewrite final_status_sent in Htab. fold passes in Htab. fold is_sent in Htab.
    change (due_id row) with cid in Hcs.
    split.
    { unfold campaign_ids. rewrite Hcs. apply update_campaign_ids.
      intros c. apply Hpatch. }
    split.
    { intros c Hc.
      destruct (Nat.eqb (campaign_id c) cid) eqn:Heq.
      - exists (patch c). split; [|rewrite Hfate; apply Hpatch].
        rewrite Hcs. apply elem_of_update_campaign. exists c.
        rewrite Heq. split; [exact Hc|reflexivity].
      - rewrite Hcs. apply elem_of_update_campaign. exists c.
        rewrite Heq. split; [exact Hc|reflexivity]. }
    split.
    { intros x Hx. rewrite Hcs in Hx.
      apply elem_of_update_campaign in Hx as (c & Hc & ->).
      exists c. split; [exact Hc|].
      destruct (Nat.eqb (campaign_id c) cid); [|reflexivity].
      rewrite Hfate. apply Hpatch. }
    split; [exact Hmails|].
    split.
    { intros k Hk. rewrite Htab. destruct is_sent; [|reflexivity].
      apply lookup_alter_ne. congruence. }
    rewrite Htab. destruct is_sent; [|reflexivity].
    intros b Hb. rewrite lookup_alter_eq, Hb.
    exists (touched_patch (total_outreach_attempts b) now b).
    split; [reflexivity|].
    split; [reflexivity|]. split; [reflexivity|].
    unfold same_but_contact. repeat split; reflexivity.
  - intros w Hnd batch. rewrite sweep_unfold. fold batch.
    assert (Hbatch : NoDup (due_id <$> batch)) by (apply fetch_due_ids, Hnd).
    split; [|split].
    + intros r Hr.
      pose proof (fetch_due_sources _ _ _ Hr) as (Hin & _ & _ & _).
      split.
      * assert (Hidin : due_id r ∈ campaign_ids
                          (fst (process_batch env now batch w))).
        { rewrite process_batch_ids. unfold campaign_ids, due_id.
          apply list_elem_of_fmap_2. exact Hin. }
        unfold campaign_ids in Hidin.
        apply list_elem_of_fmap in Hidin as (x & Hid & Hx).
        exists x. split; [exact Hx|]. symmetry. exact Hid.
      * intros x Hx Hid.
        destruct (process_batch_disposition env now batch w r x
                    Hbatch Hr Hx Hid) as (c & Hc & Hidc & Hd).
        assert (c = due_campaign r) as <-.
        { eapply (NoDup_fmap_elem_inj campaign_id); [exact Hnd| | |];
            [exact Hc|exact Hin|exact Hidc]. }
        rewrite Hfate. exact Hd.
    + apply process_batch_tables.
    + intros bid b Hb n. subst n.
      destruct (process_batch_attempts env now batch w bid b Hb)
        as (b' & Hb' & _ & Hzero & Hpos).
      exists b'. split; [exact Hb'|]. split; [exact Hzero|].
      intros Hn. destruct (Hpos Hn) as [Ha Hl]. split; assumption.
Qed.

Lemma sweep_follows_precedence_witness :
  exists x,
    x ∈ outreach_campaigns
          (db (sweep Scenarios.env_live (10 * Scenarios.day)
                 Scenarios.w_blacklisted_due))
    /\ campaign_id x = 2%nat
    /\ status x = cancelled
    /\ error_message x = Some "Broker is blacklisted".
Proof.
  assert (Hnd : NoDup (campaign_ids Scenarios.w_blacklisted_due))
    by (apply (bool_decide_unpack _); vm_compute; reflexivity).
  destruct (sweep_follows_precedence Scenarios.env_live (10 * Scenarios.day))
    as (_ & _ & _ & _ & Hsweep).
  destruct (Hsweep Scenarios.w_blacklisted_due Hnd) as (Hrows & _).
  assert (Hr : mkDue (Scenarios.row 2 2 scheduled (3 * Scenarios.day) None)
                 (Some Scenarios.blacklisted_broker)
               ∈ fetch_due (10 * Scenarios.day) (db Scenarios.w_blacklisted_due)).
  { apply elem_of_cons. left. vm_compute. reflexivity. }
  destruct (Hrows _ Hr) as [(x & Hx & Hid) Hfate].
  destruct (Hfate x Hx Hid) as (_ & _ & Hst & Herr & _).
  exists x. repeat split; assumption.
Defined.

End PrecedenceFacts.

(** ** The conflict guard of the initial contact *)

Section ConflictFacts.

Import TargetScorer Outreach Desk Reach.




End ConflictFacts.

(** ** Replies, on the stores the handlers produce *)

Section ReplyFacts.

Import TargetScorer Outreach Desk Reach.























End ReplyFacts.
